(** * Civic-complaint chatbot: SQL safety validator and analytics engine

    A shallow embedding of [query_executor.py], [config.py] and
    [analytics_output.py], followed by the properties of the validator,
    of the query gateway and of the chart/summary engine.  The output
    parser and the completion service of [model_service.py], the
    converter of [utils.py], the start-up of [main.py] and the endpoint
    of [chatbot.py] come after them, with their own properties.

    Character model.  The modules [Text], [QueryExecutor], [ModelService]
    and those that build on them give the program on ASCII text: a text
    is a sequence of characters of [Ascii.ascii], and [str.upper],
    [str.lower], [str.strip] and the regular-expression classes [\w],
    [\s] and [\b] have their Python meaning on the codes below 128.

    The module [Unicode] gives the validator and the output parser on
    every Python string: a sequence of code points, with the case map
    and the character classes of CPython 3.11 as tables.  On ASCII text
    the two levels agree ([ValidatorBridge.validate_of_text],
    [UnicodeParser.parse_of_text]); beyond ASCII [str.upper] may turn a
    character into a character of another class, or into several
    characters, and what the validator and the parser do then is shown
    on examples.  The properties of the three checks of the validator and
    of the cut of the parser at SELECT are stated on [Unicode]. *)

From Stdlib Require Import List String Ascii Bool Arith ZArith QArith Lia.
From Stdlib Require Import DecimalString.
Import ListNotations.

Local Close Scope Q_scope.
Local Open Scope nat_scope.
Local Open Scope list_scope.
Local Open Scope string_scope.

(* ===================================================================== *)
(** * Text: the string operations of Python used by the program          *)
(* ===================================================================== *)

Module Text.

Definition text := list ascii.

Definition of_string : string -> text := list_ascii_of_string.
Definition to_string : text -> string := string_of_list_ascii.

Definition code (c : ascii) : nat := nat_of_ascii c.

Definition between (lo hi : nat) (c : ascii) : bool :=
  ((lo <=? code c) && (code c <=? hi))%nat.

Definition is_upper_char : ascii -> bool := between 65 90.
Definition is_lower_char : ascii -> bool := between 97 122.
Definition is_digit_char : ascii -> bool := between 48 57.
Definition is_alpha_char (c : ascii) : bool := is_upper_char c || is_lower_char c.

(** [str.isspace] on one character: TAB, LF, VT, FF, CR, the four
    separators FS, GS, RS, US, and the blank.  The class [\s] of [re]
    is the same set. *)
Definition is_space (c : ascii) : bool := between 9 13 c || between 28 32 c.

(** The class [\w] of [re]: letters, digits and the underscore. *)
Definition is_word (c : ascii) : bool :=
  is_alpha_char c || is_digit_char c || (code c =? 95)%nat.

Definition upper_char (c : ascii) : ascii :=
  if is_lower_char c then ascii_of_nat (code c - 32) else c.

Definition lower_char (c : ascii) : ascii :=
  if is_upper_char c then ascii_of_nat (code c + 32) else c.

(** [str.upper] and [str.lower]. *)
Definition upper (s : text) : text := map upper_char s.
Definition lower (s : text) : text := map lower_char s.

(** [str.title]: a letter that follows a letter is lowered, any other
    letter is raised; other characters are kept. *)
Fixpoint title_from (previous_is_cased : bool) (s : text) : text :=
  match s with
  | [] => []
  | c :: r =>
      if is_alpha_char c
      then (if previous_is_cased then lower_char c else upper_char c)
             :: title_from true r
      else c :: title_from false r
  end.

Definition title (s : text) : text := title_from false s.

Fixpoint drop_while (p : ascii -> bool) (s : text) : text :=
  match s with
  | [] => []
  | c :: r => if p c then drop_while p r else s
  end.

Fixpoint take_while (p : ascii -> bool) (s : text) : text :=
  match s with
  | [] => []
  | c :: r => if p c then c :: take_while p r else []
  end.

(** [str.lstrip], [str.rstrip] and [str.strip] without argument. *)
Definition lstrip (s : text) : text := drop_while is_space s.
Definition rstrip (s : text) : text := rev (drop_while is_space (rev s)).
Definition strip (s : text) : text := rstrip (lstrip s).

(** [s.rstrip(chars)] for a one-character [chars]. *)
Definition rstrip_char (x : ascii) (s : text) : text :=
  rev (drop_while (Ascii.eqb x) (rev s)).

(** [s.startswith(p)]. *)
Fixpoint starts_with (p s : text) : bool :=
  match p, s with
  | [], _ => true
  | _ :: _, [] => false
  | a :: p', c :: s' => Ascii.eqb a c && starts_with p' s'
  end.

(** [needle in hay] on strings. *)
Fixpoint contains (needle hay : text) : bool :=
  starts_with needle hay ||
  match hay with
  | [] => false
  | _ :: r => contains needle r
  end.

(** The assertion [\b] between two neighbouring positions; [None] is
    the outside of the string. *)
Definition is_word_opt (c : option ascii) : bool :=
  match c with
  | Some x => is_word x
  | None => false
  end.

Definition word_boundary (before after : option ascii) : bool :=
  xorb (is_word_opt before) (is_word_opt after).

(** [f"{n}"] for a non-negative integer. *)
Definition decimal (n : nat) : string := NilZero.string_of_uint (Nat.to_uint n).

End Text.

(* ===================================================================== *)
(** * Exceptions                                                          *)
(* ===================================================================== *)

(** The exception classes the program raises or lets through, with
    their message. *)
Inductive exn : Type :=
| ValueError (msg : string)
| AttributeError (msg : string)
| Exception (msg : string).

(** A computation that returns or raises. *)
Definition result (A : Type) : Type := (exn + A)%type.

Definition ret {A : Type} (a : A) : result A := inr a.
Definition raise {A : Type} (e : exn) : result A := inl e.

Definition bind {A B : Type} (m : result A) (k : A -> result B) : result B :=
  match m with
  | inl e => inl e
  | inr a => k a
  end.

Declare Scope result_scope.
Delimit Scope result_scope with result.
Notation "x <- m ;; k" := (bind m (fun x => k))
  (at level 61, m at next level, right associativity) : result_scope.
Notation "m ;;; k" := (bind m (fun _ => k))
  (at level 61, right associativity) : result_scope.

(* ===================================================================== *)
(** * config.py                                                           *)
(* ===================================================================== *)

Module Config.

(** Mapping of common terms to exact database category names, in the
    order of the dictionary literal. *)
Definition CATEGORY_MAPPING : list (string * string) :=
  [ ("pothole", "potholes");
    ("garbage", "Garbage");
    ("damaged electrical poles", "DamagedElectricalPoles");
    ("streetlight", "streetlight");
    ("roads", "roads");
    ("waterlogging", "WaterLogging");
    ("fallen trees", "FallenTrees");
    ("other", "other") ].

(** [list(CATEGORY_MAPPING.values())]. *)
Definition ALLOWED_CATEGORIES : list string := map snd CATEGORY_MAPPING.

End Config.

(* ===================================================================== *)
(** * Result rows                                                         *)
(* ===================================================================== *)

(** A cell of a result row is a scalar: [None], a boolean, an integer,
    a decimal number, a string or a timestamp.  [VNaN] is the filler
    pandas puts where a row lacks a column.  Integers are those of the
    database (64 bits); a decimal number is given by its value. *)
Inductive value : Type :=
| VNone
| VNaN
| VBool (b : bool)
| VInt (n : Z)
| VFloat (q : Q)
| VStr (s : string)
| VTimestamp (t : Z).

(** A row is a Python dictionary: its keys are distinct and keep their
    insertion order. *)
Definition row : Type := list (string * value).

(* ===================================================================== *)
(** * query_executor.py                                                   *)
(* ===================================================================== *)

Module QueryExecutor.
Import Text.

Definition DANGEROUS_KEYWORDS : list string :=
  [ "DROP"; "DELETE"; "TRUNCATE"; "INSERT"; "UPDATE";
    "ALTER"; "CREATE"; "GRANT"; "REVOKE"; "EXEC";
    "EXECUTE"; "PROCEDURE"; "FUNCTION" ].

Definition newline : ascii := "010"%char.
Definition quote : ascii := "'"%char.

(** [re.sub(r'--.*$', '', sql, flags=re.MULTILINE)].  A match starts at
    two dashes and runs to the end of the line: the dot takes every
    character but the line feed, and [$] holds before a line feed and
    at the end of the text.  [in_comment] tells that the scan is
    inside a match. *)
Fixpoint sub_line_comments (in_comment : bool) (s : text) : text :=
  match s with
  | [] => []
  | c :: r =>
      if in_comment
      then (if Ascii.eqb c newline
            then c :: sub_line_comments false r
            else sub_line_comments true r)
      else match r with
           | d :: _ =>
               if Ascii.eqb c "-" && Ascii.eqb d "-"
               then sub_line_comments true r
               else c :: sub_line_comments false r
           | [] => [c]
           end
  end.

(** Length of the shortest prefix that ends in the two characters
    closing a block comment. *)
Fixpoint block_end (s : text) : option nat :=
  match s with
  | [] => None
  | c :: r =>
      match r with
      | d :: _ =>
          if Ascii.eqb c "*" && Ascii.eqb d "/"
          then Some 2
          else option_map S (block_end r)
      | [] => None
      end
  end.

(** [re.sub(r'/\*.*?\*/', '', s, flags=re.DOTALL)].  A match starts at
    an opening pair and ends with the first closing pair after it; an
    opening pair with no closing pair matches nothing.  [skip] counts
    the characters of the current match still to be dropped. *)
Fixpoint sub_block_comments (skip : nat) (s : text) : text :=
  match s with
  | [] => []
  | c :: r =>
      match skip with
      | S k => sub_block_comments k r
      | O =>
          match r with
          | d :: r' =>
              if Ascii.eqb c "/" && Ascii.eqb d "*"
              then match block_end r' with
                   | Some n => sub_block_comments (S n) r
                   | None => c :: sub_block_comments 0 r
                   end
              else c :: sub_block_comments 0 r
          | [] => [c]
          end
      end
  end.

(** The two substitutions at the head of [_validate_sql]. *)
Definition strip_comments (sql : text) : text :=
  sub_block_comments 0 (sub_line_comments false sql).

(** Does [\b kw \b] match at the head of [s], [prev] being the
    character before it?  The second boundary lies between the last
    character matched ([prev] again for an empty keyword) and the one
    after. *)
Definition match_word_at (prev : option ascii) (kw s : text) : bool :=
  word_boundary prev (hd_error s)
  && starts_with kw s
  && word_boundary (match rev kw with c :: _ => Some c | [] => prev end)
                   (hd_error (skipn (List.length kw) s)).

Fixpoint search_word_from (prev : option ascii) (kw s : text) : bool :=
  match_word_at prev kw s ||
  match s with
  | [] => false
  | c :: r => search_word_from (Some c) kw r
  end.

(** [re.search(r'\b' + keyword + r'\b', s)] as a truth value. *)
Definition search_word (kw s : text) : bool := search_word_from None kw s.

(** The class [[^']]. *)
Definition not_quote (c : ascii) : bool := negb (Ascii.eqb c quote).

(** One attempt of [category\s*=\s*'([^']+)'] with [re.IGNORECASE] at
    the head of [s]: the captured literal and the length of the
    match.  Each starred class is followed by a character outside it,
    so the greedy choice is the only one. *)
Definition match_category_at (s : text) : option (text * nat) :=
  let kw := of_string "category" in
  if starts_with kw (lower (firstn (List.length kw) s)) then
    let s1 := skipn (List.length kw) s in
    let ws1 := take_while is_space s1 in
    match drop_while is_space s1 with
    | e :: s2 =>
        if Ascii.eqb e "=" then
          let ws2 := take_while is_space s2 in
          match drop_while is_space s2 with
          | q :: s3 =>
              if Ascii.eqb q quote then
                let lit := take_while not_quote s3 in
                match lit, drop_while not_quote s3 with
                | _ :: _, _ :: _ =>
                    Some (lit, List.length kw + List.length ws1 + 1 + List.length ws2
                               + 1 + List.length lit + 1)
                | _, _ => None
                end
              else None
          | [] => None
          end
        else None
    | [] => None
    end
  else None.

(** [re.findall] of that pattern: matches are taken from left to
    right and do not overlap.  [skip] counts the characters of the
    last match that follow the current position. *)
Fixpoint findall_category_from (skip : nat) (s : text) : list text :=
  match s with
  | [] => []
  | _ :: r =>
      match skip with
      | S k => findall_category_from k r
      | O =>
          match match_category_at s with
          | Some (lit, n) => lit :: findall_category_from (n - 1) r
          | None => findall_category_from 0 r
          end
      end
  end.

Definition findall_category (s : text) : list string :=
  map to_string (findall_category_from 0 s).

(** [cat not in ALLOWED_CATEGORIES]. *)
Definition not_allowed (cat : string) : bool :=
  negb (existsb (String.eqb cat) Config.ALLOWED_CATEGORIES).

Definition forbidden_keyword_message (keyword : string) : string :=
  "Query contains forbidden keyword: " ++ keyword
    ++ ". Only SELECT queries are allowed.".

Definition category_message (cat : string) : string :=
  "Query uses a category that is not allowed: " ++ cat.

(** The loop over [DANGEROUS_KEYWORDS]: the first keyword found
    raises. *)
Definition check_keywords (sql_upper : text) : result unit :=
  match find (fun keyword => search_word (of_string keyword) sql_upper)
             DANGEROUS_KEYWORDS with
  | Some keyword => raise (ValueError (forbidden_keyword_message keyword))
  | None => ret tt
  end.

Definition check_select (sql_clean : text) : result unit :=
  if negb (starts_with (of_string "SELECT") (upper (strip sql_clean)))
  then raise (ValueError "Only SELECT queries are allowed")
  else ret tt.

(** The loop over [category_match]: the first literal outside the
    allow-list raises. *)
Definition check_categories (sql_clean : text) : result unit :=
  match find not_allowed (findall_category sql_clean) with
  | Some cat => raise (ValueError (category_message cat))
  | None => ret tt
  end.

(** [SupabaseClient._validate_sql]. *)
Definition _validate_sql (sql : string) : result unit :=
  let sql_clean := strip_comments (of_string sql) in
  let sql_upper := upper sql_clean in
  (check_keywords sql_upper ;;;
   check_select sql_clean ;;;
   check_categories sql_clean)%result.

(** What [client.rpc('execute_sql', ...).execute()] hands back: the
    message of [result.error] when that attribute exists and is truthy,
    and [result.data] when that attribute exists. *)
Record rpc_response : Type := {
  resp_error : option string;
  resp_data : option (list row)
}.

(** The remote procedure: it answers or raises. *)
Definition remote : Type := text -> result rpc_response.

(** [self.client] is [None] until [initialize] has run. *)
Record SupabaseClient : Type := { client : option remote }.

Definition is_initialized (self : SupabaseClient) : bool :=
  match client self with
  | Some _ => true
  | None => false
  end.

(** [SupabaseClient.execute_query].  The second component lists the
    queries handed to the remote procedure during the call. *)
Definition execute_query (self : SupabaseClient) (sql : string)
  : result (list row) * list text :=
  match _validate_sql sql with
  | inl e => (raise e, [])
  | inr _ =>
      let sanitized_sql := rstrip_char ";" (strip (of_string sql)) in
      match client self with
      | None =>
          (raise (AttributeError "'NoneType' object has no attribute 'rpc'"), [])
      | Some rpc =>
          (r <- rpc sanitized_sql ;;
           match resp_error r with
           | Some message => raise (Exception ("Database query failed: " ++ message))
           | None =>
               ret (match resp_data r with
                    | Some rows => rows
                    | None => []
                    end)
           end,
           [sanitized_sql])%result
      end
  end.

End QueryExecutor.

(* ===================================================================== *)
(** * The part of pandas the analytics engine uses                        *)
(* ===================================================================== *)

Module Pandas.

Inductive dtype : Type := int64 | float64 | bool_ | object | datetime64.

(** The value of a double; [None] is NaN. *)
Definition double : Type := option Q.

Definition dtype_name (d : dtype) : string :=
  match d with
  | int64 => "int64"
  | float64 => "float64"
  | bool_ => "bool"
  | object => "object"
  | datetime64 => "datetime64[ns]"
  end.

Record Series : Type := { s_dtype : dtype; s_values : list value }.

(** A frame: the length of its index and its columns in order. *)
Record DataFrame : Type := {
  nrows : nat;
  frame_columns : list (string * Series)
}.

Definition is_null (v : value) : bool :=
  match v with
  | VNone | VNaN => true
  | _ => false
  end.

Definition is_str (v : value) : bool :=
  match v with VStr _ => true | _ => false end.
Definition is_timestamp (v : value) : bool :=
  match v with VTimestamp _ => true | _ => false end.
Definition is_bool (v : value) : bool :=
  match v with VBool _ => true | _ => false end.
Definition is_int (v : value) : bool :=
  match v with VInt _ => true | _ => false end.
Definition is_float (v : value) : bool :=
  match v with VFloat _ => true | _ => false end.
Definition is_nan (v : value) : bool :=
  match v with VNaN => true | _ => false end.

(** The dtype pandas infers for a column of scalars: a string, or a
    mix of kinds, gives [object]; timestamps with nulls [datetime64];
    booleans alone [bool]; integers alone [int64]; numbers with nulls
    or decimals [float64]; [None] alone [object]. *)
Definition infer_dtype (vs : list value) : dtype :=
  if existsb is_str vs then object
  else if existsb is_timestamp vs then
    (if forallb (fun v => is_timestamp v || is_null v) vs
     then datetime64 else object)
  else if existsb is_bool vs then
    (if forallb is_bool vs then bool_ else object)
  else if existsb (fun v => is_int v || is_float v) vs then
    (if forallb is_int vs then int64 else float64)
  else if existsb is_nan vs then float64
  else object.

Definition mem (k : string) (ks : list string) : bool :=
  existsb (String.eqb k) ks.

(** [row.get(k)]. *)
Fixpoint lookup (k : string) (r : row) : option value :=
  match r with
  | [] => None
  | (k', v) :: r' => if String.eqb k k' then Some v else lookup k r'
  end.

(** The columns of a frame built from dictionaries: every key, in the
    order of its first appearance. *)
Definition add_keys (seen : list string) (r : row) : list string :=
  fold_left (fun acc k => if mem k acc then acc else (acc ++ [k])%list)
            (map fst r) seen.

Definition column_names (data : list row) : list string :=
  fold_left add_keys data [].

Definition column_values (data : list row) (k : string) : list value :=
  map (fun r => match lookup k r with
                | Some v => v
                | None => VNaN
                end) data.

(** [pd.DataFrame(data)] for a list of dictionaries. *)
Definition DataFrame_of (data : list row) : DataFrame :=
  {| nrows := List.length data;
     frame_columns :=
       map (fun k => let vs := column_values data k in
                     (k, {| s_dtype := infer_dtype vs; s_values := vs |}))
           (column_names data) |}.

(** [len(df)]. *)
Definition len (df : DataFrame) : nat := nrows df.

(** [list(df.columns)]. *)
Definition columns (df : DataFrame) : list string :=
  map fst (frame_columns df).

(** [df[col]]; [None] stands for [KeyError]. *)
Fixpoint getitem_from (cols : list (string * Series)) (col : string)
  : option Series :=
  match cols with
  | [] => None
  | (k, s) :: cols' => if String.eqb col k then Some s else getitem_from cols' col
  end.

Definition getitem (df : DataFrame) (col : string) : option Series :=
  getitem_from (frame_columns df) col.

(** [series.head(n)] and [df.head(n)]. *)
Definition head (n : nat) (s : Series) : Series :=
  {| s_dtype := s_dtype s; s_values := firstn n (s_values s) |}.

Definition head_frame (n : nat) (df : DataFrame) : DataFrame :=
  {| nrows := Nat.min n (nrows df);
     frame_columns := map (fun c => (fst c, head n (snd c))) (frame_columns df) |}.

(** [series.notna().sum()]. *)
Definition notna_sum (s : Series) : nat :=
  List.length (filter (fun v => negb (is_null v)) (s_values s)).

(** [df.select_dtypes(include=...).columns.tolist()]. *)
Definition select_dtypes (include : dtype -> bool) (df : DataFrame)
  : list string :=
  map fst (filter (fun c => include (s_dtype (snd c))) (frame_columns df)).

(** ['number'], ['object', 'category'] and ['datetime64'].  No column
    built from scalars has the dtype [category]. *)
Definition number (d : dtype) : bool :=
  match d with int64 | float64 => true | _ => false end.
Definition object_or_category (d : dtype) : bool :=
  match d with object => true | _ => false end.
Definition datetime (d : dtype) : bool :=
  match d with datetime64 => true | _ => false end.

(** [lst.remove(x)] on a list that holds [x]: the first occurrence
    goes. *)
Fixpoint list_remove (x : string) (l : list string) : list string :=
  match l with
  | [] => []
  | y :: l' => if String.eqb x y then l' else y :: list_remove x l'
  end.

End Pandas.

(* ===================================================================== *)
(** * analytics_output.py                                                 *)
(* ===================================================================== *)

Module Analytics.
Import Text Pandas.

(** The chart description handed to the caller by [fig.to_dict()],
    kept as the arguments the figure was built from (the kind of
    chart, the two columns, the title and the axis labels) and the
    layout set afterwards.  The traces that plotly computes from the
    frame are not part of it. *)
Record figure : Type := {
  fig_kind : string;
  fig_x : string;
  fig_y : option string;
  fig_title : string;
  fig_labels : list (string * string);
  fig_template : string;
  fig_height : nat;
  fig_margin : nat * nat * nat * nat
}.

Record numeric_stat : Type := {
  stat_min : double;
  stat_max : double;
  stat_mean : double;
  stat_median : double;
  stat_sum : double
}.

Record categorical_stat : Type := {
  unique_values : nat;
  most_common : option string
}.

(** The dictionary built by [_generate_summary]; the two statistics
    keys exist only when a column of that kind does. *)
Record summary : Type := {
  total_rows : nat;
  summary_columns : list string;
  column_types : list (string * string);
  numeric_stats : option (list (string * numeric_stat));
  categorical_stats : option (list (string * categorical_stat))
}.

Inductive data_summary : Type :=
| SummaryMessage (message : string)
| SummaryStats (s : summary)
| SummaryError (error : string).

(** The dictionary returned by [generate_analytics]. *)
Record analytics : Type := {
  chart_type : string;
  plotly_config : option figure;
  data_summary_of : data_summary
}.

Definition exn_message (e : exn) : string :=
  match e with
  | ValueError m | AttributeError m | Exception m => m
  end.

(** [str(y_col)] for an optional column name. *)
Definition str_opt (c : option string) : string :=
  match c with
  | Some s => s
  | None => "None"
  end.

Definition title_str (s : string) : string := to_string (title (of_string s)).

(** [any(word in question.lower() for word in words)]. *)
Definition any_word_in (words : list string) (question : string) : bool :=
  existsb (fun word => contains (of_string word) (lower (of_string question)))
          words.

(** The library calls whose result is not computed here.
    [to_datetime] is [pd.to_datetime(series, errors='coerce')]: it
    raises ([None]) or gives, for each entry, the instant it parsed
    or [NaT].  [px_raises] tells whether the plotly call for that
    chart, frame and columns raises.  The reductions of a numeric
    column give the value of the number they return; [format_number]
    is the format [,.2f]; [series_mode] is [series.mode()] as a list,
    [series_nunique] is [series.nunique()], and [str_value] is [str]
    on a cell. *)
Record Library : Type := {
  to_datetime : Series -> option (list (option Z));
  px_raises : string -> DataFrame -> string -> option string -> bool;
  series_min : Series -> double;
  series_max : Series -> double;
  series_mean : Series -> double;
  series_median : Series -> double;
  series_sum : Series -> double;
  format_number : double -> string;
  series_mode : Series -> list value;
  series_nunique : Series -> nat;
  str_value : value -> string
}.

Section Engine.

Variable lib : Library.

(** One turn of the loop [for col in cat_cols[:]] on the two lists
    it updates.  Whatever is raised inside is swallowed. *)
Definition reclassify_step (df : DataFrame)
  (st : list string * list string) (col : string)
  : list string * list string :=
  let '(date_cols, cat_cols) := st in
  match getitem df col with
  | None => st
  | Some s =>
      match to_datetime lib (head 5 s) with
      | None => st
      | Some _ =>
          if (0 <? notna_sum (head 5 s))%nat
          then ((date_cols ++ [col])%list, list_remove col cat_cols)
          else st
      end
  end.

(** The three column lists after that loop: numeric, categorical,
    temporal. *)
Definition classify_columns (df : DataFrame)
  : list string * list string * list string :=
  let num_cols := select_dtypes number df in
  let cat_cols := select_dtypes object_or_category df in
  let date_cols := select_dtypes datetime df in
  let '(date_cols, cat_cols) :=
    fold_left (reclassify_step df) cat_cols (date_cols, cat_cols) in
  (num_cols, cat_cols, date_cols).

(** [AnalyticsService._detect_chart_type]. *)
Definition _detect_chart_type (df : DataFrame) (question : string)
  : string * option string * option string :=
  let '(num_cols, cat_cols, date_cols) := classify_columns df in
  match date_cols, num_cols with
  | d :: _, n :: _ => ("line", Some d, Some n)
  | _, _ =>
      match cat_cols, num_cols with
      | c :: _, n :: _ =>
          if any_word_in ["distribution"; "breakdown"; "percentage"; "proportion"]
                         question
          then ("pie", Some c, Some n)
          else ("bar", Some c, Some n)
      | _, _ =>
          match num_cols with
          | n1 :: n2 :: _ =>
              if any_word_in ["correlation"; "relationship"; "vs"; "versus"]
                             question
              then ("scatter", Some n1, Some n2)
              else ("bar", Some n1, Some n2)
          | _ => ("table", None, None)
          end
      end
  end.

(** [not x_col]: [None] and the empty name are falsy. *)
Definition falsy (c : option string) : bool :=
  match c with
  | None => true
  | Some s => String.eqb s EmptyString
  end.

Definition layout (kind : string) (x : string)
  (y : option string) (title : string) (labels : list (string * string))
  : figure :=
  {| fig_kind := kind; fig_x := x; fig_y := y;
     fig_title := title; fig_labels := labels;
     fig_template := "plotly_white"; fig_height := 400;
     fig_margin := (50, 50, 50, 50) |}.

(** [if len(df) > 100: df = df.head(100)]. *)
Definition limit_rows (df : DataFrame) : DataFrame :=
  if (100 <? len df)%nat then head_frame 100 df else df.

(** A plotly call with axis labels: [y_col.title()] raises on
    [None], and the call itself may raise; [None] is the exception. *)
Definition px_labelled (kind : string) (df : DataFrame) (x : string)
  (y_col : option string) (title : string -> string -> string)
  : option figure :=
  match y_col with
  | None => None
  | Some y =>
      if px_raises lib kind df x y_col then None
      else Some (layout kind x y_col (title x y)
                        [(x, title_str x); (y, title_str y)])
  end.

(** [AnalyticsService._generate_plotly_config]; [None] is Python's
    [None], returned at the guard, for an unknown chart type and
    from the exception handler. *)
Definition _generate_plotly_config (df : DataFrame) (chart_type : string)
  (x_col y_col : option string) (question : string) : option figure :=
  if String.eqb chart_type "table" || falsy x_col then None
  else
    match x_col with
    | None => None
    | Some x =>
        let df := limit_rows df in
        if String.eqb chart_type "bar" then
          px_labelled "bar" df x y_col (fun x y => y ++ " by " ++ x)
        else if String.eqb chart_type "line" then
          px_labelled "line" df x y_col (fun _ y => y ++ " over time")
        else if String.eqb chart_type "pie" then
          (if px_raises lib "pie" df x y_col then None
           else Some (layout "pie" x y_col
                             (str_opt y_col ++ " Distribution") []))
        else if String.eqb chart_type "scatter" then
          px_labelled "scatter" df x y_col (fun x y => y ++ " vs " ++ x)
        else None
    end.

Definition series_of (df : DataFrame) (col : string) : Series :=
  match getitem df col with
  | Some s => s
  | None => {| s_dtype := object; s_values := [] |}
  end.

(** [AnalyticsService._generate_summary]. *)
Definition _generate_summary (df : DataFrame) : summary :=
  let num_cols := select_dtypes number df in
  let cat_cols := select_dtypes object_or_category df in
  {| total_rows := len df;
     summary_columns := columns df;
     column_types :=
       map (fun c => (fst c, dtype_name (s_dtype (snd c)))) (frame_columns df);
     numeric_stats :=
       if (0 <? List.length num_cols)%nat then
         Some (map (fun col =>
                      let s := series_of df col in
                      (col, {| stat_min := series_min lib s;
                               stat_max := series_max lib s;
                               stat_mean := series_mean lib s;
                               stat_median := series_median lib s;
                               stat_sum := series_sum lib s |}))
                   num_cols)
       else None;
     categorical_stats :=
       if (0 <? List.length cat_cols)%nat then
         Some (map (fun col =>
                      let s := series_of df col in
                      (col, {| unique_values := series_nunique lib s;
                               most_common :=
                                 match series_mode lib s with
                                 | m :: _ => Some (str_value lib m)
                                 | [] => None
                                 end |}))
                   cat_cols)
       else None |}.

(** The body of the [try] of [generate_analytics].  On rows of scalars
    none of the pandas calls made here raises, and what plotly raises
    is caught in [_generate_plotly_config]: the body returns. *)
Definition analyse (data : list row) (question : string) : result analytics :=
  (df <- ret (DataFrame_of data) ;;
   let '(chart_type, x_col, y_col) := _detect_chart_type df question in
   let plotly_config :=
     _generate_plotly_config df chart_type x_col y_col question in
   data_summary <- ret (_generate_summary df) ;;
   ret {| chart_type := chart_type;
          plotly_config := plotly_config;
          data_summary_of := SummaryStats data_summary |})%result.

(** [AnalyticsService.generate_analytics]. *)
Definition generate_analytics (data : list row) (question : string)
  : analytics :=
  match data with
  | [] =>
      {| chart_type := "none";
         plotly_config := None;
         data_summary_of := SummaryMessage "No data returned" |}
  | _ :: _ =>
      match analyse data question with
      | inr a => a
      | inl e =>
          {| chart_type := "error";
             plotly_config := None;
             data_summary_of := SummaryError (exn_message e) |}
      end
  end.

(** The first element of [summary_parts]. *)
Definition found_sentence (num_rows : nat) : string :=
  "Found " ++ decimal num_rows ++ " result"
    ++ (if negb (num_rows =? 1)%nat then "s" else EmptyString) ++ ".".

Definition numeric_insight (df : DataFrame) (col : string) : string :=
  let total := series_sum lib (series_of df col) in
  let avg := series_mean lib (series_of df col) in
  title_str col ++ ": Total=" ++ format_number lib total
    ++ ", Average=" ++ format_number lib avg.

Definition categorical_insight (df : DataFrame) (col : string) : string :=
  let top_value :=
    match series_mode lib (series_of df col) with
    | m :: _ => str_value lib m
    | [] => "N/A"
    end in
  "Most common " ++ col ++ ": " ++ top_value.

(** [" ".join(parts)]. *)
Definition join_spaces (parts : list string) : string :=
  String.concat " " parts.

(** [AnalyticsService.generate_text_summary]. *)
Definition generate_text_summary (data : list row) (question : string)
  : string :=
  match data with
  | [] => "No results found for your question."
  | _ :: _ =>
      let df := DataFrame_of data in
      let num_rows := len df in
      let summary_parts := [found_sentence num_rows] in
      let num_cols := select_dtypes number df in
      let summary_parts :=
        (summary_parts ++ map (numeric_insight df) (firstn 2 num_cols))%list in
      let cat_cols := select_dtypes object_or_category df in
      let summary_parts :=
        (summary_parts ++ map (categorical_insight df) (firstn 1 cat_cols))%list in
      join_spaces summary_parts
  end.

End Engine.

End Analytics.

(* ===================================================================== *)
(** * An instance of the library                                          *)
(* ===================================================================== *)

(** An instance of [Analytics.Library] to run the engine on examples:
    dates are read in the form YYYY-MM-DD only, plotly never raises,
    and the reductions are computed in exact rational arithmetic. *)
Module Sample.
Import Text Pandas Analytics.

Definition digit_value (c : ascii) : option Z :=
  if is_digit_char c then Some (Z.of_nat (code c - 48)) else None.

Fixpoint digits_value (acc : Z) (s : text) : option Z :=
  match s with
  | [] => Some acc
  | c :: r =>
      match digit_value c with
      | Some d => digits_value (10 * acc + d) r
      | None => None
      end
  end.

(** The date YYYY-MM-DD as the number YYYYMMDD. *)
Definition parse_date (s : string) : option Z :=
  match of_string s with
  | [y1; y2; y3; y4; d1; m1; m2; d2; a1; a2] =>
      if Ascii.eqb d1 "-" && Ascii.eqb d2 "-" then
        match digits_value 0 [y1; y2; y3; y4],
              digits_value 0 [m1; m2], digits_value 0 [a1; a2] with
        | Some y, Some m, Some a =>
            if ((1 <=? m) && (m <=? 12) && (1 <=? a) && (a <=? 31))%Z
            then Some (y * 10000 + m * 100 + a)%Z
            else None
        | _, _, _ => None
        end
      else None
  | _ => None
  end.

Definition to_datetime (s : Series) : option (list (option Z)) :=
  Some (map (fun v => match v with
                      | VTimestamp t => Some t
                      | VStr x => parse_date x
                      | _ => None
                      end) (s_values s)).

(** The numbers of a column, nulls skipped. *)
Definition numbers (s : Series) : list Q :=
  flat_map (fun v => match v with
                     | VInt n => [inject_Z n]
                     | VFloat q => [q]
                     | _ => []
                     end) (s_values s).

Definition total (qs : list Q) : Q := fold_left Qplus qs (inject_Z 0).

Definition least (qs : list Q) : double :=
  match qs with
  | [] => None
  | q :: r => Some (fold_left (fun a b => if Qle_bool a b then a else b) r q)
  end.

Definition greatest (qs : list Q) : double :=
  match qs with
  | [] => None
  | q :: r => Some (fold_left (fun a b => if Qle_bool a b then b else a) r q)
  end.

Definition mean (qs : list Q) : double :=
  match qs with
  | [] => None
  | _ :: _ => Some (Qred (total qs / inject_Z (Z.of_nat (List.length qs))))
  end.

Fixpoint insert_sorted (q : Q) (l : list Q) : list Q :=
  match l with
  | [] => [q]
  | x :: r => if Qle_bool q x then q :: l else x :: insert_sorted q r
  end.

Definition sorted (qs : list Q) : list Q := fold_right insert_sorted [] qs.

Definition median (qs : list Q) : double :=
  let l := sorted qs in
  let n := List.length l in
  match n with
  | O => None
  | S _ =>
      if Nat.even n
      then Some (Qred ((nth (n / 2 - 1) l (inject_Z 0) + nth (n / 2) l (inject_Z 0))
                       / inject_Z 2))
      else Some (nth (n / 2) l (inject_Z 0))
  end.

(** The integer nearest to [q], ties to the even one. *)
Definition round_half_even (q : Q) : Z :=
  let n := Qnum q in
  let d := Z.pos (Qden q) in
  let f := (n / d)%Z in
  let r2 := (2 * (n mod d))%Z in
  if (r2 <? d)%Z then f
  else if (d <? r2)%Z then (f + 1)%Z
  else if Z.even f then f else (f + 1)%Z.

(** Commas between groups of three digits, counted from the right. *)
Fixpoint group_from_right (rev_digits : text) (k : nat) : text :=
  match rev_digits with
  | [] => []
  | c :: r =>
      match k, r with
      | 2, _ :: _ => c :: ","%char :: group_from_right r 0
      | _, _ => c :: group_from_right r (S k)
      end
  end.

Definition with_commas (n : nat) : string :=
  to_string (rev (group_from_right (rev (of_string (decimal n))) 0)).

Definition two_digits (n : nat) : string :=
  if (n <? 10)%nat then "0" ++ decimal n else decimal n.

(** The format [,.2f]. *)
Definition format_number (x : double) : string :=
  match x with
  | None => "nan"
  | Some q =>
      let cents := Z.abs (round_half_even (q * inject_Z 100)) in
      (if Qle_bool (inject_Z 0) q then EmptyString else "-")
        ++ with_commas (Z.to_nat (cents / 100)) ++ "."
        ++ two_digits (Z.to_nat (cents mod 100))
  end.

(** Python's [==] on cells that are not null. *)
Definition as_number (v : value) : option Q :=
  match v with
  | VBool b => Some (inject_Z (if b then 1 else 0))
  | VInt n => Some (inject_Z n)
  | VFloat q => Some q
  | _ => None
  end.

Definition value_eqb (a b : value) : bool :=
  match a, b with
  | VStr x, VStr y => String.eqb x y
  | VTimestamp x, VTimestamp y => Z.eqb x y
  | _, _ =>
      match as_number a, as_number b with
      | Some x, Some y => Qeq_bool x y
      | _, _ => false
      end
  end.

Definition count_of (v : value) (vs : list value) : nat :=
  List.length (filter (value_eqb v) vs).

Fixpoint distinct (vs : list value) : list value :=
  match vs with
  | [] => []
  | v :: r => v :: filter (fun w => negb (value_eqb v w)) (distinct r)
  end.

Definition non_null (s : Series) : list value :=
  filter (fun v => negb (is_null v)) (s_values s).

Definition series_nunique (s : Series) : nat :=
  List.length (distinct (non_null s)).

Definition value_leb (a b : value) : bool :=
  match a, b with
  | VStr x, VStr y => String.leb x y
  | _, _ =>
      match as_number a, as_number b with
      | Some x, Some y => Qle_bool x y
      | _, _ => true
      end
  end.

Fixpoint insert_value (v : value) (l : list value) : list value :=
  match l with
  | [] => [v]
  | x :: r => if value_leb v x then v :: l else x :: insert_value v r
  end.

(** The most frequent cells that are not null, in increasing order. *)
Definition series_mode (s : Series) : list value :=
  let vs := non_null s in
  let best := fold_right Nat.max 0 (map (fun v => count_of v vs) vs) in
  fold_right insert_value []
    (filter (fun v => (count_of v vs =? best)%nat) (distinct vs)).

Definition decimal_Z (n : Z) : string :=
  (if (n <? 0)%Z then "-" else EmptyString) ++ decimal (Z.abs_nat n).

(** [str] on a cell; a decimal number is shown with two places. *)
Definition str_value (v : value) : string :=
  match v with
  | VNone => "None"
  | VNaN => "nan"
  | VBool true => "True"
  | VBool false => "False"
  | VInt n => decimal_Z n
  | VFloat q => format_number (Some q)
  | VStr s => s
  | VTimestamp t => decimal_Z t
  end.

Definition library : Library :=
  {| Analytics.to_datetime := to_datetime;
     Analytics.px_raises := fun _ _ _ _ => false;
     Analytics.series_min := fun s => least (numbers s);
     Analytics.series_max := fun s => greatest (numbers s);
     Analytics.series_mean := fun s => mean (numbers s);
     Analytics.series_median := fun s => median (numbers s);
     Analytics.series_sum := fun s => Some (Qred (total (numbers s)));
     Analytics.format_number := format_number;
     Analytics.series_mode := series_mode;
     Analytics.series_nunique := series_nunique;
     Analytics.str_value := str_value |}.

(** The rows of the two scenarios of the specification. *)
Definition complaints : list row :=
  [ [("category", VStr "potholes"); ("count", VInt 5)];
    [("category", VStr "roads"); ("count", VInt 3)] ].

Definition monthly_totals : list row :=
  [ [("created_at", VStr "2024-01-01"); ("total", VInt 10)];
    [("created_at", VStr "2024-02-01"); ("total", VInt 20)] ].

(** A library with another date parser, or other plotly failures. *)
Definition with_to_datetime (f : Series -> option (list (option Z)))
  (lib : Library) : Library :=
  {| Analytics.to_datetime := f;
     Analytics.px_raises := Analytics.px_raises lib;
     Analytics.series_min := Analytics.series_min lib;
     Analytics.series_max := Analytics.series_max lib;
     Analytics.series_mean := Analytics.series_mean lib;
     Analytics.series_median := Analytics.series_median lib;
     Analytics.series_sum := Analytics.series_sum lib;
     Analytics.format_number := Analytics.format_number lib;
     Analytics.series_mode := Analytics.series_mode lib;
     Analytics.series_nunique := Analytics.series_nunique lib;
     Analytics.str_value := Analytics.str_value lib |}.

Definition with_px_raises
  (f : string -> DataFrame -> string -> option string -> bool)
  (lib : Library) : Library :=
  {| Analytics.to_datetime := Analytics.to_datetime lib;
     Analytics.px_raises := f;
     Analytics.series_min := Analytics.series_min lib;
     Analytics.series_max := Analytics.series_max lib;
     Analytics.series_mean := Analytics.series_mean lib;
     Analytics.series_median := Analytics.series_median lib;
     Analytics.series_sum := Analytics.series_sum lib;
     Analytics.format_number := Analytics.format_number lib;
     Analytics.series_mode := Analytics.series_mode lib;
     Analytics.series_nunique := Analytics.series_nunique lib;
     Analytics.str_value := Analytics.str_value lib |}.

(** Rows whose first column has the empty name. *)
Definition unnamed_column : list row :=
  [ [(EmptyString, VStr "potholes"); ("count", VInt 5)] ].

(** A client whose remote procedure answers every query with no row. *)
Definition empty_remote : QueryExecutor.remote :=
  fun _ => ret {| QueryExecutor.resp_error := None;
                  QueryExecutor.resp_data := Some [] |}.

End Sample.

(* ===================================================================== *)
(** * The properties stated of the program                                *)
(* ===================================================================== *)

Module Properties.
Import Text QueryExecutor Pandas Analytics.

(** The last character of [pre], or [prev] when [pre] is empty. *)
Definition last_or (prev : option ascii) (pre : text) : option ascii :=
  match rev pre with
  | c :: _ => Some c
  | [] => prev
  end.

(** [kw] stands in [s] as a whole word, in any letter case: a stretch
    of [s] that reads [kw] once raised to upper case, with no word
    character right before it nor right after it. *)
Definition occurs_as_word_after (prev : option ascii) (kw s : text) : Prop :=
  exists pre w post,
    s = (pre ++ w ++ post)%list
    /\ upper w = kw
    /\ is_word_opt (last_or prev pre) = false
    /\ is_word_opt (hd_error post) = false.

Definition occurs_as_word (kw : string) (s : text) : Prop :=
  occurs_as_word_after None (of_string kw) s.

(** A keyword made of upper-case letters, digits and underscores. *)
Definition plain_keyword (kw : text) : bool :=
  negb (Nat.eqb (List.length kw) 0)
  && forallb is_word kw
  && forallb (fun c => Ascii.eqb (upper_char c) c) kw.

(** [s] begins with SELECT in some letter case. *)
Definition begins_with_select (s : text) : Prop :=
  exists w rest, s = (w ++ rest)%list /\ upper w = of_string "SELECT".

(** A filter on the category: the column name in some letter case,
    the equals sign with blanks around it at will, and between quotes
    a literal that is not empty and holds no quote. *)
Definition category_filter (name ws1 ws2 lit : text) : text :=
  (name ++ ws1 ++ "="%char :: ws2 ++ quote :: lit ++ [quote])%list.

Definition is_category_filter (lit occ : text) : Prop :=
  exists name ws1 ws2,
    occ = category_filter name ws1 ws2 lit
    /\ lower name = of_string "category"
    /\ forallb is_space ws1 = true
    /\ forallb is_space ws2 = true
    /\ lit <> []
    /\ forallb not_quote lit = true.

(** The text holds a category filter on the literal [lit]. *)
Definition filters_on (s : text) (lit : string) : Prop :=
  exists pre occ post,
    s = (pre ++ occ ++ post)%list /\ is_category_filter (of_string lit) occ.

(** A match of the pattern that begins in [pre], after its first
    character or at it, and runs past the end of [pre] into [rest]. *)
Definition shadowed (pre rest : text) : Prop :=
  exists a b lit m,
    pre = (a ++ b)%list
    /\ b <> []
    /\ match_category_at (b ++ rest)%list = Some (lit, m)
    /\ List.length b < m.

(** The chart types that come with a chart. *)
Definition chartable (chart_type : string) : Prop :=
  ~ In chart_type ["table"; "none"; "error"].

(** The invariant of the chart specification on the output of
    [generate_analytics] for the rows [data]. *)
Definition chart_spec_invariant (data : list row) (a : analytics) : Prop :=
  plotly_config a <> None <-> chartable (chart_type a) /\ data <> [].

(** Does the loop move the column [col] to the temporal list? *)
Definition moves (lib : Library) (df : DataFrame) (col : string) : bool :=
  match getitem df col with
  | Some s =>
      match to_datetime lib (head 5 s) with
      | Some _ => (0 <? notna_sum (head 5 s))%nat
      | None => false
      end
  | None => false
  end.

(** The sentence that counts the rows. *)
Definition row_count_sentence (n : nat) : string :=
  if (n =? 1)%nat then "Found 1 result."
  else "Found " ++ decimal n ++ " results.".

End Properties.

(* ===================================================================== *)
(** * model_service.py                                                    *)
(* ===================================================================== *)

Module ModelService.
Import Text.

Definition backtick : ascii := "`"%char.

(** The two markers of a markdown code block. *)
Definition fence : text := [backtick; backtick; backtick].
Definition sql_fence : text := (fence ++ of_string "sql")%list.

(** [s.replace(old, EmptyString)] for an [old] that is not empty: the
    occurrences are taken from left to right and do not overlap.
    [skip] counts the characters of the last occurrence that follow the
    current position. *)
Fixpoint remove_from (old : text) (skip : nat) (s : text) : text :=
  match s with
  | [] => []
  | c :: r =>
      match skip with
      | S k => remove_from old k r
      | O =>
          if starts_with old s
          then remove_from old (List.length old - 1) r
          else c :: remove_from old 0 r
      end
  end.

Definition remove (old s : text) : text := remove_from old 0 s.

(** [s.find(sub)]: the index of the first occurrence, or -1. *)
Fixpoint find_from (sub s : text) : option nat :=
  if starts_with sub s then Some 0
  else match s with
       | [] => None
       | _ :: r => option_map S (find_from sub r)
       end.

Definition find (sub s : text) : Z :=
  match find_from sub s with
  | Some i => Z.of_nat i
  | None => (-1)%Z
  end.

(** [s[i:]]; a negative index counts from the end. *)
Definition slice_from (i : Z) (s : text) : text :=
  if (0 <=? i)%Z then skipn (Z.to_nat i) s
  else skipn (Z.to_nat (Z.of_nat (List.length s) + i)) s.

(** [SQLOutputParser.parse] on texts. *)
Definition parse_text (t : text) : text :=
  let t := remove fence (remove sql_fence t) in
  let t := strip t in
  let t :=
    if contains (of_string "SELECT") (upper t)
    then slice_from (find (of_string "SELECT") (upper t)) t
    else t in
  strip t.

(** [SQLOutputParser.parse]. *)
Definition parse (t : string) : string := to_string (parse_text (of_string t)).

(** A prompt template: literal text and named holes. *)
Inductive piece : Type :=
| Lit (s : string)
| Var (name : string).

Definition PromptTemplate : Type := list piece.

(** [template.format(schema=..., question=...)]. *)
Definition format (t : PromptTemplate) (schema question : string) : string :=
  String.concat EmptyString
    (map (fun p => match p with
                   | Lit s => s
                   | Var name =>
                       if String.eqb name "schema" then schema
                       else if String.eqb name "question" then question
                       else EmptyString
                   end) t).

(** [", ".join([f"'{cat}'" for cat in CATEGORY_MAPPING.values()])]. *)
Definition valid_categories : string :=
  String.concat ", "
    (map (fun cat => "'" ++ cat ++ "'") (map snd Config.CATEGORY_MAPPING)).

(** The template built in [initialize]. *)
Definition sql_prompt : PromptTemplate :=
  [ Lit "You are an expert PostgreSQL query generator for a civic complaints database.

Database Schema:
";
    Var "schema";
    Lit ("

Instructions:
- Generate ONLY a valid PostgreSQL SELECT query.
- When filtering by the 'category' column, you MUST use one of these exact values: "
         ++ valid_categories ++ ".
- Always refer to the timestamp column as 'created_at'.
- Return ONLY the SQL query itself without any explanations, markdown, or code blocks.

Question: ");
    Var "question";
    Lit "

SQL Query:" ].

(** The completion endpoint: from the prompt to the content of the
    first choice, or an exception. *)
Definition llm : Type := string -> result string.

(** The process environment. *)
Definition environ : Type := string -> option string.

(** [os.getenv(name, default)]. *)
Definition getenv (env : environ) (name default : string) : string :=
  match env name with
  | Some v => v
  | None => default
  end.

(** [not os.getenv(name)]: unset or empty. *)
Definition unset (env : environ) (name : string) : bool :=
  match env name with
  | Some v => String.eqb v EmptyString
  | None => true
  end.

Record GroqService : Type := {
  groq_client : option llm;
  model : string;
  prompt_template : option PromptTemplate
}.

(** [GroqService.__init__]. *)
Definition new_service (env : environ) : GroqService :=
  {| groq_client := None;
     model := getenv env "GROQ_MODEL" "llama-3.1-8b-instant";
     prompt_template := None |}.

(** [GroqService.initialize]; [connect] is the constructor [Groq]. *)
Definition initialize (connect : string -> llm) (env : environ)
  (self : GroqService) : result GroqService :=
  if unset env "GROQ_API_KEY"
  then raise (ValueError "GROQ_API_KEY not found in environment variables")
  else ret {| groq_client := Some (connect (getenv env "GROQ_API_KEY" EmptyString));
              model := model self;
              prompt_template := Some sql_prompt |}.

(** [GroqService.is_initialized]. *)
Definition is_initialized (self : GroqService) : bool :=
  match groq_client self, prompt_template self with
  | Some _, Some _ => true
  | _, _ => false
  end.

(** [GroqService.generate_sql].  The second component lists the prompts
    handed to the completion endpoint during the call. *)
Definition generate_sql (self : GroqService) (question schema : string)
  : result string * list string :=
  match prompt_template self with
  | None =>
      (raise (AttributeError "'NoneType' object has no attribute 'format'"), [])
  | Some template =>
      let formatted_prompt := format template schema question in
      match groq_client self with
      | None =>
          (raise (AttributeError "'NoneType' object has no attribute 'chat'"), [])
      | Some complete =>
          (content <- complete formatted_prompt ;;
           ret (parse (to_string (strip (of_string content)))),
           [formatted_prompt])%result
      end
  end.

End ModelService.

(* ===================================================================== *)
(** * utils.py                                                            *)
(* ===================================================================== *)

Module Utils.

#[local] Unset Elimination Schemes.

(** A numpy scalar ([np.generic]); [item] gives the native value. *)
Inductive np_scalar : Type :=
| NpBool (b : bool)
| NpInt (n : Z)
| NpFloat (q : Q).

Definition item (x : np_scalar) : value :=
  match x with
  | NpBool b => VBool b
  | NpInt n => VInt n
  | NpFloat q => VFloat q
  end.

(** A numpy array of numbers, of any number of axes. *)
Inductive ndarray : Type :=
| NdItem (x : np_scalar)
| NdAxis (items : list ndarray).

(** The data the converter walks through: native scalars, numpy
    scalars and arrays, lists, dictionaries with string keys, and
    tuples, which stand for every other kind of object. *)
Inductive py : Type :=
| PyValue (v : value)
| PyGeneric (x : np_scalar)
| PyArray (a : ndarray)
| PyList (items : list py)
| PyDict (entries : list (string * py))
| PyTuple (items : list py).

#[local] Set Elimination Schemes.

(** [ndarray.tolist()]. *)
Fixpoint tolist (a : ndarray) : py :=
  match a with
  | NdItem x => PyValue (item x)
  | NdAxis items => PyList (map tolist items)
  end.

(** [convert_numpy_to_python]. *)
Fixpoint convert_numpy_to_python (data : py) : py :=
  match data with
  | PyDict entries =>
      PyDict (map (fun kv => (fst kv, convert_numpy_to_python (snd kv))) entries)
  | PyList items => PyList (map convert_numpy_to_python items)
  | PyArray a => tolist a
  | PyGeneric x => PyValue (item x)
  | _ => data
  end.

(** A result row as the converter sees it. *)
Definition py_of_row (r : row) : py :=
  PyDict (map (fun kv => (fst kv, PyValue (snd kv))) r).

Definition py_of_rows (rows : list row) : py := PyList (map py_of_row rows).

End Utils.

(* ===================================================================== *)
(** * main.py: start-up and health                                        *)
(* ===================================================================== *)

Module Main.
Import ModelService.

(** What [SupabaseClient.__init__] reads from the environment. *)
Record SupabaseSettings : Type := {
  url : option string;
  key : option string
}.

Definition supabase_settings (env : environ) : SupabaseSettings :=
  {| url := env "SUPABASE_URL"; key := env "SUPABASE_KEY" |}.

(** [not self.url]. *)
Definition missing (v : option string) : bool :=
  match v with
  | Some s => String.eqb s EmptyString
  | None => true
  end.

(** [SupabaseClient.initialize]; [create_client] is the constructor of
    the supabase package, which returns a client or raises. *)
Definition supabase_initialize
  (create_client : string -> string -> result QueryExecutor.remote)
  (settings : SupabaseSettings) : result QueryExecutor.SupabaseClient :=
  if missing (url settings) || missing (key settings)
  then raise (ValueError
                "SUPABASE_URL and SUPABASE_KEY must be set in environment")
  else
    match url settings, key settings with
    | Some u, Some k =>
        (c <- create_client u k ;;
         ret {| QueryExecutor.client := Some c |})%result
    | _, _ =>
        raise (ValueError
                 "SUPABASE_URL and SUPABASE_KEY must be set in environment")
    end.

(** The two services of the process. *)
Record services : Type := {
  groq_service : GroqService;
  supabase_client : QueryExecutor.SupabaseClient
}.

(** The services as the modules create them at import. *)
Definition at_import (env : environ) : services :=
  {| groq_service := new_service env;
     supabase_client := {| QueryExecutor.client := None |} |}.

(** The start-up half of [lifespan]: the completion client first, the
    database client next; what one raises ends the start-up. *)
Definition lifespan (connect : string -> llm)
  (create_client : string -> string -> result QueryExecutor.remote)
  (env : environ) : result services :=
  (g <- initialize connect env (new_service env) ;;
   s <- supabase_initialize create_client (supabase_settings env) ;;
   ret {| groq_service := g; supabase_client := s |})%result.

(** The answer of [health_check]. *)
Record health : Type := {
  status : string;
  groq : string;
  supabase : string;
  health_model : string
}.

Definition connection (up : bool) : string :=
  if up then "connected" else "disconnected".

(** [health_check]. *)
Definition health_check (env : environ) (s : services) : health :=
  {| status := "healthy";
     groq := connection (is_initialized (groq_service s));
     supabase := connection (QueryExecutor.is_initialized (supabase_client s));
     health_model := getenv env "GROQ_MODEL" "llama-3.1-8b-instant" |}.

End Main.

(* ===================================================================== *)
(** * chatbot.py                                                          *)
(* ===================================================================== *)

Module Chatbot.
Import Text ModelService Analytics.

(** [ChatResponse], without its two clock readings [timestamp] and
    [execution_time_ms]. *)
Record ChatResponse : Type := {
  success : bool;
  question : string;
  sql_generated : option string;
  data : option (list row);
  analytics_of : option analytics;
  summary : option string;
  error : option string
}.

(** [SupabaseClient.get_schema]. *)
Definition get_schema : string :=
  "
        Table: issue_analytics
        Columns:
         - id (uuid)
         - title (text)
         - description (text)
         - category (text)
         - status (text)
         - created_at (timestamp with time zone)
         - updated_at (timestamp with time zone)
         - latitude (double precision)
         - longitude (double precision)
        ".

(** The message of the handler of [chat]: a [ValueError] is reported as
    a failed security validation, anything else as an internal error. *)
Definition error_message (e : exn) : string :=
  match e with
  | ValueError m => "Security validation failed: " ++ m
  | _ => "An internal error occurred: " ++ exn_message e
  end.

Definition failure (question sql_query : string) (e : exn) : ChatResponse :=
  {| success := false;
     question := question;
     sql_generated := Some sql_query;
     data := None;
     analytics_of := None;
     summary := None;
     error := Some (error_message e) |}.

(** What a request leaves behind: the response, the prompts sent to the
    completion endpoint and the queries sent to the database. *)
Record outcome : Type := {
  response : ChatResponse;
  prompts : list string;
  queries : list text
}.

(** [chat].  The rows and the analytics of the model hold no numpy
    value, and [convert_numpy_to_python] returns them as they are. *)
Definition chat (lib : Library) (groq : GroqService)
  (supabase : QueryExecutor.SupabaseClient) (question : string) : outcome :=
  let schema := get_schema in
  let '(generated, prompts) := generate_sql groq question schema in
  match generated with
  | inl e =>
      {| response := failure question EmptyString e;
         prompts := prompts; queries := [] |}
  | inr sql_query =>
      let '(executed, queries) := QueryExecutor.execute_query supabase sql_query in
      match executed with
      | inl e =>
          {| response := failure question sql_query e;
             prompts := prompts; queries := queries |}
      | inr rows =>
          let analytics_data := generate_analytics lib rows question in
          let summary := generate_text_summary lib rows question in
          {| response :=
               {| success := true;
                  question := question;
                  sql_generated := Some sql_query;
                  data := Some rows;
                  analytics_of := Some analytics_data;
                  summary := Some summary;
                  error := None |};
             prompts := prompts; queries := queries |}
      end
  end.

End Chatbot.

(* ===================================================================== *)
(** * Further properties stated of the program                            *)
(* ===================================================================== *)

Module MoreProperties.
Import Text QueryExecutor ModelService Utils.

(** A text that holds no line feed. *)
Definition newline_free (t : text) : bool :=
  forallb (fun c => negb (Ascii.eqb c newline)) t.

(** A text that holds no blank at either end. *)
Definition trimmed (t : text) : Prop := strip t = t.

(** The text that the last trimming of [parse] is applied to. *)
Definition selected (t : text) : text :=
  let t := strip (remove fence (remove sql_fence t)) in
  if contains (of_string "SELECT") (upper t)
  then slice_from (find (of_string "SELECT") (upper t)) t
  else t.

(** No numpy value is left, tuples included. *)
Fixpoint numpy_free (d : py) : bool :=
  match d with
  | PyValue _ => true
  | PyGeneric _ => false
  | PyArray _ => false
  | PyList items => forallb numpy_free items
  | PyDict entries => forallb (fun kv => numpy_free (snd kv)) entries
  | PyTuple items => forallb numpy_free items
  end.

(** The tuples of the data hold no numpy value. *)
Fixpoint tuples_native (d : py) : bool :=
  match d with
  | PyList items => forallb tuples_native items
  | PyDict entries => forallb (fun kv => tuples_native (snd kv)) entries
  | PyTuple items => forallb numpy_free items
  | _ => true
  end.

End MoreProperties.

(* ===================================================================== *)
(** * Python strings beyond ASCII                                         *)
(* ===================================================================== *)

(** The validator and the output parser once more, on every Python
    string.  A [str] is a sequence of code points.  [str.upper],
    [str.isspace] (the class [\s], and what [str.strip] takes off) and
    [str.isalnum] (the class [\w] but for the underscore) are the tables
    of CPython 3.11, which are those of Unicode 14.0.0, written as ranges
    of code points. *)
Module Unicode.
Local Open Scope N_scope.
Local Open Scope list_scope.

Definition str : Type := list N.

(** The code point of a character of [Text]. *)
Definition code_point (c : ascii) : N := N_of_ascii c.

Definition of_text (t : Text.text) : str := map code_point t.

(** The [str] of a literal of the program. *)
Definition of_string (s : string) : str := of_text (Text.of_string s).

(** An ASCII [str] as a text of [Text]. *)
Definition to_text (s : str) : Text.text := map ascii_of_N s.

(** [s.isascii()]. *)
Definition is_ascii (s : str) : bool := forallb (fun c => c <? 128) s.

(** [a == b] on strings. *)
Fixpoint eqb (a b : str) : bool :=
  match a, b with
  | [], [] => true
  | x :: a', y :: b' => (x =? y) && eqb a' b'
  | _, _ => false
  end.

Definition within (c : N) (r : N * N) : bool :=
  (fst r <=? c) && (c <=? snd r).

(** The code points [c] with [chr(c).isspace()], as ranges. *)
Definition space_ranges : list (N * N) :=
  [
    (0x9, 0xD); (0x1C, 0x20); (0x85, 0x85); (0xA0, 0xA0);
    (0x1680, 0x1680); (0x2000, 0x200A); (0x2028, 0x2029); (0x202F, 0x202F);
    (0x205F, 0x205F); (0x3000, 0x3000) ].

(** The code points [c] with [chr(c).isalnum()]. *)
Definition alnum_ranges : list (N * N) :=
  [
    (0x30, 0x39); (0x41, 0x5A); (0x61, 0x7A); (0xAA, 0xAA);
    (0xB2, 0xB3); (0xB5, 0xB5); (0xB9, 0xBA); (0xBC, 0xBE);
    (0xC0, 0xD6); (0xD8, 0xF6); (0xF8, 0x2C1); (0x2C6, 0x2D1);
    (0x2E0, 0x2E4); (0x2EC, 0x2EC); (0x2EE, 0x2EE); (0x370, 0x374);
    (0x376, 0x377); (0x37A, 0x37D); (0x37F, 0x37F); (0x386, 0x386);
    (0x388, 0x38A); (0x38C, 0x38C); (0x38E, 0x3A1); (0x3A3, 0x3F5);
    (0x3F7, 0x481); (0x48A, 0x52F); (0x531, 0x556); (0x559, 0x559);
    (0x560, 0x588); (0x5D0, 0x5EA); (0x5EF, 0x5F2); (0x620, 0x64A);
    (0x660, 0x669); (0x66E, 0x66F); (0x671, 0x6D3); (0x6D5, 0x6D5);
    (0x6E5, 0x6E6); (0x6EE, 0x6FC); (0x6FF, 0x6FF); (0x710, 0x710);
    (0x712, 0x72F); (0x74D, 0x7A5); (0x7B1, 0x7B1); (0x7C0, 0x7EA);
    (0x7F4, 0x7F5); (0x7FA, 0x7FA); (0x800, 0x815); (0x81A, 0x81A);
    (0x824, 0x824); (0x828, 0x828); (0x840, 0x858); (0x860, 0x86A);
    (0x870, 0x887); (0x889, 0x88E); (0x8A0, 0x8C9); (0x904, 0x939);
    (0x93D, 0x93D); (0x950, 0x950); (0x958, 0x961); (0x966, 0x96F);
    (0x971, 0x980); (0x985, 0x98C); (0x98F, 0x990); (0x993, 0x9A8);
    (0x9AA, 0x9B0); (0x9B2, 0x9B2); (0x9B6, 0x9B9); (0x9BD, 0x9BD);
    (0x9CE, 0x9CE); (0x9DC, 0x9DD); (0x9DF, 0x9E1); (0x9E6, 0x9F1);
    (0x9F4, 0x9F9); (0x9FC, 0x9FC); (0xA05, 0xA0A); (0xA0F, 0xA10);
    (0xA13, 0xA28); (0xA2A, 0xA30); (0xA32, 0xA33); (0xA35, 0xA36);
    (0xA38, 0xA39); (0xA59, 0xA5C); (0xA5E, 0xA5E); (0xA66, 0xA6F);
    (0xA72, 0xA74); (0xA85, 0xA8D); (0xA8F, 0xA91); (0xA93, 0xAA8);
    (0xAAA, 0xAB0); (0xAB2, 0xAB3); (0xAB5, 0xAB9); (0xABD, 0xABD);
    (0xAD0, 0xAD0); (0xAE0, 0xAE1); (0xAE6, 0xAEF); (0xAF9, 0xAF9);
    (0xB05, 0xB0C); (0xB0F, 0xB10); (0xB13, 0xB28); (0xB2A, 0xB30);
    (0xB32, 0xB33); (0xB35, 0xB39); (0xB3D, 0xB3D); (0xB5C, 0xB5D);
    (0xB5F, 0xB61); (0xB66, 0xB6F); (0xB71, 0xB77); (0xB83, 0xB83);
    (0xB85, 0xB8A); (0xB8E, 0xB90); (0xB92, 0xB95); (0xB99, 0xB9A);
    (0xB9C, 0xB9C); (0xB9E, 0xB9F); (0xBA3, 0xBA4); (0xBA8, 0xBAA);
    (0xBAE, 0xBB9); (0xBD0, 0xBD0); (0xBE6, 0xBF2); (0xC05, 0xC0C);
    (0xC0E, 0xC10); (0xC12, 0xC28); (0xC2A, 0xC39); (0xC3D, 0xC3D);
    (0xC58, 0xC5A); (0xC5D, 0xC5D); (0xC60, 0xC61); (0xC66, 0xC6F);
    (0xC78, 0xC7E); (0xC80, 0xC80); (0xC85, 0xC8C); (0xC8E, 0xC90);
    (0xC92, 0xCA8); (0xCAA, 0xCB3); (0xCB5, 0xCB9); (0xCBD, 0xCBD);
    (0xCDD, 0xCDE); (0xCE0, 0xCE1); (0xCE6, 0xCEF); (0xCF1, 0xCF2);
    (0xD04, 0xD0C); (0xD0E, 0xD10); (0xD12, 0xD3A); (0xD3D, 0xD3D);
    (0xD4E, 0xD4E); (0xD54, 0xD56); (0xD58, 0xD61); (0xD66, 0xD78);
    (0xD7A, 0xD7F); (0xD85, 0xD96); (0xD9A, 0xDB1); (0xDB3, 0xDBB);
    (0xDBD, 0xDBD); (0xDC0, 0xDC6); (0xDE6, 0xDEF); (0xE01, 0xE30);
    (0xE32, 0xE33); (0xE40, 0xE46); (0xE50, 0xE59); (0xE81, 0xE82);
    (0xE84, 0xE84); (0xE86, 0xE8A); (0xE8C, 0xEA3); (0xEA5, 0xEA5);
    (0xEA7, 0xEB0); (0xEB2, 0xEB3); (0xEBD, 0xEBD); (0xEC0, 0xEC4);
    (0xEC6, 0xEC6); (0xED0, 0xED9); (0xEDC, 0xEDF); (0xF00, 0xF00);
    (0xF20, 0xF33); (0xF40, 0xF47); (0xF49, 0xF6C); (0xF88, 0xF8C);
    (0x1000, 0x102A); (0x103F, 0x1049); (0x1050, 0x1055); (0x105A, 0x105D);
    (0x1061, 0x1061); (0x1065, 0x1066); (0x106E, 0x1070); (0x1075, 0x1081);
    (0x108E, 0x108E); (0x1090, 0x1099); (0x10A0, 0x10C5); (0x10C7, 0x10C7);
    (0x10CD, 0x10CD); (0x10D0, 0x10FA); (0x10FC, 0x1248); (0x124A, 0x124D);
    (0x1250, 0x1256); (0x1258, 0x1258); (0x125A, 0x125D); (0x1260, 0x1288);
    (0x128A, 0x128D); (0x1290, 0x12B0); (0x12B2, 0x12B5); (0x12B8, 0x12BE);
    (0x12C0, 0x12C0); (0x12C2, 0x12C5); (0x12C8, 0x12D6); (0x12D8, 0x1310);
    (0x1312, 0x1315); (0x1318, 0x135A); (0x1369, 0x137C); (0x1380, 0x138F);
    (0x13A0, 0x13F5); (0x13F8, 0x13FD); (0x1401, 0x166C); (0x166F, 0x167F);
    (0x1681, 0x169A); (0x16A0, 0x16EA); (0x16EE, 0x16F8); (0x1700, 0x1711);
    (0x171F, 0x1731); (0x1740, 0x1751); (0x1760, 0x176C); (0x176E, 0x1770);
    (0x1780, 0x17B3); (0x17D7, 0x17D7); (0x17DC, 0x17DC); (0x17E0, 0x17E9);
    (0x17F0, 0x17F9); (0x1810, 0x1819); (0x1820, 0x1878); (0x1880, 0x1884);
    (0x1887, 0x18A8); (0x18AA, 0x18AA); (0x18B0, 0x18F5); (0x1900, 0x191E);
    (0x1946, 0x196D); (0x1970, 0x1974); (0x1980, 0x19AB); (0x19B0, 0x19C9);
    (0x19D0, 0x19DA); (0x1A00, 0x1A16); (0x1A20, 0x1A54); (0x1A80, 0x1A89);
    (0x1A90, 0x1A99); (0x1AA7, 0x1AA7); (0x1B05, 0x1B33); (0x1B45, 0x1B4C);
    (0x1B50, 0x1B59); (0x1B83, 0x1BA0); (0x1BAE, 0x1BE5); (0x1C00, 0x1C23);
    (0x1C40, 0x1C49); (0x1C4D, 0x1C7D); (0x1C80, 0x1C88); (0x1C90, 0x1CBA);
    (0x1CBD, 0x1CBF); (0x1CE9, 0x1CEC); (0x1CEE, 0x1CF3); (0x1CF5, 0x1CF6);
    (0x1CFA, 0x1CFA); (0x1D00, 0x1DBF); (0x1E00, 0x1F15); (0x1F18, 0x1F1D);
    (0x1F20, 0x1F45); (0x1F48, 0x1F4D); (0x1F50, 0x1F57); (0x1F59, 0x1F59);
    (0x1F5B, 0x1F5B); (0x1F5D, 0x1F5D); (0x1F5F, 0x1F7D); (0x1F80, 0x1FB4);
    (0x1FB6, 0x1FBC); (0x1FBE, 0x1FBE); (0x1FC2, 0x1FC4); (0x1FC6, 0x1FCC);
    (0x1FD0, 0x1FD3); (0x1FD6, 0x1FDB); (0x1FE0, 0x1FEC); (0x1FF2, 0x1FF4);
    (0x1FF6, 0x1FFC); (0x2070, 0x2071); (0x2074, 0x2079); (0x207F, 0x2089);
    (0x2090, 0x209C); (0x2102, 0x2102); (0x2107, 0x2107); (0x210A, 0x2113);
    (0x2115, 0x2115); (0x2119, 0x211D); (0x2124, 0x2124); (0x2126, 0x2126);
    (0x2128, 0x2128); (0x212A, 0x212D); (0x212F, 0x2139); (0x213C, 0x213F);
    (0x2145, 0x2149); (0x214E, 0x214E); (0x2150, 0x2189); (0x2460, 0x249B);
    (0x24EA, 0x24FF); (0x2776, 0x2793); (0x2C00, 0x2CE4); (0x2CEB, 0x2CEE);
    (0x2CF2, 0x2CF3); (0x2CFD, 0x2CFD); (0x2D00, 0x2D25); (0x2D27, 0x2D27);
    (0x2D2D, 0x2D2D); (0x2D30, 0x2D67); (0x2D6F, 0x2D6F); (0x2D80, 0x2D96);
    (0x2DA0, 0x2DA6); (0x2DA8, 0x2DAE); (0x2DB0, 0x2DB6); (0x2DB8, 0x2DBE);
    (0x2DC0, 0x2DC6); (0x2DC8, 0x2DCE); (0x2DD0, 0x2DD6); (0x2DD8, 0x2DDE);
    (0x2E2F, 0x2E2F); (0x3005, 0x3007); (0x3021, 0x3029); (0x3031, 0x3035);
    (0x3038, 0x303C); (0x3041, 0x3096); (0x309D, 0x309F); (0x30A1, 0x30FA);
    (0x30FC, 0x30FF); (0x3105, 0x312F); (0x3131, 0x318E); (0x3192, 0x3195);
    (0x31A0, 0x31BF); (0x31F0, 0x31FF); (0x3220, 0x3229); (0x3248, 0x324F);
    (0x3251, 0x325F); (0x3280, 0x3289); (0x32B1, 0x32BF); (0x3400, 0x4DBF);
    (0x4E00, 0xA48C); (0xA4D0, 0xA4FD); (0xA500, 0xA60C); (0xA610, 0xA62B);
    (0xA640, 0xA66E); (0xA67F, 0xA69D); (0xA6A0, 0xA6EF); (0xA717, 0xA71F);
    (0xA722, 0xA788); (0xA78B, 0xA7CA); (0xA7D0, 0xA7D1); (0xA7D3, 0xA7D3);
    (0xA7D5, 0xA7D9); (0xA7F2, 0xA801); (0xA803, 0xA805); (0xA807, 0xA80A);
    (0xA80C, 0xA822); (0xA830, 0xA835); (0xA840, 0xA873); (0xA882, 0xA8B3);
    (0xA8D0, 0xA8D9); (0xA8F2, 0xA8F7); (0xA8FB, 0xA8FB); (0xA8FD, 0xA8FE);
    (0xA900, 0xA925); (0xA930, 0xA946); (0xA960, 0xA97C); (0xA984, 0xA9B2);
    (0xA9CF, 0xA9D9); (0xA9E0, 0xA9E4); (0xA9E6, 0xA9FE); (0xAA00, 0xAA28);
    (0xAA40, 0xAA42); (0xAA44, 0xAA4B); (0xAA50, 0xAA59); (0xAA60, 0xAA76);
    (0xAA7A, 0xAA7A); (0xAA7E, 0xAAAF); (0xAAB1, 0xAAB1); (0xAAB5, 0xAAB6);
    (0xAAB9, 0xAABD); (0xAAC0, 0xAAC0); (0xAAC2, 0xAAC2); (0xAADB, 0xAADD);
    (0xAAE0, 0xAAEA); (0xAAF2, 0xAAF4); (0xAB01, 0xAB06); (0xAB09, 0xAB0E);
    (0xAB11, 0xAB16); (0xAB20, 0xAB26); (0xAB28, 0xAB2E); (0xAB30, 0xAB5A);
    (0xAB5C, 0xAB69); (0xAB70, 0xABE2); (0xABF0, 0xABF9); (0xAC00, 0xD7A3);
    (0xD7B0, 0xD7C6); (0xD7CB, 0xD7FB); (0xF900, 0xFA6D); (0xFA70, 0xFAD9);
    (0xFB00, 0xFB06); (0xFB13, 0xFB17); (0xFB1D, 0xFB1D); (0xFB1F, 0xFB28);
    (0xFB2A, 0xFB36); (0xFB38, 0xFB3C); (0xFB3E, 0xFB3E); (0xFB40, 0xFB41);
    (0xFB43, 0xFB44); (0xFB46, 0xFBB1); (0xFBD3, 0xFD3D); (0xFD50, 0xFD8F);
    (0xFD92, 0xFDC7); (0xFDF0, 0xFDFB); (0xFE70, 0xFE74); (0xFE76, 0xFEFC);
    (0xFF10, 0xFF19); (0xFF21, 0xFF3A); (0xFF41, 0xFF5A); (0xFF66, 0xFFBE);
    (0xFFC2, 0xFFC7); (0xFFCA, 0xFFCF); (0xFFD2, 0xFFD7); (0xFFDA, 0xFFDC);
    (0x10000, 0x1000B); (0x1000D, 0x10026); (0x10028, 0x1003A); (0x1003C, 0x1003D);
    (0x1003F, 0x1004D); (0x10050, 0x1005D); (0x10080, 0x100FA); (0x10107, 0x10133);
    (0x10140, 0x10178); (0x1018A, 0x1018B); (0x10280, 0x1029C); (0x102A0, 0x102D0);
    (0x102E1, 0x102FB); (0x10300, 0x10323); (0x1032D, 0x1034A); (0x10350, 0x10375);
    (0x10380, 0x1039D); (0x103A0, 0x103C3); (0x103C8, 0x103CF); (0x103D1, 0x103D5);
    (0x10400, 0x1049D); (0x104A0, 0x104A9); (0x104B0, 0x104D3); (0x104D8, 0x104FB);
    (0x10500, 0x10527); (0x10530, 0x10563); (0x10570, 0x1057A); (0x1057C, 0x1058A);
    (0x1058C, 0x10592); (0x10594, 0x10595); (0x10597, 0x105A1); (0x105A3, 0x105B1);
    (0x105B3, 0x105B9); (0x105BB, 0x105BC); (0x10600, 0x10736); (0x10740, 0x10755);
    (0x10760, 0x10767); (0x10780, 0x10785); (0x10787, 0x107B0); (0x107B2, 0x107BA);
    (0x10800, 0x10805); (0x10808, 0x10808); (0x1080A, 0x10835); (0x10837, 0x10838);
    (0x1083C, 0x1083C); (0x1083F, 0x10855); (0x10858, 0x10876); (0x10879, 0x1089E);
    (0x108A7, 0x108AF); (0x108E0, 0x108F2); (0x108F4, 0x108F5); (0x108FB, 0x1091B);
    (0x10920, 0x10939); (0x10980, 0x109B7); (0x109BC, 0x109CF); (0x109D2, 0x10A00);
    (0x10A10, 0x10A13); (0x10A15, 0x10A17); (0x10A19, 0x10A35); (0x10A40, 0x10A48);
    (0x10A60, 0x10A7E); (0x10A80, 0x10A9F); (0x10AC0, 0x10AC7); (0x10AC9, 0x10AE4);
    (0x10AEB, 0x10AEF); (0x10B00, 0x10B35); (0x10B40, 0x10B55); (0x10B58, 0x10B72);
    (0x10B78, 0x10B91); (0x10BA9, 0x10BAF); (0x10C00, 0x10C48); (0x10C80, 0x10CB2);
    (0x10CC0, 0x10CF2); (0x10CFA, 0x10D23); (0x10D30, 0x10D39); (0x10E60, 0x10E7E);
    (0x10E80, 0x10EA9); (0x10EB0, 0x10EB1); (0x10F00, 0x10F27); (0x10F30, 0x10F45);
    (0x10F51, 0x10F54); (0x10F70, 0x10F81); (0x10FB0, 0x10FCB); (0x10FE0, 0x10FF6);
    (0x11003, 0x11037); (0x11052, 0x1106F); (0x11071, 0x11072); (0x11075, 0x11075);
    (0x11083, 0x110AF); (0x110D0, 0x110E8); (0x110F0, 0x110F9); (0x11103, 0x11126);
    (0x11136, 0x1113F); (0x11144, 0x11144); (0x11147, 0x11147); (0x11150, 0x11172);
    (0x11176, 0x11176); (0x11183, 0x111B2); (0x111C1, 0x111C4); (0x111D0, 0x111DA);
    (0x111DC, 0x111DC); (0x111E1, 0x111F4); (0x11200, 0x11211); (0x11213, 0x1122B);
    (0x11280, 0x11286); (0x11288, 0x11288); (0x1128A, 0x1128D); (0x1128F, 0x1129D);
    (0x1129F, 0x112A8); (0x112B0, 0x112DE); (0x112F0, 0x112F9); (0x11305, 0x1130C);
    (0x1130F, 0x11310); (0x11313, 0x11328); (0x1132A, 0x11330); (0x11332, 0x11333);
    (0x11335, 0x11339); (0x1133D, 0x1133D); (0x11350, 0x11350); (0x1135D, 0x11361);
    (0x11400, 0x11434); (0x11447, 0x1144A); (0x11450, 0x11459); (0x1145F, 0x11461);
    (0x11480, 0x114AF); (0x114C4, 0x114C5); (0x114C7, 0x114C7); (0x114D0, 0x114D9);
    (0x11580, 0x115AE); (0x115D8, 0x115DB); (0x11600, 0x1162F); (0x11644, 0x11644);
    (0x11650, 0x11659); (0x11680, 0x116AA); (0x116B8, 0x116B8); (0x116C0, 0x116C9);
    (0x11700, 0x1171A); (0x11730, 0x1173B); (0x11740, 0x11746); (0x11800, 0x1182B);
    (0x118A0, 0x118F2); (0x118FF, 0x11906); (0x11909, 0x11909); (0x1190C, 0x11913);
    (0x11915, 0x11916); (0x11918, 0x1192F); (0x1193F, 0x1193F); (0x11941, 0x11941);
    (0x11950, 0x11959); (0x119A0, 0x119A7); (0x119AA, 0x119D0); (0x119E1, 0x119E1);
    (0x119E3, 0x119E3); (0x11A00, 0x11A00); (0x11A0B, 0x11A32); (0x11A3A, 0x11A3A);
    (0x11A50, 0x11A50); (0x11A5C, 0x11A89); (0x11A9D, 0x11A9D); (0x11AB0, 0x11AF8);
    (0x11C00, 0x11C08); (0x11C0A, 0x11C2E); (0x11C40, 0x11C40); (0x11C50, 0x11C6C);
    (0x11C72, 0x11C8F); (0x11D00, 0x11D06); (0x11D08, 0x11D09); (0x11D0B, 0x11D30);
    (0x11D46, 0x11D46); (0x11D50, 0x11D59); (0x11D60, 0x11D65); (0x11D67, 0x11D68);
    (0x11D6A, 0x11D89); (0x11D98, 0x11D98); (0x11DA0, 0x11DA9); (0x11EE0, 0x11EF2);
    (0x11FB0, 0x11FB0); (0x11FC0, 0x11FD4); (0x12000, 0x12399); (0x12400, 0x1246E);
    (0x12480, 0x12543); (0x12F90, 0x12FF0); (0x13000, 0x1342E); (0x14400, 0x14646);
    (0x16800, 0x16A38); (0x16A40, 0x16A5E); (0x16A60, 0x16A69); (0x16A70, 0x16ABE);
    (0x16AC0, 0x16AC9); (0x16AD0, 0x16AED); (0x16B00, 0x16B2F); (0x16B40, 0x16B43);
    (0x16B50, 0x16B59); (0x16B5B, 0x16B61); (0x16B63, 0x16B77); (0x16B7D, 0x16B8F);
    (0x16E40, 0x16E96); (0x16F00, 0x16F4A); (0x16F50, 0x16F50); (0x16F93, 0x16F9F);
    (0x16FE0, 0x16FE1); (0x16FE3, 0x16FE3); (0x17000, 0x187F7); (0x18800, 0x18CD5);
    (0x18D00, 0x18D08); (0x1AFF0, 0x1AFF3); (0x1AFF5, 0x1AFFB); (0x1AFFD, 0x1AFFE);
    (0x1B000, 0x1B122); (0x1B150, 0x1B152); (0x1B164, 0x1B167); (0x1B170, 0x1B2FB);
    (0x1BC00, 0x1BC6A); (0x1BC70, 0x1BC7C); (0x1BC80, 0x1BC88); (0x1BC90, 0x1BC99);
    (0x1D2E0, 0x1D2F3); (0x1D360, 0x1D378); (0x1D400, 0x1D454); (0x1D456, 0x1D49C);
    (0x1D49E, 0x1D49F); (0x1D4A2, 0x1D4A2); (0x1D4A5, 0x1D4A6); (0x1D4A9, 0x1D4AC);
    (0x1D4AE, 0x1D4B9); (0x1D4BB, 0x1D4BB); (0x1D4BD, 0x1D4C3); (0x1D4C5, 0x1D505);
    (0x1D507, 0x1D50A); (0x1D50D, 0x1D514); (0x1D516, 0x1D51C); (0x1D51E, 0x1D539);
    (0x1D53B, 0x1D53E); (0x1D540, 0x1D544); (0x1D546, 0x1D546); (0x1D54A, 0x1D550);
    (0x1D552, 0x1D6A5); (0x1D6A8, 0x1D6C0); (0x1D6C2, 0x1D6DA); (0x1D6DC, 0x1D6FA);
    (0x1D6FC, 0x1D714); (0x1D716, 0x1D734); (0x1D736, 0x1D74E); (0x1D750, 0x1D76E);
    (0x1D770, 0x1D788); (0x1D78A, 0x1D7A8); (0x1D7AA, 0x1D7C2); (0x1D7C4, 0x1D7CB);
    (0x1D7CE, 0x1D7FF); (0x1DF00, 0x1DF1E); (0x1E100, 0x1E12C); (0x1E137, 0x1E13D);
    (0x1E140, 0x1E149); (0x1E14E, 0x1E14E); (0x1E290, 0x1E2AD); (0x1E2C0, 0x1E2EB);
    (0x1E2F0, 0x1E2F9); (0x1E7E0, 0x1E7E6); (0x1E7E8, 0x1E7EB); (0x1E7ED, 0x1E7EE);
    (0x1E7F0, 0x1E7FE); (0x1E800, 0x1E8C4); (0x1E8C7, 0x1E8CF); (0x1E900, 0x1E943);
    (0x1E94B, 0x1E94B); (0x1E950, 0x1E959); (0x1EC71, 0x1ECAB); (0x1ECAD, 0x1ECAF);
    (0x1ECB1, 0x1ECB4); (0x1ED01, 0x1ED2D); (0x1ED2F, 0x1ED3D); (0x1EE00, 0x1EE03);
    (0x1EE05, 0x1EE1F); (0x1EE21, 0x1EE22); (0x1EE24, 0x1EE24); (0x1EE27, 0x1EE27);
    (0x1EE29, 0x1EE32); (0x1EE34, 0x1EE37); (0x1EE39, 0x1EE39); (0x1EE3B, 0x1EE3B);
    (0x1EE42, 0x1EE42); (0x1EE47, 0x1EE47); (0x1EE49, 0x1EE49); (0x1EE4B, 0x1EE4B);
    (0x1EE4D, 0x1EE4F); (0x1EE51, 0x1EE52); (0x1EE54, 0x1EE54); (0x1EE57, 0x1EE57);
    (0x1EE59, 0x1EE59); (0x1EE5B, 0x1EE5B); (0x1EE5D, 0x1EE5D); (0x1EE5F, 0x1EE5F);
    (0x1EE61, 0x1EE62); (0x1EE64, 0x1EE64); (0x1EE67, 0x1EE6A); (0x1EE6C, 0x1EE72);
    (0x1EE74, 0x1EE77); (0x1EE79, 0x1EE7C); (0x1EE7E, 0x1EE7E); (0x1EE80, 0x1EE89);
    (0x1EE8B, 0x1EE9B); (0x1EEA1, 0x1EEA3); (0x1EEA5, 0x1EEA9); (0x1EEAB, 0x1EEBB);
    (0x1F100, 0x1F10C); (0x1FBF0, 0x1FBF9); (0x20000, 0x2A6DF); (0x2A700, 0x2B738);
    (0x2B740, 0x2B81D); (0x2B820, 0x2CEA1); (0x2CEB0, 0x2EBE0); (0x2F800, 0x2FA1D);
    (0x30000, 0x3134A) ].

(** The characters whose upper-case form is one other character, as
    runs: from the first to the last code point by the given step, the
    first one gives the image named and the next ones follow it. *)
Definition upper_runs : list (N * N * N * N) :=
  [
    (0x61, 0x7A, 1, 0x41); (0xB5, 0xB5, 1, 0x39C); (0xE0, 0xF6, 1, 0xC0);
    (0xF8, 0xFE, 1, 0xD8); (0xFF, 0xFF, 1, 0x178); (0x101, 0x12F, 2, 0x100);
    (0x131, 0x131, 1, 0x49); (0x133, 0x137, 2, 0x132); (0x13A, 0x148, 2, 0x139);
    (0x14B, 0x177, 2, 0x14A); (0x17A, 0x17E, 2, 0x179); (0x17F, 0x17F, 1, 0x53);
    (0x180, 0x180, 1, 0x243); (0x183, 0x185, 2, 0x182); (0x188, 0x188, 1, 0x187);
    (0x18C, 0x18C, 1, 0x18B); (0x192, 0x192, 1, 0x191); (0x195, 0x195, 1, 0x1F6);
    (0x199, 0x199, 1, 0x198); (0x19A, 0x19A, 1, 0x23D); (0x19E, 0x19E, 1, 0x220);
    (0x1A1, 0x1A5, 2, 0x1A0); (0x1A8, 0x1A8, 1, 0x1A7); (0x1AD, 0x1AD, 1, 0x1AC);
    (0x1B0, 0x1B0, 1, 0x1AF); (0x1B4, 0x1B6, 2, 0x1B3); (0x1B9, 0x1B9, 1, 0x1B8);
    (0x1BD, 0x1BD, 1, 0x1BC); (0x1BF, 0x1BF, 1, 0x1F7); (0x1C5, 0x1C5, 1, 0x1C4);
    (0x1C6, 0x1C6, 1, 0x1C4); (0x1C8, 0x1C8, 1, 0x1C7); (0x1C9, 0x1C9, 1, 0x1C7);
    (0x1CB, 0x1CB, 1, 0x1CA); (0x1CC, 0x1CC, 1, 0x1CA); (0x1CE, 0x1DC, 2, 0x1CD);
    (0x1DD, 0x1DD, 1, 0x18E); (0x1DF, 0x1EF, 2, 0x1DE); (0x1F2, 0x1F2, 1, 0x1F1);
    (0x1F3, 0x1F3, 1, 0x1F1); (0x1F5, 0x1F5, 1, 0x1F4); (0x1F9, 0x21F, 2, 0x1F8);
    (0x223, 0x233, 2, 0x222); (0x23C, 0x23C, 1, 0x23B); (0x23F, 0x240, 1, 0x2C7E);
    (0x242, 0x242, 1, 0x241); (0x247, 0x24F, 2, 0x246); (0x250, 0x250, 1, 0x2C6F);
    (0x251, 0x251, 1, 0x2C6D); (0x252, 0x252, 1, 0x2C70); (0x253, 0x253, 1, 0x181);
    (0x254, 0x254, 1, 0x186); (0x256, 0x257, 1, 0x189); (0x259, 0x259, 1, 0x18F);
    (0x25B, 0x25B, 1, 0x190); (0x25C, 0x25C, 1, 0xA7AB); (0x260, 0x260, 1, 0x193);
    (0x261, 0x261, 1, 0xA7AC); (0x263, 0x263, 1, 0x194); (0x265, 0x265, 1, 0xA78D);
    (0x266, 0x266, 1, 0xA7AA); (0x268, 0x268, 1, 0x197); (0x269, 0x269, 1, 0x196);
    (0x26A, 0x26A, 1, 0xA7AE); (0x26B, 0x26B, 1, 0x2C62); (0x26C, 0x26C, 1, 0xA7AD);
    (0x26F, 0x26F, 1, 0x19C); (0x271, 0x271, 1, 0x2C6E); (0x272, 0x272, 1, 0x19D);
    (0x275, 0x275, 1, 0x19F); (0x27D, 0x27D, 1, 0x2C64); (0x280, 0x280, 1, 0x1A6);
    (0x282, 0x282, 1, 0xA7C5); (0x283, 0x283, 1, 0x1A9); (0x287, 0x287, 1, 0xA7B1);
    (0x288, 0x288, 1, 0x1AE); (0x289, 0x289, 1, 0x244); (0x28A, 0x28B, 1, 0x1B1);
    (0x28C, 0x28C, 1, 0x245); (0x292, 0x292, 1, 0x1B7); (0x29D, 0x29D, 1, 0xA7B2);
    (0x29E, 0x29E, 1, 0xA7B0); (0x345, 0x345, 1, 0x399); (0x371, 0x373, 2, 0x370);
    (0x377, 0x377, 1, 0x376); (0x37B, 0x37D, 1, 0x3FD); (0x3AC, 0x3AC, 1, 0x386);
    (0x3AD, 0x3AF, 1, 0x388); (0x3B1, 0x3C1, 1, 0x391); (0x3C2, 0x3C2, 1, 0x3A3);
    (0x3C3, 0x3CB, 1, 0x3A3); (0x3CC, 0x3CC, 1, 0x38C); (0x3CD, 0x3CE, 1, 0x38E);
    (0x3D0, 0x3D0, 1, 0x392); (0x3D1, 0x3D1, 1, 0x398); (0x3D5, 0x3D5, 1, 0x3A6);
    (0x3D6, 0x3D6, 1, 0x3A0); (0x3D7, 0x3D7, 1, 0x3CF); (0x3D9, 0x3EF, 2, 0x3D8);
    (0x3F0, 0x3F0, 1, 0x39A); (0x3F1, 0x3F1, 1, 0x3A1); (0x3F2, 0x3F2, 1, 0x3F9);
    (0x3F3, 0x3F3, 1, 0x37F); (0x3F5, 0x3F5, 1, 0x395); (0x3F8, 0x3F8, 1, 0x3F7);
    (0x3FB, 0x3FB, 1, 0x3FA); (0x430, 0x44F, 1, 0x410); (0x450, 0x45F, 1, 0x400);
    (0x461, 0x481, 2, 0x460); (0x48B, 0x4BF, 2, 0x48A); (0x4C2, 0x4CE, 2, 0x4C1);
    (0x4CF, 0x4CF, 1, 0x4C0); (0x4D1, 0x52F, 2, 0x4D0); (0x561, 0x586, 1, 0x531);
    (0x10D0, 0x10FA, 1, 0x1C90); (0x10FD, 0x10FF, 1, 0x1CBD); (0x13F8, 0x13FD, 1, 0x13F0);
    (0x1C80, 0x1C80, 1, 0x412); (0x1C81, 0x1C81, 1, 0x414); (0x1C82, 0x1C82, 1, 0x41E);
    (0x1C83, 0x1C84, 1, 0x421); (0x1C85, 0x1C85, 1, 0x422); (0x1C86, 0x1C86, 1, 0x42A);
    (0x1C87, 0x1C87, 1, 0x462); (0x1C88, 0x1C88, 1, 0xA64A); (0x1D79, 0x1D79, 1, 0xA77D);
    (0x1D7D, 0x1D7D, 1, 0x2C63); (0x1D8E, 0x1D8E, 1, 0xA7C6); (0x1E01, 0x1E95, 2, 0x1E00);
    (0x1E9B, 0x1E9B, 1, 0x1E60); (0x1EA1, 0x1EFF, 2, 0x1EA0); (0x1F00, 0x1F07, 1, 0x1F08);
    (0x1F10, 0x1F15, 1, 0x1F18); (0x1F20, 0x1F27, 1, 0x1F28); (0x1F30, 0x1F37, 1, 0x1F38);
    (0x1F40, 0x1F45, 1, 0x1F48); (0x1F51, 0x1F57, 2, 0x1F59); (0x1F60, 0x1F67, 1, 0x1F68);
    (0x1F70, 0x1F71, 1, 0x1FBA); (0x1F72, 0x1F75, 1, 0x1FC8); (0x1F76, 0x1F77, 1, 0x1FDA);
    (0x1F78, 0x1F79, 1, 0x1FF8); (0x1F7A, 0x1F7B, 1, 0x1FEA); (0x1F7C, 0x1F7D, 1, 0x1FFA);
    (0x1FB0, 0x1FB1, 1, 0x1FB8); (0x1FBE, 0x1FBE, 1, 0x399); (0x1FD0, 0x1FD1, 1, 0x1FD8);
    (0x1FE0, 0x1FE1, 1, 0x1FE8); (0x1FE5, 0x1FE5, 1, 0x1FEC); (0x214E, 0x214E, 1, 0x2132);
    (0x2170, 0x217F, 1, 0x2160); (0x2184, 0x2184, 1, 0x2183); (0x24D0, 0x24E9, 1, 0x24B6);
    (0x2C30, 0x2C5F, 1, 0x2C00); (0x2C61, 0x2C61, 1, 0x2C60); (0x2C65, 0x2C65, 1, 0x23A);
    (0x2C66, 0x2C66, 1, 0x23E); (0x2C68, 0x2C6C, 2, 0x2C67); (0x2C73, 0x2C73, 1, 0x2C72);
    (0x2C76, 0x2C76, 1, 0x2C75); (0x2C81, 0x2CE3, 2, 0x2C80); (0x2CEC, 0x2CEE, 2, 0x2CEB);
    (0x2CF3, 0x2CF3, 1, 0x2CF2); (0x2D00, 0x2D25, 1, 0x10A0); (0x2D27, 0x2D27, 1, 0x10C7);
    (0x2D2D, 0x2D2D, 1, 0x10CD); (0xA641, 0xA66D, 2, 0xA640); (0xA681, 0xA69B, 2, 0xA680);
    (0xA723, 0xA72F, 2, 0xA722); (0xA733, 0xA76F, 2, 0xA732); (0xA77A, 0xA77C, 2, 0xA779);
    (0xA77F, 0xA787, 2, 0xA77E); (0xA78C, 0xA78C, 1, 0xA78B); (0xA791, 0xA793, 2, 0xA790);
    (0xA794, 0xA794, 1, 0xA7C4); (0xA797, 0xA7A9, 2, 0xA796); (0xA7B5, 0xA7C3, 2, 0xA7B4);
    (0xA7C8, 0xA7CA, 2, 0xA7C7); (0xA7D1, 0xA7D1, 1, 0xA7D0); (0xA7D7, 0xA7D9, 2, 0xA7D6);
    (0xA7F6, 0xA7F6, 1, 0xA7F5); (0xAB53, 0xAB53, 1, 0xA7B3); (0xAB70, 0xABBF, 1, 0x13A0);
    (0xFF41, 0xFF5A, 1, 0xFF21); (0x10428, 0x1044F, 1, 0x10400); (0x104D8, 0x104FB, 1, 0x104B0);
    (0x10597, 0x105A1, 1, 0x10570); (0x105A3, 0x105B1, 1, 0x1057C); (0x105B3, 0x105B9, 1, 0x1058C);
    (0x105BB, 0x105BC, 1, 0x10594); (0x10CC0, 0x10CF2, 1, 0x10C80); (0x118C0, 0x118DF, 1, 0x118A0);
    (0x16E60, 0x16E7F, 1, 0x16E40); (0x1E922, 0x1E943, 1, 0x1E900) ].

(** The characters whose upper-case form is two or three characters. *)
Definition upper_expansions : list (N * list N) :=
  [
    (0xDF, [0x53; 0x53]); (0x149, [0x2BC; 0x4E]); (0x1F0, [0x4A; 0x30C]);
    (0x390, [0x399; 0x308; 0x301]); (0x3B0, [0x3A5; 0x308; 0x301]); (0x587, [0x535; 0x552]);
    (0x1E96, [0x48; 0x331]); (0x1E97, [0x54; 0x308]); (0x1E98, [0x57; 0x30A]);
    (0x1E99, [0x59; 0x30A]); (0x1E9A, [0x41; 0x2BE]); (0x1F50, [0x3A5; 0x313]);
    (0x1F52, [0x3A5; 0x313; 0x300]); (0x1F54, [0x3A5; 0x313; 0x301]); (0x1F56, [0x3A5; 0x313; 0x342]);
    (0x1F80, [0x1F08; 0x399]); (0x1F81, [0x1F09; 0x399]); (0x1F82, [0x1F0A; 0x399]);
    (0x1F83, [0x1F0B; 0x399]); (0x1F84, [0x1F0C; 0x399]); (0x1F85, [0x1F0D; 0x399]);
    (0x1F86, [0x1F0E; 0x399]); (0x1F87, [0x1F0F; 0x399]); (0x1F88, [0x1F08; 0x399]);
    (0x1F89, [0x1F09; 0x399]); (0x1F8A, [0x1F0A; 0x399]); (0x1F8B, [0x1F0B; 0x399]);
    (0x1F8C, [0x1F0C; 0x399]); (0x1F8D, [0x1F0D; 0x399]); (0x1F8E, [0x1F0E; 0x399]);
    (0x1F8F, [0x1F0F; 0x399]); (0x1F90, [0x1F28; 0x399]); (0x1F91, [0x1F29; 0x399]);
    (0x1F92, [0x1F2A; 0x399]); (0x1F93, [0x1F2B; 0x399]); (0x1F94, [0x1F2C; 0x399]);
    (0x1F95, [0x1F2D; 0x399]); (0x1F96, [0x1F2E; 0x399]); (0x1F97, [0x1F2F; 0x399]);
    (0x1F98, [0x1F28; 0x399]); (0x1F99, [0x1F29; 0x399]); (0x1F9A, [0x1F2A; 0x399]);
    (0x1F9B, [0x1F2B; 0x399]); (0x1F9C, [0x1F2C; 0x399]); (0x1F9D, [0x1F2D; 0x399]);
    (0x1F9E, [0x1F2E; 0x399]); (0x1F9F, [0x1F2F; 0x399]); (0x1FA0, [0x1F68; 0x399]);
    (0x1FA1, [0x1F69; 0x399]); (0x1FA2, [0x1F6A; 0x399]); (0x1FA3, [0x1F6B; 0x399]);
    (0x1FA4, [0x1F6C; 0x399]); (0x1FA5, [0x1F6D; 0x399]); (0x1FA6, [0x1F6E; 0x399]);
    (0x1FA7, [0x1F6F; 0x399]); (0x1FA8, [0x1F68; 0x399]); (0x1FA9, [0x1F69; 0x399]);
    (0x1FAA, [0x1F6A; 0x399]); (0x1FAB, [0x1F6B; 0x399]); (0x1FAC, [0x1F6C; 0x399]);
    (0x1FAD, [0x1F6D; 0x399]); (0x1FAE, [0x1F6E; 0x399]); (0x1FAF, [0x1F6F; 0x399]);
    (0x1FB2, [0x1FBA; 0x399]); (0x1FB3, [0x391; 0x399]); (0x1FB4, [0x386; 0x399]);
    (0x1FB6, [0x391; 0x342]); (0x1FB7, [0x391; 0x342; 0x399]); (0x1FBC, [0x391; 0x399]);
    (0x1FC2, [0x1FCA; 0x399]); (0x1FC3, [0x397; 0x399]); (0x1FC4, [0x389; 0x399]);
    (0x1FC6, [0x397; 0x342]); (0x1FC7, [0x397; 0x342; 0x399]); (0x1FCC, [0x397; 0x399]);
    (0x1FD2, [0x399; 0x308; 0x300]); (0x1FD3, [0x399; 0x308; 0x301]); (0x1FD6, [0x399; 0x342]);
    (0x1FD7, [0x399; 0x308; 0x342]); (0x1FE2, [0x3A5; 0x308; 0x300]); (0x1FE3, [0x3A5; 0x308; 0x301]);
    (0x1FE4, [0x3A1; 0x313]); (0x1FE6, [0x3A5; 0x342]); (0x1FE7, [0x3A5; 0x308; 0x342]);
    (0x1FF2, [0x1FFA; 0x399]); (0x1FF3, [0x3A9; 0x399]); (0x1FF4, [0x38F; 0x399]);
    (0x1FF6, [0x3A9; 0x342]); (0x1FF7, [0x3A9; 0x342; 0x399]); (0x1FFC, [0x3A9; 0x399]);
    (0xFB00, [0x46; 0x46]); (0xFB01, [0x46; 0x49]); (0xFB02, [0x46; 0x4C]);
    (0xFB03, [0x46; 0x46; 0x49]); (0xFB04, [0x46; 0x46; 0x4C]); (0xFB05, [0x53; 0x54]);
    (0xFB06, [0x53; 0x54]); (0xFB13, [0x544; 0x546]); (0xFB14, [0x544; 0x535]);
    (0xFB15, [0x544; 0x53B]); (0xFB16, [0x54E; 0x546]); (0xFB17, [0x544; 0x53D]) ].

Definition isspace (c : N) : bool := existsb (within c) space_ranges.

Definition isalnum (c : N) : bool := existsb (within c) alnum_ranges.

(** The class [\w] of [re] for a [str] pattern: the alphanumeric
    characters and the underscore. *)
Definition is_word (c : N) : bool := isalnum c || (c =? code_point "_").

Definition in_run (c : N) (r : N * N * N * N) : bool :=
  let '(first, last, step, _) := r in
  (first <=? c) && (c <=? last) && ((c - first) mod step =? 0).

(** [chr(c).upper()]: one to three code points. *)
Definition upper_char (c : N) : str :=
  match find (fun e => fst e =? c) upper_expansions with
  | Some e => snd e
  | None =>
      match find (in_run c) upper_runs with
      | Some (first, _, _, image) => [image + (c - first)]
      | None => [c]
      end
  end.

(** [str.upper]: every character gives its upper-case form, whatever
    stands around it. *)
Definition upper (s : str) : str := flat_map upper_char s.

(** The lower-case form that [re.IGNORECASE] compares a character
    with, on the range that matters to the pattern of the validator: no
    character but a letter of [category] and its capital has a letter
    of [category] as its lower-case form. *)
Definition lower_letter (c : N) : N :=
  if (code_point "A" <=? c) && (c <=? code_point "Z") then c + 32 else c.

Fixpoint drop_while (p : N -> bool) (s : str) : str :=
  match s with
  | [] => []
  | c :: r => if p c then drop_while p r else s
  end.

Fixpoint take_while (p : N -> bool) (s : str) : str :=
  match s with
  | [] => []
  | c :: r => if p c then c :: take_while p r else []
  end.

(** [str.lstrip], [str.rstrip] and [str.strip] without argument. *)
Definition lstrip (s : str) : str := drop_while isspace s.
Definition rstrip (s : str) : str := rev (drop_while isspace (rev s)).
Definition strip (s : str) : str := rstrip (lstrip s).

(** [s.startswith(p)]. *)
Fixpoint starts_with (p s : str) : bool :=
  match p, s with
  | [], _ => true
  | _ :: _, [] => false
  | a :: p', c :: s' => (a =? c) && starts_with p' s'
  end.

(** [needle in hay]. *)
Fixpoint contains (needle hay : str) : bool :=
  starts_with needle hay ||
  match hay with
  | [] => false
  | _ :: r => contains needle r
  end.

Definition is_word_opt (c : option N) : bool :=
  match c with
  | Some x => is_word x
  | None => false
  end.

(** The assertion [\b] between two neighbouring positions. *)
Definition word_boundary (before after : option N) : bool :=
  xorb (is_word_opt before) (is_word_opt after).

(** ** [SupabaseClient._validate_sql] *)

Definition newline : N := code_point "010".
Definition quote : N := code_point "'".

(** [re.sub(r'--.*$', '', sql, flags=re.MULTILINE)]: the dot takes
    every character but the line feed, and [$] holds before a line
    feed and at the end of the text. *)
Fixpoint sub_line_comments (in_comment : bool) (s : str) : str :=
  match s with
  | [] => []
  | c :: r =>
      if in_comment
      then (if c =? newline
            then c :: sub_line_comments false r
            else sub_line_comments true r)
      else match r with
           | d :: _ =>
               if (c =? code_point "-") && (d =? code_point "-")
               then sub_line_comments true r
               else c :: sub_line_comments false r
           | [] => [c]
           end
  end.

Fixpoint block_end (s : str) : option nat :=
  match s with
  | [] => None
  | c :: r =>
      match r with
      | d :: _ =>
          if (c =? code_point "*") && (d =? code_point "/")
          then Some 2%nat
          else option_map S (block_end r)
      | [] => None
      end
  end.

(** [re.sub(r'/\*.*?\*/', '', s, flags=re.DOTALL)]. *)
Fixpoint sub_block_comments (skip : nat) (s : str) : str :=
  match s with
  | [] => []
  | c :: r =>
      match skip with
      | S k => sub_block_comments k r
      | O =>
          match r with
          | d :: r' =>
              if (c =? code_point "/") && (d =? code_point "*")
              then match block_end r' with
                   | Some n => sub_block_comments (S n) r
                   | None => c :: sub_block_comments 0 r
                   end
              else c :: sub_block_comments 0 r
          | [] => [c]
          end
      end
  end.

Definition strip_comments (sql : str) : str :=
  sub_block_comments 0 (sub_line_comments false sql).

(** Does [\b kw \b] match at the head of [s], [prev] being the
    character before it? *)
Definition match_word_at (prev : option N) (kw s : str) : bool :=
  word_boundary prev (hd_error s)
  && starts_with kw s
  && word_boundary (match rev kw with c :: _ => Some c | [] => prev end)
                   (hd_error (skipn (List.length kw) s)).

Fixpoint search_word_from (prev : option N) (kw s : str) : bool :=
  match_word_at prev kw s ||
  match s with
  | [] => false
  | c :: r => search_word_from (Some c) kw r
  end.

(** [re.search(r'\b' + keyword + r'\b', s)] as a truth value. *)
Definition search_word (kw s : str) : bool := search_word_from None kw s.

Definition not_quote (c : N) : bool := negb (c =? quote).

(** One attempt of [category\s*=\s*'([^']+)'] with [re.IGNORECASE] at
    the head of [s]: the captured literal and the length of the
    match. *)
Definition match_category_at (s : str) : option (str * nat) :=
  let kw := of_string "category" in
  if starts_with kw (map lower_letter (firstn (List.length kw) s)) then
    let s1 := skipn (List.length kw) s in
    let ws1 := take_while isspace s1 in
    match drop_while isspace s1 with
    | e :: s2 =>
        if e =? code_point "=" then
          let ws2 := take_while isspace s2 in
          match drop_while isspace s2 with
          | q :: s3 =>
              if q =? quote then
                let lit := take_while not_quote s3 in
                match lit, drop_while not_quote s3 with
                | _ :: _, _ :: _ =>
                    Some (lit, (List.length kw + List.length ws1 + 1
                                + List.length ws2 + 1 + List.length lit + 1)%nat)
                | _, _ => None
                end
              else None
          | [] => None
          end
        else None
    | [] => None
    end
  else None.

(** [re.findall] of that pattern. *)
Fixpoint findall_category_from (skip : nat) (s : str) : list str :=
  match s with
  | [] => []
  | _ :: r =>
      match skip with
      | S k => findall_category_from k r
      | O =>
          match match_category_at s with
          | Some (lit, n) => lit :: findall_category_from (n - 1) r
          | None => findall_category_from 0 r
          end
      end
  end.

Definition findall_category (s : str) : list str := findall_category_from 0 s.

(** [cat not in ALLOWED_CATEGORIES]. *)
Definition not_allowed (cat : str) : bool :=
  negb (existsb (fun allowed => eqb cat (of_string allowed))
                Config.ALLOWED_CATEGORIES).

Definition forbidden_keyword_message (keyword : string) : str :=
  of_string "Query contains forbidden keyword: " ++ of_string keyword
    ++ of_string ". Only SELECT queries are allowed.".

Definition category_message (cat : str) : str :=
  of_string "Query uses a category that is not allowed: " ++ cat.

(** The validator returns nothing or raises [ValueError]: [inl msg] is
    that exception with its message. *)
Definition verdict : Type := (str + unit)%type.

Definition ValueError (msg : str) : verdict := inl msg.
Definition passes : verdict := inr tt.

Definition and_then (first next : verdict) : verdict :=
  match first with
  | inl msg => inl msg
  | inr _ => next
  end.

Definition check_keywords (sql_upper : str) : verdict :=
  match find (fun keyword => search_word (of_string keyword) sql_upper)
             QueryExecutor.DANGEROUS_KEYWORDS with
  | Some keyword => ValueError (forbidden_keyword_message keyword)
  | None => passes
  end.

Definition check_select (sql_clean : str) : verdict :=
  if negb (starts_with (of_string "SELECT") (upper (strip sql_clean)))
  then ValueError (of_string "Only SELECT queries are allowed")
  else passes.

Definition check_categories (sql_clean : str) : verdict :=
  match find not_allowed (findall_category sql_clean) with
  | Some cat => ValueError (category_message cat)
  | None => passes
  end.

(** [SupabaseClient._validate_sql]. *)
Definition _validate_sql (sql : str) : verdict :=
  let sql_clean := strip_comments sql in
  let sql_upper := upper sql_clean in
  and_then (check_keywords sql_upper)
           (and_then (check_select sql_clean) (check_categories sql_clean)).

(** ** [SQLOutputParser.parse] *)

Definition fence : str := of_text ModelService.fence.
Definition sql_fence : str := fence ++ of_string "sql".

(** [s.replace(old, EmptyString)] for an [old] that is not empty. *)
Fixpoint remove_from (old : str) (skip : nat) (s : str) : str :=
  match s with
  | [] => []
  | c :: r =>
      match skip with
      | S k => remove_from old k r
      | O =>
          if starts_with old s
          then remove_from old (List.length old - 1) r
          else c :: remove_from old 0 r
      end
  end.

Definition remove (old s : str) : str := remove_from old 0 s.

(** [s.find(sub)]. *)
Fixpoint find_from (sub s : str) : option nat :=
  if starts_with sub s then Some 0%nat
  else match s with
       | [] => None
       | _ :: r => option_map S (find_from sub r)
       end.

Definition find_index (sub s : str) : Z :=
  match find_from sub s with
  | Some i => Z.of_nat i
  | None => (-1)%Z
  end.

(** [s[i:]]. *)
Definition slice_from (i : Z) (s : str) : str :=
  if (0 <=? i)%Z then skipn (Z.to_nat i) s
  else skipn (Z.to_nat (Z.of_nat (List.length s) + i)) s.

(** [SQLOutputParser.parse]: the index of SELECT is looked up in the
    upper-case form of the text and used in the text itself. *)
Definition parse (text : str) : str :=
  let text := remove fence (remove sql_fence text) in
  let text := strip text in
  let text :=
    if contains (of_string "SELECT") (upper text)
    then slice_from (find_index (of_string "SELECT") (upper text)) text
    else text in
  strip text.

(** ** The properties stated of the two functions *)

(** The capital of a letter from a to z; any other character is left
    as it is. *)
Definition capital (c : N) : N :=
  if (code_point "a" <=? c) && (c <=? code_point "z") then c - 32 else c.

(** [w] spells the keyword [kw] in some letter case. *)
Definition spells (kw : string) (w : str) : Prop := map capital w = of_string kw.

Definition last_or (prev : option N) (pre : str) : option N :=
  match rev pre with
  | c :: _ => Some c
  | [] => prev
  end.

(** [kw] stands in [s] as a whole word, in any letter case. *)
Definition occurs_as_word (kw : string) (s : str) : Prop :=
  exists pre w post,
    s = pre ++ w ++ post
    /\ spells kw w
    /\ is_word_opt (last_or None pre) = false
    /\ is_word_opt (hd_error post) = false.

(** [s] begins with SELECT in some letter case. *)
Definition begins_with_select (s : str) : Prop :=
  exists w rest, s = w ++ rest /\ spells "SELECT" w.

(** A literal of the allow-list. *)
Definition allowed (cat : str) : Prop :=
  In cat (map of_string Config.ALLOWED_CATEGORIES).

(** A filter on the category: the column name in some letter case,
    the equals sign with blanks around it at will, and between quotes
    a literal that is not empty and holds no quote. *)
Definition category_filter (name ws1 ws2 lit : str) : str :=
  name ++ ws1 ++ code_point "=" :: ws2 ++ quote :: lit ++ [quote].

Definition is_category_filter (lit occ : str) : Prop :=
  exists name ws1 ws2,
    occ = category_filter name ws1 ws2 lit
    /\ map lower_letter name = of_string "category"
    /\ forallb isspace ws1 = true
    /\ forallb isspace ws2 = true
    /\ lit <> []
    /\ forallb not_quote lit = true.

(** The text holds a category filter on the literal [lit]. *)
Definition filters_on (s lit : str) : Prop :=
  exists pre occ post, s = pre ++ occ ++ post /\ is_category_filter lit occ.

(** A match of the pattern that begins in [pre], after its first
    character or at it, and runs past the end of [pre] into [rest]. *)
Definition shadowed (pre rest : str) : Prop :=
  exists a b lit m,
    pre = a ++ b
    /\ b <> []
    /\ match_category_at (b ++ rest) = Some (lit, m)
    /\ (List.length b < m)%nat.

(** The verdict of the validator of [QueryExecutor] as a verdict
    here. *)
Definition of_result (r : result unit) : verdict :=
  match r with
  | inl e => inl (of_string (Analytics.exn_message e))
  | inr _ => inr tt
  end.


Definition caron_drop : str :=
  of_string "SELECT " ++ [0x1F0] ++ of_string "drop FROM t".


Definition dotless_insert : str :=
  of_string "SELECT 1; " ++ [0x131] ++ of_string "nsert into t".

Definition nbsp_select : str := [0xA0] ++ of_string "SELECT 1".

Definition sharp_select : str := [0xDF; 0xDF] ++ of_string " x SELECT SELECT 1".

(** A filter on the category behind a quoted title that reads like the
    head of one. *)
Definition quoted_filter : str :=
  of_string "SELECT id FROM issue_analytics WHERE title = 'category=' AND category='Sidewalks'".

End Unicode.

(* ===================================================================== *)
(** * Instances of the services                                           *)
(* ===================================================================== *)

(** Services to run the endpoint on examples: a completion endpoint
    that gives one fixed answer, a database that returns fixed rows,
    and an environment that sets every variable. *)
Module Fixtures.
Import ModelService.

Definition canned (answer : string) : llm := fun _ => ret answer.

Definition service (answer : string) : GroqService :=
  {| groq_client := Some (canned answer);
     model := "llama-3.1-8b-instant";
     prompt_template := Some sql_prompt |}.

Definition remote_with (rows : list row) : QueryExecutor.remote :=
  fun _ => ret {| QueryExecutor.resp_error := None;
                  QueryExecutor.resp_data := Some rows |}.

Definition full_environment : environ :=
  fun name =>
    if String.eqb name "GROQ_API_KEY" then Some "gsk_example"
    else if String.eqb name "SUPABASE_URL" then Some "https://example.supabase.co"
    else if String.eqb name "SUPABASE_KEY" then Some "example-key"
    else None.

End Fixtures.

(* ===================================================================== *)
(** * Facts about text                                                    *)
(* ===================================================================== *)

Module TextFacts.
Import Text Properties.

Lemma is_word_upper_char (c : ascii) : is_word (upper_char c) = is_word c.
Proof. destruct c as [[|] [|] [|] [|] [|] [|] [|] [|]]; reflexivity. Qed.

Lemma is_word_opt_upper (s : text) :
  is_word_opt (hd_error (upper s)) = is_word_opt (hd_error s).
Proof. destruct s as [|c r]; simpl; auto using is_word_upper_char. Qed.

Lemma starts_with_app (p r : text) : starts_with p (p ++ r)%list = true.
Proof.
  induction p as [|a p IH]; simpl; trivial.
  now rewrite Ascii.eqb_refl, IH.
Qed.

Lemma starts_with_split (p s : text) :
  starts_with p s = true -> exists r, s = (p ++ r)%list.
Proof.
  revert s; induction p as [|a p IH]; intros s H.
  - now exists s.
  - destruct s as [|c s]; simpl in H; [discriminate|].
    apply andb_true_iff in H as [Hc Hs].
    apply Ascii.eqb_eq in Hc; subst c.
    destruct (IH _ Hs) as [r ->]. now exists r.
Qed.

Lemma starts_with_iff (p s : text) :
  starts_with p s = true <-> exists r, s = (p ++ r)%list.
Proof.
  split; [apply starts_with_split|].
  intros [r ->]. apply starts_with_app.
Qed.

Lemma skipn_exact (p r : text) : skipn (List.length p) (p ++ r)%list = r.
Proof. induction p; simpl; auto. Qed.

Lemma last_or_cons (prev : option ascii) (c : ascii) (pre : text) :
  last_or prev (c :: pre) = last_or (Some c) pre.
Proof.
  unfold last_or; simpl.
  destruct (rev pre); reflexivity.
Qed.

Lemma is_word_last_or_upper (c : ascii) (pre : text) :
  is_word_opt (last_or (Some (upper_char c)) pre)
  = is_word_opt (last_or (Some c) pre).
Proof.
  unfold last_or. destruct (rev pre); simpl; auto using is_word_upper_char.
Qed.

Lemma of_string_app (a b : string) :
  of_string (a ++ b) = (of_string a ++ of_string b)%list.
Proof. induction a; simpl; [reflexivity|]. now f_equal. Qed.

Lemma of_string_inj (a b : string) : of_string a = of_string b -> a = b.
Proof.
  intros H. rewrite <- (string_of_list_ascii_of_string a),
    <- (string_of_list_ascii_of_string b).
  unfold of_string in H. now rewrite H.
Qed.

Lemma append_inv_tail (a b t : string) : a ++ t = b ++ t -> a = b.
Proof.
  intros H. apply of_string_inj.
  apply (f_equal of_string) in H. rewrite !of_string_app in H.
  now apply app_inv_tail in H.
Qed.

Lemma take_drop_while (p : ascii -> bool) (s : text) :
  (take_while p s ++ drop_while p s)%list = s.
Proof.
  induction s as [|c r IH]; simpl; trivial.
  destruct (p c); simpl; [now rewrite IH | reflexivity].
Qed.

Lemma take_while_all (p : ascii -> bool) (s : text) :
  forallb p (take_while p s) = true.
Proof.
  induction s as [|c r IH]; simpl; trivial.
  destruct (p c) eqn:E; simpl; [now rewrite E | reflexivity].
Qed.

Lemma drop_while_head (p : ascii -> bool) (s : text) (c : ascii) (r : text) :
  drop_while p s = c :: r -> p c = false.
Proof.
  induction s as [|d s IH]; simpl; [discriminate|].
  destruct (p d) eqn:E; [exact IH|].
  intros H. injection H as -> _. exact E.
Qed.

(** A stretch of characters of the class [p] followed by a character
    outside it is what the two scans cut off. *)
Lemma take_while_app (p : ascii -> bool) (a : text) (c : ascii) (r : text) :
  forallb p a = true -> p c = false ->
  take_while p (a ++ c :: r)%list = a.
Proof.
  intros Ha Hc. induction a as [|x a IH]; simpl in *.
  - now rewrite Hc.
  - apply andb_true_iff in Ha as [Hx Ha]. now rewrite Hx, IH.
Qed.

Lemma drop_while_app (p : ascii -> bool) (a : text) (c : ascii) (r : text) :
  forallb p a = true -> p c = false ->
  drop_while p (a ++ c :: r)%list = c :: r.
Proof.
  intros Ha Hc. induction a as [|x a IH]; simpl in *.
  - now rewrite Hc.
  - apply andb_true_iff in Ha as [Hx Ha]. now rewrite Hx, IH.
Qed.

End TextFacts.

(* ===================================================================== *)
(** * The validator                                                       *)
(* ===================================================================== *)

Module ValidatorFacts.
Import Text QueryExecutor Properties TextFacts.

Lemma plain_keyword_last (kw : text) :
  plain_keyword kw = true ->
  exists c r, rev kw = c :: r /\ is_word c = true.
Proof.
  unfold plain_keyword. intros H.
  apply andb_true_iff in H as [H _]. apply andb_true_iff in H as [Hne Hw].
  destruct (rev kw) as [|c r] eqn:E.
  - apply (f_equal (@List.length _)) in E. rewrite length_rev in E.
    rewrite E in Hne. discriminate.
  - exists c, r. split; trivial.
    rewrite forallb_forall in Hw. apply Hw.
    apply in_rev. rewrite E. now left.
Qed.

Lemma plain_keyword_first (kw : text) :
  plain_keyword kw = true ->
  exists c r, kw = c :: r /\ is_word c = true.
Proof.
  unfold plain_keyword. intros H.
  apply andb_true_iff in H as [H _]. apply andb_true_iff in H as [Hne Hw].
  destruct kw as [|c r]; [discriminate|].
  exists c, r. split; trivial.
  simpl in Hw. now apply andb_true_iff in Hw as [Hc _].
Qed.

Lemma plain_keyword_upper (kw : text) :
  plain_keyword kw = true -> upper kw = kw.
Proof.
  unfold plain_keyword. intros H. apply andb_true_iff in H as [_ H].
  induction kw as [|c r IH]; simpl in *; trivial.
  apply andb_true_iff in H as [Hc Hr].
  apply Ascii.eqb_eq in Hc. now rewrite Hc, IH.
Qed.

(** The pattern matches at the head of [u] exactly when [u] begins
    with the keyword, between two characters that are not word
    characters. *)
Lemma match_word_at_spec (prev : option ascii) (kw u : text) :
  plain_keyword kw = true ->
  match_word_at prev kw u = true
  <-> is_word_opt prev = false
      /\ exists post, u = (kw ++ post)%list
                      /\ is_word_opt (hd_error post) = false.
Proof.
  intros Hk.
  destruct (plain_keyword_first _ Hk) as (a & k' & Ekw & Ha).
  destruct (plain_keyword_last _ Hk) as (z & k'' & Erev & Hz).
  unfold match_word_at, word_boundary. rewrite Erev. split.
  - intros H. apply andb_true_iff in H as [H H3].
    apply andb_true_iff in H as [H1 H2].
    destruct (starts_with_split _ _ H2) as [post ->].
    rewrite skipn_exact in H3.
    rewrite Ekw in H1. simpl in H1, H3. rewrite Ha in H1. rewrite Hz in H3.
    split.
    + now destruct (is_word_opt prev).
    + exists post. split; trivial.
      now destruct (is_word_opt (hd_error post)).
  - intros (Hp & post & -> & Hpost).
    rewrite starts_with_app, skipn_exact, Hp, Hpost.
    rewrite Ekw. simpl. now rewrite Ha, Hz.
Qed.

(** [re.search] on the raised text finds the keyword exactly when it
    stands in the text as a whole word in some letter case. *)
Lemma search_word_from_spec (kw : text) :
  plain_keyword kw = true ->
  forall (s : text) (prev : option ascii),
    search_word_from prev kw (upper s) = true
    <-> occurs_as_word_after prev kw s.
Proof.
  intros Hk.
  destruct (plain_keyword_first _ Hk) as (a & k' & Ekw & Ha).
  induction s as [|c r IH]; intros prev.
  - simpl. rewrite orb_false_r. split.
    + intros H. apply (match_word_at_spec _ _ _ Hk) in H as (_ & post & E & _).
      rewrite Ekw in E. discriminate.
    + intros (pre & w & post & E & Hw & _).
      symmetry in E. apply app_eq_nil in E as [_ E].
      apply app_eq_nil in E as [-> _]. simpl in Hw.
      rewrite Ekw in Hw. discriminate.
  - change (upper (c :: r)) with (upper_char c :: upper r).
    cbn [search_word_from]. rewrite orb_true_iff.
    change (upper_char c :: upper r) with (upper (c :: r)). split.
    + intros [H | H].
      * apply (match_word_at_spec prev kw _ Hk) in H as (Hp & post & E & Hpost).
        unfold upper in E. apply map_eq_app in E as (w & post' & E & Hw & <-).
        exists [], w, post'. repeat split; trivial.
        now rewrite <- is_word_opt_upper.
      * apply IH in H as (pre & w & post & E & Hw & Hl & Hpost).
        exists (c :: pre), w, post. rewrite E. repeat split; trivial.
        now rewrite last_or_cons, <- is_word_last_or_upper.
    + intros (pre & w & post & E & Hw & Hl & Hpost).
      destruct pre as [|c' pre].
      * left. apply (match_word_at_spec prev kw _ Hk). split; [exact Hl|].
        exists (upper post). simpl in E. rewrite E.
        unfold upper at 1. rewrite map_app. fold (upper w). fold (upper post).
        rewrite Hw. split; trivial. now rewrite is_word_opt_upper.
      * right. apply IH. simpl in E. injection E as <- E.
        exists pre, w, post. repeat split; trivial.
        rewrite last_or_cons in Hl. now rewrite is_word_last_or_upper.
Qed.

Lemma search_word_spec (kw : string) (s : text) :
  plain_keyword (of_string kw) = true ->
  search_word (of_string kw) (upper s) = true <-> occurs_as_word kw s.
Proof. intros Hk. apply (search_word_from_spec _ Hk). Qed.

Lemma dangerous_keywords_plain (kw : string) :
  In kw DANGEROUS_KEYWORDS -> plain_keyword (of_string kw) = true.
Proof.
  assert (H : forallb (fun k => plain_keyword (of_string k)) DANGEROUS_KEYWORDS
              = true) by reflexivity.
  rewrite forallb_forall in H. apply H.
Qed.

Lemma category_filter_assemble (s name s1 ws1 s2 ws2 s3 lit s4 : text) :
  s = (name ++ s1)%list ->
  s1 = (ws1 ++ "="%char :: s2)%list ->
  s2 = (ws2 ++ quote :: s3)%list ->
  s3 = (lit ++ quote :: s4)%list ->
  s = (category_filter name ws1 ws2 lit ++ s4)%list.
Proof.
  intros -> -> -> ->. unfold category_filter.
  repeat (rewrite <- app_assoc; simpl). reflexivity.
Qed.

(** A match of the pattern at the head of [s] is a category filter
    that [s] begins with; its literal is the captured group. *)
Lemma match_category_at_sound (s lit : text) (n : nat) :
  match_category_at s = Some (lit, n) ->
  exists occ post,
    s = (occ ++ post)%list /\ is_category_filter lit occ /\ n = List.length occ.
Proof.
  unfold match_category_at.
  set (kw := of_string "category").
  assert (E0 : s = (firstn (List.length kw) s ++ skipn (List.length kw) s)%list)
    by (symmetry; apply firstn_skipn).
  assert (L0 : List.length (firstn (List.length kw) s) <= List.length kw)
    by (rewrite length_firstn; lia).
  revert E0 L0.
  generalize (firstn (List.length kw) s) as name.
  generalize (skipn (List.length kw) s) as s1.
  intros s1 name E0 L0.
  destruct (starts_with kw (lower name)) eqn:Hs; [|discriminate].
  destruct (drop_while is_space s1) as [|e s2] eqn:D1; [discriminate|].
  destruct (Ascii.eqb e "=") eqn:He; [|discriminate].
  apply Ascii.eqb_eq in He; subst e.
  destruct (drop_while is_space s2) as [|q s3] eqn:D2; [discriminate|].
  destruct (Ascii.eqb q quote) eqn:Hq; [|discriminate].
  apply Ascii.eqb_eq in Hq; subst q.
  destruct (take_while not_quote s3) as [|l0 l] eqn:T; [discriminate|].
  destruct (drop_while not_quote s3) as [|q' s4] eqn:D3; [discriminate|].
  intros H. injection H as Hlit Hn.
  assert (Hq' : q' = quote).
  { apply drop_while_head in D3. unfold not_quote in D3.
    apply negb_false_iff in D3. now apply Ascii.eqb_eq. }
  subst q'.
  assert (Hname : lower name = kw).
  { destruct (starts_with_split _ _ Hs) as [r E].
    assert (L : List.length (lower name) <= List.length kw)
      by (unfold lower; now rewrite length_map).
    rewrite E, length_app in L. destruct r; [|simpl in L; lia].
    now rewrite app_nil_r in E. }
  assert (E3 : s3 = (lit ++ quote :: s4)%list)
    by (now rewrite <- Hlit, <- T, <- D3, take_drop_while).
  assert (E2 : s2 = (take_while is_space s2 ++ quote :: s3)%list)
    by (now rewrite <- D2, take_drop_while).
  assert (E1 : s1 = (take_while is_space s1 ++ "="%char :: s2)%list)
    by (now rewrite <- D1, take_drop_while).
  exists (category_filter name (take_while is_space s1)
                          (take_while is_space s2) lit), s4.
  split; [|split].
  - eapply category_filter_assemble; eauto.
  - exists name, (take_while is_space s1), (take_while is_space s2).
    repeat split; auto using take_while_all.
    + rewrite <- Hlit. discriminate.
    + rewrite <- Hlit, <- T. apply take_while_all.
  - assert (L : List.length name = List.length kw).
    { rewrite <- Hname. unfold lower. now rewrite length_map. }
    unfold category_filter.
    repeat (rewrite length_app || cbn [List.length]).
    rewrite <- Hn, <- Hlit, L. cbn [List.length].
    change (List.length kw) with 8. lia.
Qed.

(** Every literal the scan extracts is the literal of a category
    filter that the text holds. *)
Lemma findall_category_from_sound (lit : text) :
  forall (s : text) (skip : nat),
    In lit (findall_category_from skip s) ->
    exists pre occ post,
      s = (pre ++ occ ++ post)%list /\ is_category_filter lit occ.
Proof.
  induction s as [|c r IH]; intros skip H; [destruct H|].
  assert (Hr : forall k, In lit (findall_category_from k r) ->
               exists pre occ post,
                 c :: r = (pre ++ occ ++ post)%list /\ is_category_filter lit occ).
  { intros k Hk. destruct (IH k Hk) as (pre & occ & post & -> & Hf).
    now exists (c :: pre), occ, post. }
  cbn [findall_category_from] in H. destruct skip as [|k]; [|eauto].
  destruct (match_category_at (c :: r)) as [[lit' n]|] eqn:M; [|eauto].
  destruct H as [<- | H]; [|eauto].
  apply match_category_at_sound in M as (occ & post & E & Hf & _).
  exists [], occ, post. auto.
Qed.

Lemma findall_category_sound (s : text) (cat : string) :
  In cat (findall_category s) -> filters_on s cat.
Proof.
  unfold findall_category, filters_on. intros H.
  apply in_map_iff in H as (lit & <- & H).
  apply findall_category_from_sound in H as (pre & occ & post & E & Hf).
  exists pre, occ, post. split; trivial.
  unfold of_string, to_string. now rewrite list_ascii_of_string_of_list_ascii.
Qed.

(** A text that begins with a category filter matches the pattern at
    its head, with the literal of the filter as the captured group. *)
Lemma match_category_at_complete (lit occ post : text) :
  is_category_filter lit occ ->
  match_category_at (occ ++ post)%list = Some (lit, List.length occ).
Proof.
  intros (name & ws1 & ws2 & -> & Hname & H1 & H2 & Hne & Hq).
  assert (L : List.length name = 8).
  { apply (f_equal (@List.length _)) in Hname. unfold lower in Hname.
    now rewrite length_map in Hname. }
  assert (Hquote : not_quote quote = false) by reflexivity.
  set (tail := (ws1 ++ "="%char :: ws2 ++ quote :: lit ++ quote :: post)%list).
  assert (E : (category_filter name ws1 ws2 lit ++ post)%list
              = (name ++ tail)%list).
  { unfold category_filter, tail.
    repeat (rewrite <- app_assoc; simpl). reflexivity. }
  assert (F1 : firstn 8 (name ++ tail)%list = name).
  { rewrite <- L. rewrite firstn_app, Nat.sub_diag, firstn_all.
    apply app_nil_r. }
  assert (F2 : skipn 8 (name ++ tail)%list = tail).
  { rewrite <- L. apply skipn_exact. }
  unfold match_category_at.
  change (List.length (of_string "category")) with 8.
  rewrite E, F1, F2, Hname.
  change (starts_with (of_string "category") (of_string "category")) with true.
  cbv iota. unfold tail.
  rewrite (take_while_app is_space ws1), (drop_while_app is_space ws1);
    trivial.
  rewrite Ascii.eqb_refl.
  rewrite (take_while_app is_space ws2), (drop_while_app is_space ws2);
    trivial.
  rewrite Ascii.eqb_refl.
  rewrite (take_while_app not_quote lit), (drop_while_app not_quote lit);
    trivial.
  destruct lit as [|l0 l]; [now destruct Hne|].
  f_equal. f_equal. unfold category_filter.
  repeat (rewrite length_app || cbn [List.length]). lia.
Qed.

(** Once a match is taken, the scan resumes right after it. *)
Lemma findall_category_from_skip (a b : text) :
  findall_category_from (List.length a) (a ++ b)%list
  = findall_category_from 0 b.
Proof.
  induction a as [|c a IH]; [reflexivity|]. exact IH.
Qed.

(** The scan takes the leftmost filter: when the pattern matches at
    no position before a filter, the literal of that filter is the
    first one extracted, and the scan goes on behind the filter. *)
Lemma findall_category_from_leftmost (pre occ post lit : text) :
  is_category_filter lit occ ->
  (forall a b, pre = (a ++ b)%list -> b <> [] ->
               match_category_at (b ++ occ ++ post)%list = None) ->
  findall_category_from 0 (pre ++ occ ++ post)%list
  = lit :: findall_category_from 0 post.
Proof.
  intros Hf. induction pre as [|c pre IH]; intros Hnone.
  - pose proof (match_category_at_complete _ _ post Hf) as M.
    destruct Hf as (name & ws1 & ws2 & E & Hname & _).
    destruct occ as [|o occ'].
    { destruct name; [discriminate Hname | discriminate E]. }
    cbn [app] in *. cbn [findall_category_from]. rewrite M.
    replace (List.length (o :: occ') - 1) with (List.length occ')
      by (cbn [List.length]; lia).
    now rewrite findall_category_from_skip.
  - pose proof (Hnone [] (c :: pre) eq_refl ltac:(discriminate)) as M.
    cbn [app] in M. cbn [app findall_category_from]. rewrite M.
    apply IH. intros a b -> Hb. now apply (Hnone (c :: a) b).
Qed.

(** The scan misses no filter, except one that begins inside an
    earlier match of the pattern. *)
Lemma findall_category_from_complete (lit occ post : text) :
  is_category_filter lit occ ->
  forall (pre : text) (skip : nat),
    skip <= List.length pre ->
    In lit (findall_category_from skip (pre ++ occ ++ post)%list)
    \/ shadowed pre (occ ++ post)%list.
Proof.
  intros Hf. induction pre as [|c pre IH]; intros skip Hskip.
  - left. assert (skip = 0) as -> by (simpl in Hskip; lia).
    rewrite (findall_category_from_leftmost [] occ post lit Hf).
    + now left.
    + intros a b E Hb. symmetry in E. apply app_eq_nil in E as [_ ->].
      now destruct Hb.
  - assert (Hlater : forall k, k <= List.length pre ->
              In lit (findall_category_from k (pre ++ occ ++ post)%list)
              \/ shadowed (c :: pre) (occ ++ post)%list).
    { intros k Hk. destruct (IH k Hk) as [H | (a & b & l & m & -> & Hb & M & Hm)].
      - now left.
      - right. now exists (c :: a), b, l, m. }
    cbn [app findall_category_from]. destruct skip as [|k].
    + destruct (match_category_at (c :: pre ++ occ ++ post)%list)
        as [[lit' m]|] eqn:M.
      * destruct (Nat.le_gt_cases (m - 1) (List.length pre)) as [Hm | Hm].
        -- destruct (Hlater (m - 1) Hm) as [H | H]; [left; now right | now right].
        -- right. exists [], (c :: pre), lit', m.
           repeat split; trivial; [discriminate | cbn [List.length]; lia].
      * apply Hlater. lia.
    + apply Hlater. simpl in Hskip. lia.
Qed.

Lemma findall_category_complete (pre occ post : text) (cat : string) :
  is_category_filter (of_string cat) occ ->
  In cat (findall_category (pre ++ occ ++ post)%list)
  \/ shadowed pre (occ ++ post)%list.
Proof.
  intros Hf.
  destruct (findall_category_from_complete _ _ post Hf pre 0 (Nat.le_0_l _))
    as [H | H]; [left | now right].
  unfold findall_category. apply in_map_iff. exists (of_string cat).
  split; trivial. apply string_of_list_ascii_of_string.
Qed.

Lemma starts_with_select_spec (s : text) :
  starts_with (of_string "SELECT") (upper s) = true <-> begins_with_select s.
Proof.
  rewrite starts_with_iff. unfold begins_with_select. split.
  - intros [r E]. unfold upper in E.
    apply map_eq_app in E as (w & rest & E & Hw & _). now exists w, rest.
  - intros (w & rest & -> & Hw). exists (upper rest).
    unfold upper at 1. rewrite map_app. fold (upper w). now rewrite Hw.
Qed.

Lemma forbidden_keyword_message_inj (a b : string) :
  forbidden_keyword_message a = forbidden_keyword_message b -> a = b.
Proof.
  unfold forbidden_keyword_message. intros H.
  apply (f_equal of_string) in H. rewrite !of_string_app in H.
  apply app_inv_head in H. apply app_inv_tail in H.
  now apply of_string_inj.
Qed.

Lemma forbidden_keyword_message_not_select (kw : string) :
  forbidden_keyword_message kw <> "Only SELECT queries are allowed".
Proof. unfold forbidden_keyword_message. simpl. discriminate. Qed.

Lemma forbidden_keyword_message_not_category (kw cat : string) :
  forbidden_keyword_message kw <> category_message cat.
Proof.
  unfold forbidden_keyword_message, category_message. simpl. discriminate.
Qed.

(** The keyword loop raises on the first keyword of the list that the
    search finds, and returns when the search finds none. *)
Lemma check_keywords_cases (u : text) :
  (exists kw, In kw DANGEROUS_KEYWORDS
              /\ search_word (of_string kw) u = true
              /\ check_keywords u = raise (ValueError (forbidden_keyword_message kw)))
  \/ ((forall kw, In kw DANGEROUS_KEYWORDS -> search_word (of_string kw) u = false)
      /\ check_keywords u = ret tt).
Proof.
  unfold check_keywords.
  destruct (find _ DANGEROUS_KEYWORDS) as [kw|] eqn:F.
  - left. exists kw. apply find_some in F as [Hin Hs]. auto.
  - right. split; trivial. intros kw Hin. apply (find_none _ _ F kw Hin).
Qed.

(** What the last two checks can raise. *)
Lemma later_checks_messages (clean : text) (e : exn) :
  (check_select clean ;;; check_categories clean)%result = raise e ->
  e = ValueError "Only SELECT queries are allowed"
  \/ exists cat, e = ValueError (category_message cat).
Proof.
  unfold check_select, check_categories.
  destruct (negb _); simpl.
  - intros H. left. now injection H as <-.
  - destruct (find _ _) as [cat|]; simpl; intros H.
    + right. exists cat. now injection H as <-.
    + discriminate.
Qed.

(** On the texts of [Text]: the validator rejects with the
    forbidden-keyword reason exactly when the comment-stripped text
    holds one of the thirteen keywords as a whole word in some letter
    case, and the keyword named in the reason is one that the text
    holds in that way. *)
Lemma forbidden_keyword_rejected (sql : string) :
  let clean := strip_comments (of_string sql) in
  ((exists kw, _validate_sql sql
               = raise (ValueError (forbidden_keyword_message kw)))
   <-> (exists kw, In kw DANGEROUS_KEYWORDS /\ occurs_as_word kw clean))
  /\ (forall kw, _validate_sql sql
                 = raise (ValueError (forbidden_keyword_message kw)) ->
                 In kw DANGEROUS_KEYWORDS /\ occurs_as_word kw clean).
Proof.
  intros clean. unfold _validate_sql. fold clean.
  destruct (check_keywords_cases (upper clean))
    as [(k & Hin & Hs & ->) | (Hnone & ->)].
  - simpl.
    assert (Hocc : occurs_as_word k clean)
      by (apply search_word_spec; auto using dangerous_keywords_plain).
    split.
    + split; [intros _; exists k; auto | intros _; now exists k].
    + intros kw H. injection H as H.
      apply append_inv_tail in H. subst kw. auto.
  - change (ret tt ;;; check_select clean ;;; check_categories clean)%result
      with (check_select clean ;;; check_categories clean)%result.
    assert (Hno : forall kw,
               (check_select clean ;;; check_categories clean)%result
               = raise (ValueError (forbidden_keyword_message kw)) -> False).
    { intros kw H. apply later_checks_messages in H as [H | [cat H]].
      - apply (forbidden_keyword_message_not_select kw). congruence.
      - apply (forbidden_keyword_message_not_category kw cat). congruence. }
    split.
    + split.
      * intros [kw H]. destruct (Hno kw H).
      * intros (kw & Hin & Hocc).
        apply search_word_spec in Hocc; auto using dangerous_keywords_plain.
        rewrite (Hnone kw Hin) in Hocc. discriminate.
    + intros kw H. destruct (Hno kw H).
Qed.

(** The identifier CREATED_AT holds CREATE only as a part of a longer
    word, and the query passes; the stacked DROP of the specification
    is rejected and named. *)
Example created_at_accepted :
  _validate_sql "SELECT created_at, CREATED_AT FROM issue_analytics" = ret tt.
Proof. reflexivity. Qed.

Example stacked_drop_rejected :
  _validate_sql "SELECT * FROM issues; DROP TABLE issues;"
  = raise (ValueError (forbidden_keyword_message "DROP")).
Proof. reflexivity. Qed.


Lemma not_allowed_spec (cat : string) :
  not_allowed cat = true <-> ~ In cat Config.ALLOWED_CATEGORIES.
Proof.
  unfold not_allowed. rewrite negb_true_iff. split.
  - intros H Hin.
    assert (E : existsb (String.eqb cat) Config.ALLOWED_CATEGORIES = true).
    { apply existsb_exists. exists cat. split; trivial. apply String.eqb_refl. }
    rewrite H in E. discriminate.
  - intros Hn. destruct (existsb _ _) eqn:E; trivial.
    apply existsb_exists in E as (x & Hin & Hx).
    apply String.eqb_eq in Hx. subst x. now destruct Hn.
Qed.

(** The category loop raises on the first extracted literal outside
    the allow-list, and returns when there is none. *)
Lemma check_categories_cases (clean : text) :
  (exists cat, In cat (findall_category clean)
               /\ ~ In cat Config.ALLOWED_CATEGORIES
               /\ check_categories clean = raise (ValueError (category_message cat)))
  \/ ((forall cat, In cat (findall_category clean) ->
                   In cat Config.ALLOWED_CATEGORIES)
      /\ check_categories clean = ret tt).
Proof.
  unfold check_categories.
  destruct (find not_allowed (findall_category clean)) as [cat|] eqn:F.
  - left. exists cat. apply find_some in F as [Hin Hb].
    apply not_allowed_spec in Hb. auto.
  - right. split; trivial. intros cat Hin.
    pose proof (find_none _ _ F cat Hin) as Hb.
    destruct (in_dec string_dec cat Config.ALLOWED_CATEGORIES) as [|Hn]; trivial.
    apply not_allowed_spec in Hn. rewrite Hn in Hb. discriminate.
Qed.

(** On the texts of [Text], for a text that passed the keyword check
    and the SELECT check: what the category scan extracts, and when the
    category loop raises. *)
Lemma category_allow_list (sql : string) :
  let clean := strip_comments (of_string sql) in
  check_keywords (upper clean) = ret tt ->
  check_select clean = ret tt ->
  (forall cat, In cat (findall_category clean) -> filters_on clean cat)
  /\ (forall pre occ post cat,
        clean = (pre ++ occ ++ post)%list ->
        is_category_filter (of_string cat) occ ->
        In cat (findall_category clean) \/ shadowed pre (occ ++ post)%list)
  /\ ((exists e, _validate_sql sql = raise e)
      <-> (exists cat, In cat (findall_category clean)
                       /\ ~ In cat Config.ALLOWED_CATEGORIES))
  /\ (forall e, _validate_sql sql = raise e ->
                exists cat, e = ValueError (category_message cat)
                            /\ In cat (findall_category clean)
                            /\ ~ In cat Config.ALLOWED_CATEGORIES)
  /\ ((forall cat, In cat (findall_category clean) ->
                   In cat Config.ALLOWED_CATEGORIES) ->
      _validate_sql sql = ret tt).
Proof.
  intros clean Hk Hs. unfold _validate_sql. fold clean.
  rewrite Hk, Hs. cbn [bind ret].
  split; [intros cat; apply findall_category_sound|].
  split; [intros pre occ post cat ->; apply findall_category_complete|].
  destruct (check_categories_cases clean)
    as [(cat & Hin & Hn & ->) | (Hall & ->)].
  - split; [|split].
    + split; [intros _; now exists cat | intros _; now eexists].
    + intros e H. injection H as <-. now exists cat.
    + intros Hall. destruct (Hn (Hall cat Hin)).
  - split; [|split].
    + split; [intros [e H]; discriminate|].
      intros (cat & Hin & Hn). destruct (Hn (Hall cat Hin)).
    + intros e H. discriminate.
    + reflexivity.
Qed.

Example allowed_category_accepted :
  _validate_sql "SELECT * FROM issue_analytics WHERE Category = 'WaterLogging'"
  = ret tt.
Proof. reflexivity. Qed.

End ValidatorFacts.

(* ===================================================================== *)
(** * The query gateway                                                   *)
(* ===================================================================== *)

Module GatewayFacts.
Import Text QueryExecutor.

(** C8.  [execute_query] validates before anything else: on a text
    the validator rejects it raises the validator's error and hands
    nothing to the remote procedure, whatever the client; hence a
    query reaches the remote procedure only if the text passed the
    validator. *)
Theorem execute_query_validates_first (self : SupabaseClient) (sql : string) :
  (forall e, _validate_sql sql = raise e ->
             execute_query self sql = (raise e, []))
  /\ (snd (execute_query self sql) <> [] -> _validate_sql sql = ret tt).
Proof.
  unfold execute_query. split.
  - intros e ->. reflexivity.
  - destruct (_validate_sql sql) as [e|[]]; simpl; [now intros H|reflexivity].
Qed.

Lemma execute_query_validates_first_witness :
  execute_query {| client := Some Sample.empty_remote |}
                "SELECT * FROM issues; DROP TABLE issues;"
  = (raise (ValueError (forbidden_keyword_message "DROP")), []).
Proof.
  apply (proj1 (execute_query_validates_first _ _)). reflexivity.
Defined.

(** A text that passes is sent once, trimmed and without its closing
    semicolons. *)
Example valid_query_sent :
  execute_query {| client := Some Sample.empty_remote |}
                "  SELECT id FROM issue_analytics;; "
  = (ret [], [of_string "SELECT id FROM issue_analytics"]).
Proof. reflexivity. Qed.

End GatewayFacts.

(* ===================================================================== *)
(** * The analytics engine                                                *)
(* ===================================================================== *)

Module AnalyticsFacts.
Import Text Pandas Analytics Properties.

Lemma append_empty (s : string) : s ++ EmptyString = s.
Proof. induction s; simpl; [reflexivity | now f_equal]. Qed.

Lemma join_spaces_head (x : string) (l : list string) :
  exists rest, join_spaces (x :: l) = x ++ rest.
Proof.
  unfold join_spaces. destruct l as [|y l].
  - exists EmptyString. simpl. now rewrite append_empty.
  - now exists (" " ++ String.concat " " (y :: l)).
Qed.

Lemma found_sentence_spec (n : nat) : found_sentence n = row_count_sentence n.
Proof.
  unfold found_sentence, row_count_sentence.
  destruct (n =? 1)%nat eqn:E; simpl.
  - apply Nat.eqb_eq in E. now subst n.
  - reflexivity.
Qed.

(** C7.  On no row the engine answers with the chart type none, no
    chart and a message in place of the statistics. *)
Theorem empty_result_set (lib : Library) (question : string) :
  generate_analytics lib [] question
  = {| chart_type := "none";
       plotly_config := None;
       data_summary_of := SummaryMessage "No data returned" |}.
Proof. reflexivity. Qed.

(** C10.  The summary counts the rows it was given. *)
Theorem total_rows_is_row_count (lib : Library) (data : list row) :
  total_rows (_generate_summary lib (DataFrame_of data)) = List.length data.
Proof. reflexivity. Qed.

(** C9.  On no row the synopsis is the fixed sentence; on [N] rows it
    begins with the sentence that counts them, in the singular for
    one row and in the plural otherwise. *)
Theorem text_summary_row_count (lib : Library) (data : list row)
  (question : string) :
  (data = [] ->
   generate_text_summary lib data question
   = "No results found for your question.")
  /\ (data <> [] ->
      exists rest,
        generate_text_summary lib data question
        = row_count_sentence (List.length data) ++ rest).
Proof.
  split.
  - intros ->. reflexivity.
  - intros Hne. destruct data as [|r rs]; [now destruct Hne|].
    unfold generate_text_summary.
    cbv zeta. rewrite <- app_assoc. cbn [app].
    rewrite <- found_sentence_spec.
    apply join_spaces_head.
Qed.

Lemma text_summary_row_count_witness :
  exists rest,
    generate_text_summary Sample.library Sample.complaints "How many?"
    = "Found 2 results." ++ rest.
Proof.
  apply (proj2 (text_summary_row_count Sample.library Sample.complaints
                  "How many?")).
  discriminate.
Defined.

Example one_result :
  generate_text_summary Sample.library
    [ [("status", VStr "open"); ("n", VInt 1250)] ] "How many are open?"
  = "Found 1 result. N: Total=1,250.00, Average=1,250.00 Most common status: open".
Proof. reflexivity. Qed.

(** One turn of the reclassification loop, when the date parser does
    not raise: the column moves to the temporal list as soon as one of
    its first five entries is not null; what the parser made of the
    entries plays no part. *)
Lemma reclassify_step_spec (lib : Library) (df : DataFrame) (col : string)
  (s : Series) (parsed : list (option Z)) (date_cols cat_cols : list string) :
  getitem df col = Some s ->
  to_datetime lib (head 5 s) = Some parsed ->
  reclassify_step lib df (date_cols, cat_cols) col
  = if (0 <? notna_sum (head 5 s))%nat
    then ((date_cols ++ [col])%list, list_remove col cat_cols)
    else (date_cols, cat_cols).
Proof. intros G T. unfold reclassify_step. now rewrite G, T. Qed.

(** The temporal list after the loop: the columns it had, then every
    visited column that [moves]. *)
Lemma reclassified_columns (lib : Library) (df : DataFrame) :
  forall (cols date_cols cat_cols : list string),
    fst (fold_left (reclassify_step lib df) cols (date_cols, cat_cols))
    = (date_cols ++ filter (moves lib df) cols)%list.
Proof.
  induction cols as [|col cols IH]; intros date_cols cat_cols.
  - simpl. now rewrite app_nil_r.
  - cbn [fold_left filter]. unfold reclassify_step at 2, moves.
    destruct (getitem df col) as [s|]; [|apply IH].
    destruct (to_datetime lib (head 5 s)); [|apply IH].
    destruct (0 <? notna_sum (head 5 s))%nat; [|apply IH].
    rewrite IH, <- app_assoc. reflexivity.
Qed.

(** C1, on the rows of the breakdown scenario.  Neither "potholes"
    nor "roads" parses as a date, and yet the column that holds them
    leaves the categorical list for the temporal one. *)
Theorem category_names_reclassified_temporal (lib : Library) :
  to_datetime lib (head 5 (series_of (DataFrame_of Sample.complaints) "category"))
  = Some [None; None] ->
  classify_columns lib (DataFrame_of Sample.complaints)
  = (["count"], [], ["category"]).
Proof.
  intros H. unfold classify_columns.
  change (select_dtypes object_or_category (DataFrame_of Sample.complaints))
    with ["category"].
  change (select_dtypes datetime (DataFrame_of Sample.complaints))
    with (@nil string).
  change (select_dtypes number (DataFrame_of Sample.complaints))
    with ["count"].
  cbn [fold_left].
  rewrite (reclassify_step_spec lib (DataFrame_of Sample.complaints) "category"
             (series_of (DataFrame_of Sample.complaints) "category")
             _ [] ["category"] eq_refl H).
  reflexivity.
Qed.

Lemma category_names_reclassified_temporal_witness :
  to_datetime Sample.library
    (head 5 (series_of (DataFrame_of Sample.complaints) "category"))
  = Some [None; None]
  /\ classify_columns Sample.library (DataFrame_of Sample.complaints)
     = (["count"], [], ["category"]).
Proof.
  split; [reflexivity|].
  apply (category_names_reclassified_temporal Sample.library). reflexivity.
Defined.

(** C2, the breakdown scenario.  Whenever the date parser returns on
    the two category names, the inference answers with a line chart
    over the category column, and not with a pie chart. *)
Theorem breakdown_scenario_detects_line (lib : Library) :
  to_datetime lib (head 5 (series_of (DataFrame_of Sample.complaints) "category"))
  <> None ->
  _detect_chart_type lib (DataFrame_of Sample.complaints)
                     "Show breakdown of complaints"
  = ("line", Some "category", Some "count").
Proof.
  intros H. destruct (to_datetime lib _) as [parsed|] eqn:E; [|now destruct H].
  unfold _detect_chart_type, classify_columns.
  change (select_dtypes object_or_category (DataFrame_of Sample.complaints))
    with ["category"].
  change (select_dtypes datetime (DataFrame_of Sample.complaints))
    with (@nil string).
  change (select_dtypes number (DataFrame_of Sample.complaints))
    with ["count"].
  cbn [fold_left].
  rewrite (reclassify_step_spec lib (DataFrame_of Sample.complaints) "category"
             (series_of (DataFrame_of Sample.complaints) "category")
             _ [] ["category"] eq_refl E).
  reflexivity.
Qed.

Lemma breakdown_scenario_detects_line_witness :
  to_datetime Sample.library
    (head 5 (series_of (DataFrame_of Sample.complaints) "category"))
  <> None
  /\ _detect_chart_type Sample.library (DataFrame_of Sample.complaints)
                        "Show breakdown of complaints"
     = ("line", Some "category", Some "count").
Proof.
  assert (H : to_datetime Sample.library
                (head 5 (series_of (DataFrame_of Sample.complaints) "category"))
              <> None) by discriminate.
  split; [exact H|].
  exact (breakdown_scenario_detects_line Sample.library H).
Defined.

(** The pie chart of the scenario is what the inference gives when the
    column stays categorical, as it does when the date parser raises. *)
Example breakdown_scenario_when_parser_raises :
  _detect_chart_type (Sample.with_to_datetime (fun _ => None) Sample.library)
                     (DataFrame_of Sample.complaints)
                     "Show breakdown of complaints"
  = ("pie", Some "category", Some "count").
Proof. reflexivity. Qed.

(** The dated scenario gives a line chart. *)
Example monthly_scenario :
  _detect_chart_type Sample.library (DataFrame_of Sample.monthly_totals) "Totals per month"
  = ("line", Some "created_at", Some "total").
Proof. reflexivity. Qed.

(** The inference answers with a table and no column, or with one of
    the four charts and two columns. *)
Lemma detect_shape (lib : Library) (df : DataFrame) (question : string) :
  let '(ct, x, y) := _detect_chart_type lib df question in
  (ct = "table" /\ x = None /\ y = None)
  \/ (In ct ["line"; "bar"; "pie"; "scatter"]
      /\ exists xs ys, x = Some xs /\ y = Some ys).
Proof.
  unfold _detect_chart_type.
  destruct (classify_columns lib df) as [[num cat] date].
  destruct date as [|d date], num as [|n1 [|n2 num]], cat as [|c cat];
    repeat match goal with |- context [if ?b then _ else _] => destruct b end;
    simpl; eauto 10.
Qed.

(** For one of the four charts and two columns, the builder gives a
    chart exactly when the name of the x column is not empty and the
    plotly call does not raise. *)
Lemma plotly_config_presence (lib : Library) (df : DataFrame)
  (ct xs ys question : string) :
  In ct ["line"; "bar"; "pie"; "scatter"] ->
  _generate_plotly_config lib df ct (Some xs) (Some ys) question <> None
  <-> xs <> EmptyString /\ px_raises lib ct (limit_rows df) xs (Some ys) = false.
Proof.
  intros Hct. unfold _generate_plotly_config, falsy, px_labelled.
  destruct (String.eqb_spec xs EmptyString) as [->|Hx].
  - rewrite orb_true_r.
    split; [intros H; now destruct H | intros [H _]; now destruct H].
  - rewrite orb_false_r.
    simpl in Hct. destruct Hct as [<- | [<- | [<- | [<- | []]]]]; simpl;
      destruct (px_raises lib _ (limit_rows df) xs (Some ys));
      (split; [intros H; split; [exact Hx | reflexivity || now destruct H]
              | intros [_ H]; discriminate]).
Qed.

(** C6 as stated fails: a result set of one row whose first column
    has the empty name gets the chart type line and no chart, though
    the plotly calls of the library at hand never raise. *)
Lemma chart_spec_invariant_fails :
  ~ chart_spec_invariant Sample.unnamed_column
      (generate_analytics Sample.library Sample.unnamed_column "How many complaints?").
Proof.
  intros [_ H].
  assert (C : plotly_config (generate_analytics Sample.library Sample.unnamed_column
                               "How many complaints?") <> None).
  { apply H. split; [|discriminate].
    unfold chartable. simpl. intuition discriminate. }
  apply C. reflexivity.
Qed.

(** It fails as well whenever the plotly call raises: the chart type
    is kept and the chart is dropped. *)
Example failed_chart_keeps_type :
  let a := generate_analytics (Sample.with_px_raises (fun _ _ _ _ => true) Sample.library)
                              Sample.monthly_totals "Totals per month" in
  chart_type a = "line" /\ plotly_config a = None.
Proof. split; reflexivity. Qed.

(** C6, amended.  A chart is present only for a chart type other than
    table, none and error and a result set that is not empty.  For
    such a chart type and result set, the chart is present exactly
    when the x column chosen by the inference has a name that is not
    empty and the plotly call does not raise. *)
Theorem chart_config_presence (lib : Library) (data : list row)
  (question : string) :
  let a := generate_analytics lib data question in
  (plotly_config a <> None -> chartable (chart_type a) /\ data <> [])
  /\ (data <> [] -> chartable (chart_type a) ->
      exists x y,
        _detect_chart_type lib (DataFrame_of data) question
        = (chart_type a, Some x, Some y)
        /\ (plotly_config a <> None
            <-> x <> EmptyString
                /\ px_raises lib (chart_type a) (limit_rows (DataFrame_of data))
                             x (Some y) = false)).
Proof.
  destruct data as [|r rs].
  - simpl. split; [intros H; now destruct H | intros H; now destruct H].
  - unfold generate_analytics, analyse. cbn [bind ret].
    pose proof (detect_shape lib (DataFrame_of (r :: rs)) question) as S.
    destruct (_detect_chart_type lib (DataFrame_of (r :: rs)) question)
      as [[ct x] y].
    cbn [chart_type plotly_config].
    destruct S as [(-> & -> & ->) | (Hct & xs & ys & -> & ->)].
    + split.
      * intros H. now destruct H.
      * intros _ H. destruct H. simpl. auto.
    + split.
      * intros _. split; [|discriminate].
        unfold chartable. simpl in *. intuition (subst; discriminate).
      * intros _ _. exists xs, ys. split; [reflexivity|].
        now apply plotly_config_presence.
Qed.

Lemma chart_config_presence_witness :
  let a := generate_analytics Sample.library Sample.monthly_totals "Totals per month" in
  exists x y,
    _detect_chart_type Sample.library (DataFrame_of Sample.monthly_totals) "Totals per month"
    = (chart_type a, Some x, Some y)
    /\ (plotly_config a <> None
        <-> x <> EmptyString
            /\ px_raises Sample.library (chart_type a)
                         (limit_rows (DataFrame_of Sample.monthly_totals))
                         x (Some y) = false).
Proof.
  apply (proj2 (chart_config_presence Sample.library Sample.monthly_totals
                  "Totals per month")).
  - discriminate.
  - unfold chartable. simpl. intuition discriminate.
Defined.

End AnalyticsFacts.

(* ===================================================================== *)
(** * More on the validator and the gateway                               *)
(* ===================================================================== *)

Module ValidatorMore.
Import Text QueryExecutor Properties MoreProperties TextFacts ValidatorFacts.

(** The first element that passes a test comes after elements that all
    fail it. *)
Lemma find_first {A : Type} (f : A -> bool) (l : list A) (x : A) :
  List.find f l = Some x ->
  exists before after,
    l = (before ++ x :: after)%list
    /\ f x = true
    /\ forall y, In y before -> f y = false.
Proof.
  induction l as [|a l IH]; simpl; [discriminate|].
  destruct (f a) eqn:E.
  - intros H. injection H as ->. exists [], l. repeat split; trivial.
    intros y [].
  - intros H. destruct (IH H) as (before & after & -> & Hx & Hb).
    exists (a :: before), after. repeat split; trivial.
    intros y [<- | Hy]; auto.
Qed.

(** On the texts of [Text]: the validator accepts a text exactly when
    its comment-stripped form holds no forbidden keyword as a whole
    word, begins with SELECT once trimmed, and filters on allowed
    categories only. *)
Lemma validate_accepts_iff (sql : string) :
  let clean := strip_comments (of_string sql) in
  _validate_sql sql = ret tt
  <-> (forall kw, In kw DANGEROUS_KEYWORDS -> ~ occurs_as_word kw clean)
      /\ begins_with_select (strip clean)
      /\ (forall cat, In cat (findall_category clean) ->
                      In cat Config.ALLOWED_CATEGORIES).
Proof.
  intros clean. unfold _validate_sql. fold clean.
  destruct (check_keywords_cases (upper clean))
    as [(k & Hin & Hs & ->) | (Hnone & ->)].
  - simpl. split; [discriminate|]. intros (Hno & _).
    destruct (Hno k Hin).
    apply search_word_spec; auto using dangerous_keywords_plain.
  - change (ret tt ;;; check_select clean ;;; check_categories clean)%result
      with (check_select clean ;;; check_categories clean)%result.
    assert (Hkw : forall kw, In kw DANGEROUS_KEYWORDS -> ~ occurs_as_word kw clean).
    { intros kw Hin Hocc.
      apply search_word_spec in Hocc; auto using dangerous_keywords_plain.
      rewrite (Hnone kw Hin) in Hocc. discriminate. }
    unfold check_select.
    destruct (starts_with (of_string "SELECT") (upper (strip clean))) eqn:E; simpl.
    + apply starts_with_select_spec in E.
      destruct (check_categories_cases clean)
        as [(cat & Hc & Hn & ->) | (Hall & ->)].
      * split; [discriminate|]. intros (_ & _ & Hall). destruct (Hn (Hall cat Hc)).
      * split; auto.
    + split; [discriminate|]. intros (_ & Hb & _).
      apply starts_with_select_spec in Hb. rewrite Hb in E. discriminate.
Qed.

(** On the texts of [Text]: no keyword listed before the one that the
    reason names stands in the text as a whole word. *)
Lemma first_listed_keyword_named (sql kw : string) :
  _validate_sql sql = raise (ValueError (forbidden_keyword_message kw)) ->
  exists before after,
    DANGEROUS_KEYWORDS = (before ++ kw :: after)%list
    /\ forall k, In k before ->
                 ~ occurs_as_word k (strip_comments (of_string sql)).
Proof.
  set (clean := strip_comments (of_string sql)).
  unfold _validate_sql. fold clean. unfold check_keywords.
  destruct (List.find _ DANGEROUS_KEYWORDS) as [k|] eqn:F.
  - simpl. intros H. injection H as H. apply append_inv_tail in H. subst k.
    apply find_first in F as (before & after & E & _ & Hb).
    exists before, after. split; trivial.
    intros k Hk Hocc.
    assert (Hin : In k DANGEROUS_KEYWORDS)
      by (rewrite E; apply in_or_app; now left).
    apply search_word_spec in Hocc; auto using dangerous_keywords_plain.
    rewrite (Hb k Hk) in Hocc. discriminate.
  - change (ret tt ;;; check_select clean ;;; check_categories clean)%result
      with (check_select clean ;;; check_categories clean)%result.
    intros H. apply later_checks_messages in H as [H | [cat H]]; exfalso.
    + apply (forbidden_keyword_message_not_select kw). congruence.
    + apply (forbidden_keyword_message_not_category kw cat). congruence.
Qed.

Lemma sub_line_comments_inside (t rest : text) :
  newline_free t = true ->
  sub_line_comments true (t ++ rest)%list = sub_line_comments true rest.
Proof.
  induction t as [|c t IH]; intros H; [reflexivity|].
  simpl in H. apply andb_true_iff in H as [Hc Ht].
  apply negb_true_iff in Hc. cbn [app sub_line_comments].
  rewrite Hc. auto.
Qed.

Lemma sub_line_comments_dashes (b : bool) (rest : text) :
  sub_line_comments b ("-"%char :: "-"%char :: rest)
  = sub_line_comments true rest.
Proof. destruct b; reflexivity. Qed.

(** What stands between two dashes and the end of the line plays no
    part in the first substitution. *)
Lemma sub_line_comments_blind (a t rest : text) :
  newline_free t = true ->
  forall b,
    sub_line_comments b (a ++ "-"%char :: "-"%char :: t ++ rest)%list
    = sub_line_comments b (a ++ "-"%char :: "-"%char :: rest)%list.
Proof.
  intros Ht. induction a as [|c a IH]; intros b.
  - cbn [app]. rewrite !sub_line_comments_dashes.
    now apply sub_line_comments_inside.
  - cbn [app sub_line_comments]. destruct b.
    + destruct (Ascii.eqb c newline); now rewrite IH.
    + destruct a as [|d a].
      * cbn [app]. cbn [app] in IH.
        destruct (Ascii.eqb c "-" && Ascii.eqb "-" "-"); now rewrite IH.
      * cbn [app]. cbn [app] in IH.
        destruct (Ascii.eqb c "-" && Ascii.eqb d "-"); now rewrite IH.
Qed.

(** X3.  The validator is blind to what stands between two dashes and
    the end of the line: the verdict on a text is the verdict on the
    text without it. *)
Theorem validate_blind_after_dashes (a t rest : string) :
  newline_free (of_string t) = true ->
  _validate_sql (a ++ "--" ++ t ++ rest) = _validate_sql (a ++ "--" ++ rest).
Proof.
  intros Ht. unfold _validate_sql, strip_comments.
  rewrite !of_string_app.
  change (of_string "--") with ["-"%char; "-"%char]. cbn [app].
  now rewrite (sub_line_comments_blind _ _ _ Ht).
Qed.

Lemma validate_blind_after_dashes_witness :
  newline_free (of_string "'; DROP TABLE issue_analytics") = true
  /\ _validate_sql ("SELECT id FROM issue_analytics WHERE title = '" ++ "--"
                      ++ "'; DROP TABLE issue_analytics" ++ EmptyString)
     = ret tt.
Proof.
  split; [reflexivity|].
  rewrite (validate_blind_after_dashes
             "SELECT id FROM issue_analytics WHERE title = '"
             "'; DROP TABLE issue_analytics" EmptyString eq_refl).
  reflexivity.
Defined.

Lemma drop_while_repeat (x : ascii) (s : text) :
  exists n, s = (repeat x n ++ drop_while (Ascii.eqb x) s)%list.
Proof.
  induction s as [|c s [n IH]]; [now exists 0|].
  cbn [drop_while]. destruct (Ascii.eqb_spec x c) as [<-|Hc].
  - exists (S n). cbn [repeat app]. now f_equal.
  - now exists 0.
Qed.

Lemma rev_repeat (x : ascii) (n : nat) : rev (repeat x n) = repeat x n.
Proof.
  induction n as [|n IH]; [reflexivity|].
  cbn [repeat rev]. rewrite IH. symmetry. apply (repeat_cons n x).
Qed.

(** [s.rstrip(x)] takes a run of [x] off the end of [s], and leaves no
    [x] at the end. *)
Lemma rstrip_char_spec (x : ascii) (s : text) :
  (exists n, s = (rstrip_char x s ++ repeat x n)%list)
  /\ hd_error (rev (rstrip_char x s)) <> Some x.
Proof.
  unfold rstrip_char. split.
  - destruct (drop_while_repeat x (rev s)) as [n E].
    exists n. apply (f_equal (@rev _)) in E.
    now rewrite rev_involutive, rev_app_distr, rev_repeat in E.
  - rewrite rev_involutive.
    destruct (drop_while (Ascii.eqb x) (rev s)) as [|c r] eqn:D; [discriminate|].
    apply drop_while_head in D. intros H. injection H as ->.
    now rewrite Ascii.eqb_refl in D.
Qed.

(** X4.  A call hands at most one query to the remote procedure, and
    hands one exactly when the text passes the validator and the client
    is initialised.  The query sent is the trimmed text without its
    closing semicolons: it ends in no semicolon, and the trimmed text is
    the query followed by semicolons only. *)
Theorem execute_query_sends (self : SupabaseClient) (sql : string) :
  let sent := rstrip_char ";" (strip (of_string sql)) in
  (snd (execute_query self sql) = [sent]
   <-> _validate_sql sql = ret tt /\ is_initialized self = true)
  /\ (snd (execute_query self sql) = [sent] \/ snd (execute_query self sql) = [])
  /\ hd_error (rev sent) <> Some ";"%char
  /\ exists n, strip (of_string sql) = (sent ++ repeat ";"%char n)%list.
Proof.
  intros sent.
  destruct (rstrip_char_spec ";" (strip (of_string sql))) as [Hn Hl].
  fold sent in Hn, Hl.
  unfold execute_query, is_initialized. fold sent.
  destruct (_validate_sql sql) as [e|[]]; simpl.
  - repeat split; auto; try discriminate. intros [H _]. discriminate.
  - destruct (client self) as [rpc|]; simpl.
    + repeat split; auto.
    + repeat split; auto; try discriminate. intros [_ H]. discriminate.
Qed.

Lemma execute_query_sends_witness :
  snd (execute_query {| client := Some Sample.empty_remote |}
                     " SELECT id FROM issue_analytics; ")
  = [rstrip_char ";" (strip (of_string " SELECT id FROM issue_analytics; "))].
Proof.
  apply (proj2 (proj1 (execute_query_sends
                         {| client := Some Sample.empty_remote |}
                         " SELECT id FROM issue_analytics; "))).
  split; reflexivity.
Defined.

End ValidatorMore.

(* ===================================================================== *)
(** * The output parser                                                   *)
(* ===================================================================== *)

Module ParserFacts.
Import Text QueryExecutor ModelService Properties MoreProperties TextFacts.
Import ValidatorFacts.

Lemma is_word_not_space (c : ascii) : is_word c = true -> is_space c = false.
Proof. destruct c as [[|] [|] [|] [|] [|] [|] [|] [|]]; (reflexivity || discriminate). Qed.

Lemma is_word_not_dash (c : ascii) : is_word c = true -> Ascii.eqb c "-" = false.
Proof. destruct c as [[|] [|] [|] [|] [|] [|] [|] [|]]; (reflexivity || discriminate). Qed.

Lemma is_word_not_slash (c : ascii) : is_word c = true -> Ascii.eqb c "/" = false.
Proof. destruct c as [[|] [|] [|] [|] [|] [|] [|] [|]]; (reflexivity || discriminate). Qed.

(** A stretch that reads SELECT in upper case is made of word
    characters. *)
Lemma select_is_word (w : text) :
  upper w = of_string "SELECT" -> forallb is_word w = true.
Proof.
  intros H.
  assert (E : forallb is_word (upper w) = forallb is_word w).
  { clear H. induction w as [|c w IH]; [reflexivity|].
    cbn [upper map forallb]. fold (upper w). now rewrite is_word_upper_char, IH. }
  rewrite <- E, H. reflexivity.
Qed.

Lemma drop_while_before (p : ascii -> bool) (a : text) (c : ascii) (b : text) :
  p c = false ->
  drop_while p (a ++ c :: b)%list = (drop_while p a ++ c :: b)%list.
Proof.
  intros Hc. induction a as [|x a IH]; cbn [app drop_while].
  - now rewrite Hc.
  - destruct (p x); [exact IH | reflexivity].
Qed.

(** Trimming the right end leaves a beginning that ends in no blank. *)
Lemma rstrip_app (w rest : text) (c : ascii) (b : text) :
  rev w = c :: b -> is_space c = false ->
  rstrip (w ++ rest)%list = (w ++ rstrip rest)%list.
Proof.
  intros Hw Hc. unfold rstrip.
  rewrite rev_app_distr, Hw, (drop_while_before _ _ _ _ Hc), rev_app_distr.
  now rewrite <- Hw, rev_involutive.
Qed.

Lemma rstrip_prefix (s : text) : exists ws, s = (rstrip s ++ ws)%list.
Proof.
  unfold rstrip. exists (rev (take_while is_space (rev s))).
  rewrite <- rev_app_distr, take_drop_while. symmetry. apply rev_involutive.
Qed.

Lemma lstrip_suffix (s : text) : exists ws, s = (ws ++ lstrip s)%list.
Proof.
  exists (take_while is_space s). symmetry. apply take_drop_while.
Qed.

Lemma drop_while_idem (p : ascii -> bool) (s : text) :
  drop_while p (drop_while p s) = drop_while p s.
Proof.
  induction s as [|c s IH]; [reflexivity|].
  cbn [drop_while]. destruct (p c) eqn:E; [exact IH|].
  cbn [drop_while]. now rewrite E.
Qed.

(** Trimming twice is trimming once. *)
Lemma strip_idem (s : text) : strip (strip s) = strip s.
Proof.
  unfold strip.
  assert (L : lstrip (rstrip (lstrip s)) = rstrip (lstrip s)).
  { destruct (rstrip_prefix (lstrip s)) as [ws E].
    destruct (rstrip (lstrip s)) as [|c r] eqn:R; [reflexivity|].
    unfold lstrip at 1. cbn [drop_while].
    assert (Hc : is_space c = false).
    { unfold lstrip in E. cbn [app] in E. now apply drop_while_head in E. }
    now rewrite Hc. }
  rewrite L. unfold rstrip. now rewrite rev_involutive, drop_while_idem.
Qed.

(** A text that begins with word characters keeps them when trimmed. *)
Lemma strip_keeps_word_prefix (w rest : text) :
  w <> [] -> forallb is_word w = true ->
  strip (w ++ rest)%list = (w ++ rstrip rest)%list.
Proof.
  intros Hne Hw. rewrite forallb_forall in Hw. unfold strip.
  assert (L : lstrip (w ++ rest)%list = (w ++ rest)%list).
  { destruct w as [|c w]; [now destruct Hne|].
    unfold lstrip. cbn [app drop_while].
    now rewrite (is_word_not_space c (Hw c (or_introl eq_refl))). }
  rewrite L.
  destruct (rev w) as [|c b] eqn:R.
  - apply (f_equal (@rev _)) in R. rewrite rev_involutive in R. now destruct Hne.
  - apply (rstrip_app _ _ _ _ R). apply is_word_not_space, Hw.
    apply in_rev. rewrite R. now left.
Qed.

Lemma contains_app_r (p a b : text) :
  contains p b = true -> contains p (a ++ b)%list = true.
Proof.
  intros H. induction a as [|c a IH]; [exact H|].
  cbn [app contains]. rewrite IH. apply orb_true_r.
Qed.

Lemma starts_with_app_l (p a b : text) :
  starts_with p a = true -> starts_with p (a ++ b)%list = true.
Proof.
  intros H. destruct (starts_with_split _ _ H) as [r ->].
  rewrite <- app_assoc. apply starts_with_app.
Qed.

Lemma contains_app_l (p a b : text) :
  contains p a = true -> contains p (a ++ b)%list = true.
Proof.
  induction a as [|c a IH]; cbn [app contains]; intros H.
  - rewrite orb_false_r in H.
    destruct p; [destruct b; reflexivity | discriminate].
  - apply orb_true_iff in H as [H | H].
    + pose proof (starts_with_app_l _ (c :: a) b H) as E.
      cbn [app] in E. now rewrite E.
    + rewrite (IH H). apply orb_true_r.
Qed.

Lemma starts_with_self (p : text) : starts_with p p = true.
Proof. induction p as [|c p IH]; simpl; [reflexivity|]. now rewrite Ascii.eqb_refl. Qed.

Lemma contains_self (x : text) : contains x x = true.
Proof. destruct x; cbn [contains]; now rewrite starts_with_self. Qed.

(** A text cut out of another one brings nothing that the other does
    not hold. *)
Lemma contains_inside (p a x b : text) :
  contains p x = true -> contains p (a ++ x ++ b)%list = true.
Proof. intros H. now apply contains_app_r, contains_app_l. Qed.

Lemma strip_inside (s : text) : exists a b, s = (a ++ strip s ++ b)%list.
Proof.
  unfold strip. destruct (lstrip_suffix s) as [a Ha].
  destruct (rstrip_prefix (lstrip s)) as [b Hb].
  exists a, b. now rewrite <- Hb.
Qed.

Lemma slice_from_inside (i : Z) (s : text) :
  exists a, s = (a ++ slice_from i s)%list.
Proof.
  unfold slice_from. destruct (0 <=? i)%Z; eexists; symmetry; apply firstn_skipn.
Qed.

Lemma contains_strip (p s : text) :
  contains p (strip s) = true -> contains p s = true.
Proof.
  intros H. destruct (strip_inside s) as (a & b & E). rewrite E.
  now apply contains_inside.
Qed.

Lemma contains_slice_from (p : text) (i : Z) (s : text) :
  contains p (slice_from i s) = true -> contains p s = true.
Proof.
  intros H. destruct (slice_from_inside i s) as (a & E). rewrite E.
  now apply contains_app_r.
Qed.

Lemma upper_skipn (n : nat) (s : text) : upper (skipn n s) = skipn n (upper s).
Proof. unfold upper. symmetry. apply skipn_map. Qed.

(** [find] gives the place of an occurrence whenever there is one. *)
Lemma find_from_spec (sub s : text) :
  contains sub s = true ->
  exists i, find_from sub s = Some i
            /\ starts_with sub (skipn i s) = true.
Proof.
  induction s as [|c s IH]; cbn [contains find_from]; intros H.
  - rewrite orb_false_r in H. rewrite H. now exists 0.
  - destruct (starts_with sub (c :: s)) eqn:E.
    + now exists 0.
    + cbn [orb] in H. destruct (IH H) as (i & -> & Hi). now exists (S i).
Qed.

Lemma parse_text_selected (t : text) : parse_text t = strip (selected t).
Proof. reflexivity. Qed.

Lemma selected_cases (t : text) :
  let t' := strip (remove fence (remove sql_fence t)) in
  (contains (of_string "SELECT") (upper t') = true
   /\ starts_with (of_string "SELECT") (upper (selected t)) = true
   /\ exists i, selected t = skipn i t')
  \/ (contains (of_string "SELECT") (upper t') = false /\ selected t = t').
Proof.
  intros t'. unfold selected. fold t'.
  destruct (contains (of_string "SELECT") (upper t')) eqn:C; [left | now right].
  split; trivial.
  destruct (find_from_spec _ _ C) as (i & F & Hi).
  unfold find. rewrite F. unfold slice_from.
  assert (Z : (0 <=? Z.of_nat i)%Z = true) by (apply Z.leb_le; lia).
  rewrite Z, Nat2Z.id, upper_skipn. split; [exact Hi | now exists i].
Qed.

Lemma of_string_parse (t : string) : of_string (parse t) = parse_text (of_string t).
Proof. unfold parse, of_string, to_string. apply list_ascii_of_string_of_list_ascii. Qed.

Lemma parse_text_trimmed (t : text) : strip (parse_text t) = parse_text t.
Proof. rewrite parse_text_selected. apply strip_idem. Qed.

(** X5.  The output of the parser holds no blank at either end. *)
Theorem parse_trimmed (t : string) : trimmed (of_string (parse t)).
Proof. unfold trimmed. rewrite of_string_parse. apply parse_text_trimmed. Qed.

Lemma begins_with_select_strip (s : text) :
  starts_with (of_string "SELECT") (upper s) = true ->
  begins_with_select (strip s).
Proof.
  intros H. apply starts_with_select_spec in H as (w & rest & -> & Hw).
  assert (Hne : w <> []) by (intros ->; discriminate Hw).
  rewrite (strip_keeps_word_prefix w rest Hne (select_is_word w Hw)).
  now exists w, (rstrip rest).
Qed.

Lemma parse_text_select (t : text) :
  begins_with_select (parse_text t)
  \/ contains (of_string "SELECT") (upper (parse_text t)) = false.
Proof.
  rewrite parse_text_selected.
  destruct (selected_cases t) as [(_ & H & _) | (C & E)].
  - left. now apply begins_with_select_strip.
  - right. rewrite E, strip_idem. exact C.
Qed.

Lemma sub_line_comments_word_prefix (w rest : text) :
  forallb is_word w = true ->
  sub_line_comments false (w ++ rest)%list
  = (w ++ sub_line_comments false rest)%list.
Proof.
  induction w as [|c w IH]; intros H; [reflexivity|].
  cbn [forallb] in H. apply andb_true_iff in H as [Hc Hw].
  cbn [app sub_line_comments]. rewrite (is_word_not_dash c Hc). cbn [andb].
  rewrite (IH Hw). destruct (w ++ rest)%list eqn:E; [|reflexivity].
  apply app_eq_nil in E as [-> ->]. reflexivity.
Qed.

Lemma sub_block_comments_word_prefix (w rest : text) :
  forallb is_word w = true ->
  sub_block_comments 0 (w ++ rest)%list
  = (w ++ sub_block_comments 0 rest)%list.
Proof.
  induction w as [|c w IH]; intros H; [reflexivity|].
  cbn [forallb] in H. apply andb_true_iff in H as [Hc Hw].
  cbn [app sub_block_comments]. rewrite (is_word_not_slash c Hc). cbn [andb].
  rewrite (IH Hw). destruct (w ++ rest)%list eqn:E; [|reflexivity].
  apply app_eq_nil in E as [-> ->]. reflexivity.
Qed.

(** Comments cannot begin inside a leading SELECT, so a text that
    begins with SELECT passes the SELECT check of the validator. *)
Lemma check_select_of_select (s : text) :
  begins_with_select s -> check_select (strip_comments s) = ret tt.
Proof.
  intros (w & rest & -> & Hw).
  pose proof (select_is_word w Hw) as Hword.
  assert (Hne : w <> []) by (intros ->; discriminate Hw).
  unfold strip_comments.
  rewrite (sub_line_comments_word_prefix _ _ Hword),
    (sub_block_comments_word_prefix _ _ Hword).
  unfold check_select.
  rewrite (strip_keeps_word_prefix _ _ Hne Hword).
  assert (E : starts_with (of_string "SELECT")
                (upper (w ++ rstrip (sub_block_comments 0
                                       (sub_line_comments false rest)))%list)
              = true).
  { apply starts_with_select_spec. now eexists w, _. }
  now rewrite E.
Qed.

Lemma remove_fence_match (x : text) :
  remove fence (fence ++ x)%list = remove fence x.
Proof. reflexivity. Qed.

Lemma remove_no_match (old : text) (c : ascii) (r : text) :
  starts_with old (c :: r) = false ->
  remove old (c :: r) = c :: remove old r.
Proof. intros H. unfold remove. cbn [remove_from]. now rewrite H. Qed.

Lemma starts_with_fence (s : text) :
  starts_with fence s = true <-> exists x, s = (fence ++ x)%list.
Proof. apply starts_with_iff. Qed.

(** Where the result of the removal begins with a backtick, or with
    two, so did the text. *)
Lemma remove_fence_head (s : text) (y : text) :
  remove fence s = backtick :: y -> exists x, s = backtick :: x.
Proof.
  destruct s as [|c r]; [discriminate|].
  destruct (starts_with fence (c :: r)) eqn:E.
  - apply starts_with_fence in E as [x E]. injection E as -> _. now eexists.
  - rewrite (remove_no_match _ _ _ E). intros H. injection H as -> _. now eexists.
Qed.

Lemma remove_fence_head2 (s : text) (y : text) :
  remove fence s = backtick :: backtick :: y ->
  exists x, s = backtick :: backtick :: x.
Proof.
  destruct s as [|c r]; [discriminate|].
  destruct (starts_with fence (c :: r)) eqn:E.
  - apply starts_with_fence in E as [x E]. injection E as -> ->. now eexists.
  - rewrite (remove_no_match _ _ _ E). intros H. injection H as -> H.
    apply remove_fence_head in H as [x ->]. now eexists.
Qed.

(** Taking the fences out leaves no fence. *)
Lemma remove_fence_free (s : text) : contains fence (remove fence s) = false.
Proof.
  assert (G : forall n s, List.length s <= n ->
                          contains fence (remove fence s) = false).
  { clear s. induction n as [|n IH]; intros s Hn.
    - destruct s; [reflexivity | simpl in Hn; lia].
    - destruct s as [|c r]; [reflexivity|].
      destruct (starts_with fence (c :: r)) eqn:E.
      + apply starts_with_fence in E as [x E]. rewrite E, remove_fence_match.
        apply IH. rewrite E in Hn. simpl in Hn. lia.
      + rewrite (remove_no_match _ _ _ E). cbn [contains].
        rewrite (IH r) by (simpl in Hn; lia). rewrite orb_false_r.
        destruct (starts_with fence (c :: remove fence r)) eqn:S; [|reflexivity].
        apply starts_with_fence in S as [y S]. injection S as -> S.
        apply remove_fence_head2 in S as [x ->].
        discriminate E. }
  now apply (G (List.length s)).
Qed.

Lemma parse_text_fence_free (t : text) : contains fence (parse_text t) = false.
Proof.
  rewrite parse_text_selected.
  destruct (contains fence (strip (selected t))) eqn:C; [|reflexivity].
  apply contains_strip in C.
  assert (C' : contains fence
                 (strip (remove fence (remove sql_fence t))) = true).
  { destruct (selected_cases t) as [(_ & _ & i & E) | (_ & E)];
      rewrite E in C; trivial.
    rewrite <- (firstn_skipn i (strip (remove fence (remove sql_fence t)))).
    now apply contains_app_r. }
  apply contains_strip in C'. now rewrite remove_fence_free in C'.
Qed.

(** X8.  The output of the parser holds no markdown fence. *)
Theorem parse_fence_free (t : string) :
  contains fence (of_string (parse t)) = false.
Proof. rewrite of_string_parse. apply parse_text_fence_free. Qed.

Lemma contains_longer (a b s : text) :
  contains (a ++ b)%list s = true -> contains a s = true.
Proof.
  induction s as [|c s IH]; cbn [contains]; intros H.
  - rewrite orb_false_r in H. destruct (starts_with_split _ _ H) as [r E].
    destruct a; [reflexivity | discriminate].
  - apply orb_true_iff in H as [H | H].
    + destruct (starts_with_split _ _ H) as [r E]. rewrite E, <- app_assoc.
      now rewrite starts_with_app.
    + rewrite (IH H). apply orb_true_r.
Qed.

(** Where there is nothing to remove, the removal changes nothing. *)
Lemma remove_absent (old s : text) :
  contains old s = false -> remove old s = s.
Proof.
  induction s as [|c s IH]; [reflexivity|].
  cbn [contains]. intros H. apply orb_false_iff in H as [H1 H2].
  rewrite (remove_no_match _ _ _ H1). now rewrite IH.
Qed.

(** On the texts of [Text]: parsing an output of the parser gives it
    back. *)
Lemma parse_idempotent (t : string) : parse (parse t) = parse t.
Proof.
  apply of_string_inj. rewrite (of_string_parse (parse t)), of_string_parse.
  set (p := parse_text (of_string t)).
  assert (Hf : contains fence p = false) by apply parse_text_fence_free.
  assert (Hs : strip p = p) by apply parse_text_trimmed.
  assert (Hq : contains sql_fence p = false).
  { destruct (contains sql_fence p) eqn:C; [|reflexivity].
    apply contains_longer in C. rewrite Hf in C. discriminate. }
  unfold parse_text. rewrite (remove_absent _ _ Hq), (remove_absent _ _ Hf), Hs.
  destruct (parse_text_select (of_string t)) as [H | H]; fold p in H.
  - apply starts_with_select_spec in H.
    assert (C : contains (of_string "SELECT") (upper p) = true).
    { destruct (upper p); cbn [contains]; now rewrite H. }
    rewrite C. unfold find.
    assert (F : find_from (of_string "SELECT") (upper p) = Some 0).
    { destruct (upper p); cbn [find_from]; now rewrite H. }
    rewrite F. exact Hs.
  - rewrite H. exact Hs.
Qed.

End ParserFacts.

(* ===================================================================== *)
(** * The converter of numpy values                                       *)
(* ===================================================================== *)

Module UtilsFacts.
Import Utils MoreProperties.

Lemma ndarray_induction (P : ndarray -> Prop)
  (Hitem : forall x, P (NdItem x))
  (Haxis : forall items, Forall P items -> P (NdAxis items)) :
  forall a, P a.
Proof.
  fix IH 1. intros [x | items].
  - apply Hitem.
  - apply Haxis. induction items as [|a items IHitems]; constructor.
    + apply IH.
    + exact IHitems.
Qed.

Lemma py_induction (P : py -> Prop)
  (Hvalue : forall v, P (PyValue v))
  (Hgeneric : forall x, P (PyGeneric x))
  (Harray : forall a, P (PyArray a))
  (Hlist : forall items, Forall P items -> P (PyList items))
  (Hdict : forall entries,
      Forall (fun kv => P (snd kv)) entries -> P (PyDict entries))
  (Htuple : forall items, Forall P items -> P (PyTuple items)) :
  forall d, P d.
Proof.
  fix IH 1. intros [v | x | a | items | entries | items].
  - apply Hvalue.
  - apply Hgeneric.
  - apply Harray.
  - apply Hlist. induction items as [|d items IHitems]; constructor.
    + apply IH.
    + exact IHitems.
  - apply Hdict. induction entries as [|kv entries IHentries]; constructor.
    + apply IH.
    + exact IHentries.
  - apply Htuple. induction items as [|d items IHitems]; constructor.
    + apply IH.
    + exact IHitems.
Qed.

Lemma forallb_map_of_Forall {A B : Type} (f : A -> B) (p : B -> bool)
  (q : A -> bool) (l : list A) :
  Forall (fun a => q a = true -> p (f a) = true) l ->
  forallb q l = true -> forallb p (map f l) = true.
Proof.
  induction 1 as [|a l Ha _ IH]; [reflexivity|].
  cbn [forallb map]. intros H. apply andb_true_iff in H as [H1 H2].
  now rewrite (Ha H1), (IH H2).
Qed.

Lemma map_id_of_Forall {A : Type} (f : A -> A) (q : A -> bool) (l : list A) :
  Forall (fun a => q a = true -> f a = a) l ->
  forallb q l = true -> map f l = l.
Proof.
  induction 1 as [|a l Ha _ IH]; [reflexivity|].
  cbn [forallb map]. intros H. apply andb_true_iff in H as [H1 H2].
  now rewrite (Ha H1), (IH H2).
Qed.

Lemma tolist_numpy_free (a : ndarray) : numpy_free (tolist a) = true.
Proof.
  induction a as [x | items IH] using ndarray_induction; [reflexivity|].
  cbn [tolist numpy_free].
  apply (forallb_map_of_Forall tolist numpy_free (fun _ => true)).
  - eapply Forall_impl; [|exact IH]. auto.
  - now apply forallb_forall.
Qed.

Lemma convert_removes_numpy (d : py) :
  tuples_native d = true -> numpy_free (convert_numpy_to_python d) = true.
Proof.
  induction d as [v | x | a | items IH | entries IH | items IH]
    using py_induction; cbn [tuples_native convert_numpy_to_python numpy_free].
  - reflexivity.
  - reflexivity.
  - intros _. apply tolist_numpy_free.
  - now apply forallb_map_of_Forall.
  - apply (forallb_map_of_Forall
             (fun kv => (fst kv, convert_numpy_to_python (snd kv)))
             (fun kv => numpy_free (snd kv))
             (fun kv => tuples_native (snd kv))).
    exact IH.
  - auto.
Qed.

(** X10.  The converter leaves no numpy value in dictionaries, lists
    and arrays, however deep; it does not look into other objects, so
    the result is free of numpy values as soon as the tuples of the
    data are. *)
Theorem convert_numpy_free (d : py) :
  tuples_native d = true -> numpy_free (convert_numpy_to_python d) = true.
Proof. apply convert_removes_numpy. Qed.

Lemma convert_numpy_free_witness :
  numpy_free
    (convert_numpy_to_python
       (PyDict [("total_rows", PyGeneric (NpInt 2));
                ("values", PyArray (NdAxis [NdItem (NpInt 5); NdItem (NpInt 3)]))]))
  = true.
Proof. apply convert_numpy_free. reflexivity. Defined.

Lemma convert_fixes_native (d : py) :
  numpy_free d = true -> convert_numpy_to_python d = d.
Proof.
  induction d as [v | x | a | items IH | entries IH | items IH]
    using py_induction; cbn [numpy_free convert_numpy_to_python];
    try reflexivity; try discriminate.
  - intros H. f_equal. now apply (map_id_of_Forall _ numpy_free).
  - intros H. f_equal.
    apply (map_id_of_Forall _ (fun kv => numpy_free (snd kv))); trivial.
    eapply Forall_impl; [|exact IH].
    intros [k v] Hv Hn. cbn [fst snd] in *. now rewrite (Hv Hn).
Qed.

(** X11.  Data without numpy values come back unchanged. *)
Theorem convert_native_unchanged (d : py) :
  numpy_free d = true -> convert_numpy_to_python d = d.
Proof. apply convert_fixes_native. Qed.

Lemma rows_numpy_free (rows : list row) : numpy_free (py_of_rows rows) = true.
Proof.
  unfold py_of_rows, py_of_row. cbn [numpy_free].
  rewrite forallb_forall. intros d Hd.
  apply in_map_iff in Hd as (r & <- & _). cbn [numpy_free].
  rewrite forallb_forall. intros kv Hkv.
  apply in_map_iff in Hkv as (kv' & <- & _). reflexivity.
Qed.

(** The rows of a query are such data. *)
Lemma convert_native_unchanged_witness :
  numpy_free (py_of_rows Sample.complaints) = true
  /\ convert_numpy_to_python (py_of_rows Sample.complaints)
     = py_of_rows Sample.complaints.
Proof.
  split; [reflexivity|].
  apply convert_native_unchanged. reflexivity.
Defined.

(** X12.  Converting twice is converting once. *)
Theorem convert_idempotent (d : py) :
  tuples_native d = true ->
  convert_numpy_to_python (convert_numpy_to_python d)
  = convert_numpy_to_python d.
Proof.
  intros H. apply convert_fixes_native. now apply convert_removes_numpy.
Qed.

Lemma convert_idempotent_witness :
  convert_numpy_to_python
    (convert_numpy_to_python (PyList [PyGeneric (NpFloat (1 # 2))]))
  = convert_numpy_to_python (PyList [PyGeneric (NpFloat (1 # 2))]).
Proof. apply convert_idempotent. reflexivity. Defined.

End UtilsFacts.

(* ===================================================================== *)
(** * The completion service, the start-up and the endpoint              *)
(* ===================================================================== *)

Module ServiceFacts.
Import Text QueryExecutor ModelService Analytics Main Chatbot.
Import Properties MoreProperties TextFacts ValidatorFacts ParserFacts.

(** The prompt is the three literal parts of the template around the
    schema and the question. *)
Lemma format_sql_prompt (schema question : string) :
  exists head middle tail,
    format sql_prompt schema question
    = head ++ schema ++ middle ++ question ++ tail
    /\ forallb (fun cat => contains (of_string ("'" ++ cat ++ "'"))
                                    (of_string middle))
               Config.ALLOWED_CATEGORIES = true.
Proof.
  do 3 eexists. split.
  - unfold format, sql_prompt. cbn [map String.concat String.eqb Ascii.eqb
                                    Bool.eqb].
    reflexivity.
  - vm_compute. reflexivity.
Qed.

(** X13.  A service that was initialised sends one prompt for a
    question.  The prompt holds the schema and the question as they
    are, and names between quotes every category of the allow-list of
    the validator. *)
Theorem generate_sql_prompt (connect : string -> llm) (env : environ)
  (g : GroqService) (question schema : string) :
  initialize connect env (new_service env) = ret g ->
  exists prompt,
    snd (generate_sql g question schema) = [prompt]
    /\ contains (of_string schema) (of_string prompt) = true
    /\ contains (of_string question) (of_string prompt) = true
    /\ forall cat, In cat Config.ALLOWED_CATEGORIES ->
         contains (of_string ("'" ++ cat ++ "'")) (of_string prompt) = true.
Proof.
  unfold initialize. destruct (unset env "GROQ_API_KEY"); [discriminate|].
  intros H. injection H as <-.
  unfold generate_sql. cbn [prompt_template groq_client snd].
  destruct (format_sql_prompt schema question)
    as (head & middle & tail & E & Hcat).
  exists (format sql_prompt schema question). split; [reflexivity|].
  rewrite E, !of_string_app.
  pose proof contains_self as Self.
  split; [|split].
  - apply contains_app_r, contains_app_l, Self.
  - apply contains_app_r, contains_app_r, contains_app_r, contains_app_l, Self.
  - intros cat Hin. rewrite forallb_forall in Hcat.
    apply contains_app_r, contains_app_r, contains_app_l. now apply Hcat.
Qed.

(** An environment that sets the three variables of the service. *)
Lemma generate_sql_prompt_witness :
  exists prompt,
    snd (generate_sql
           {| groq_client := Some (Fixtures.canned "SELECT 1");
              model := "llama-3.1-8b-instant";
              prompt_template := Some sql_prompt |}
           "How many potholes?" get_schema) = [prompt]
    /\ contains (of_string get_schema) (of_string prompt) = true
    /\ contains (of_string "How many potholes?") (of_string prompt) = true
    /\ forall cat, In cat Config.ALLOWED_CATEGORIES ->
         contains (of_string ("'" ++ cat ++ "'")) (of_string prompt) = true.
Proof.
  apply (generate_sql_prompt (fun _ => Fixtures.canned "SELECT 1")
           Fixtures.full_environment).
  reflexivity.
Defined.

(** X14.  The start-up succeeds only in an environment that sets the
    key of the completion service and the address and the key of the
    database, none of them empty; the health check of the services it
    leaves reports both as connected. *)
Theorem lifespan_settings (connect : string -> llm)
  (create_client : string -> string -> result remote) (env : environ)
  (s : services) :
  lifespan connect create_client env = ret s ->
  unset env "GROQ_API_KEY" = false
  /\ unset env "SUPABASE_URL" = false
  /\ unset env "SUPABASE_KEY" = false
  /\ groq (health_check env s) = "connected"
  /\ supabase (health_check env s) = "connected".
Proof.
  unfold lifespan, initialize, supabase_initialize, supabase_settings.
  cbn [url key].
  change (missing (env "SUPABASE_URL")) with (unset env "SUPABASE_URL").
  change (missing (env "SUPABASE_KEY")) with (unset env "SUPABASE_KEY").
  destruct (unset env "GROQ_API_KEY"); [discriminate|]. cbn [bind ret].
  destruct (unset env "SUPABASE_URL"); [discriminate|].
  destruct (unset env "SUPABASE_KEY"); [discriminate|]. cbn [orb].
  destruct (env "SUPABASE_URL") as [u|]; [|discriminate].
  destruct (env "SUPABASE_KEY") as [k|]; [|discriminate].
  destruct (create_client u k) as [e|c]; [discriminate|]. cbn [bind ret].
  intros H. injection H as <-. repeat split; reflexivity.
Qed.

Lemma lifespan_settings_witness :
  let s := {| groq_service :=
                {| groq_client := Some (Fixtures.canned "SELECT 1");
                   model := "llama-3.1-8b-instant";
                   prompt_template := Some sql_prompt |};
              supabase_client := {| client := Some Sample.empty_remote |} |} in
  unset Fixtures.full_environment "GROQ_API_KEY" = false
  /\ unset Fixtures.full_environment "SUPABASE_URL" = false
  /\ unset Fixtures.full_environment "SUPABASE_KEY" = false
  /\ groq (health_check Fixtures.full_environment s) = "connected"
  /\ supabase (health_check Fixtures.full_environment s) = "connected".
Proof.
  apply (lifespan_settings (fun _ => Fixtures.canned "SELECT 1")
           (fun _ _ => ret Sample.empty_remote) Fixtures.full_environment).
  reflexivity.
Defined.

(** The validator raises nothing but a [ValueError]. *)
Lemma validate_raises_value_error (sql : string) (e : exn) :
  _validate_sql sql = raise e -> exists msg, e = ValueError msg.
Proof.
  unfold _validate_sql, check_keywords.
  destruct (List.find _ DANGEROUS_KEYWORDS) as [k|]; cbn [bind].
  - intros H. injection H as <-. now eexists.
  - intros H. apply later_checks_messages in H as [-> | [cat ->]]; now eexists.
Qed.

(** X15.  When the validator rejects the generated query, the endpoint
    answers with a failure that carries the query and the reason of the
    validator behind the words Security validation failed, and nothing
    is sent to the database. *)
Theorem chat_rejected_query (lib : Library) (groq : GroqService)
  (supabase : SupabaseClient) (question sql : string) (e : exn) :
  fst (generate_sql groq question get_schema) = ret sql ->
  _validate_sql sql = raise e ->
  let o := chat lib groq supabase question in
  exists reason,
    e = ValueError reason
    /\ response o
       = {| success := false;
            Chatbot.question := question;
            sql_generated := Some sql;
            data := None;
            analytics_of := None;
            summary := None;
            error := Some ("Security validation failed: " ++ reason) |}
    /\ queries o = [].
Proof.
  intros G V o. destruct (validate_raises_value_error _ _ V) as [reason ->].
  exists reason. split; trivial.
  subst o. unfold chat.
  destruct (generate_sql groq question get_schema) as [generated ps].
  cbn [fst] in G. destruct generated as [e0|sql0];
    [discriminate G | injection G as ->].
  unfold execute_query. rewrite V. split; reflexivity.
Qed.

Lemma chat_rejected_query_witness :
  let o := chat Sample.library
                (Fixtures.service "SELECT * FROM issues; DROP TABLE issues;")
                {| client := Some Sample.empty_remote |}
                "Remove everything" in
  exists reason,
    ValueError (forbidden_keyword_message "DROP") = ValueError reason
    /\ response o
       = {| success := false;
            Chatbot.question := "Remove everything";
            sql_generated := Some "SELECT * FROM issues; DROP TABLE issues;";
            data := None;
            analytics_of := None;
            summary := None;
            error := Some ("Security validation failed: " ++ reason) |}
    /\ queries o = [].
Proof.
  apply (chat_rejected_query Sample.library
           (Fixtures.service "SELECT * FROM issues; DROP TABLE issues;")
           {| client := Some Sample.empty_remote |}
           "Remove everything" "SELECT * FROM issues; DROP TABLE issues;");
    reflexivity.
Defined.

(** X16.  A response that reports success carries a query that passed
    the validator, the rows that the database returned for it, and the
    analytics and the synopsis computed from those rows; the one query
    sent to the database is that query, trimmed and without its closing
    semicolons. *)
Theorem chat_success (lib : Library) (groq : GroqService)
  (supabase : SupabaseClient) (question : string) :
  let o := chat lib groq supabase question in
  success (response o) = true ->
  exists sql rows,
    fst (generate_sql groq question get_schema) = ret sql
    /\ _validate_sql sql = ret tt
    /\ execute_query supabase sql
       = (ret rows, [rstrip_char ";" (strip (of_string sql))])
    /\ response o
       = {| success := true;
            Chatbot.question := question;
            sql_generated := Some sql;
            data := Some rows;
            analytics_of := Some (generate_analytics lib rows question);
            summary := Some (generate_text_summary lib rows question);
            error := None |}
    /\ queries o = [rstrip_char ";" (strip (of_string sql))].
Proof.
  intros o. subst o. unfold chat.
  destruct (generate_sql groq question get_schema) as [[e|sql] ps];
    [discriminate|].
  destruct (execute_query supabase sql) as [[e|rows] qs] eqn:X; [discriminate|].
  intros _. exists sql, rows. cbn [fst response queries].
  assert (V : _validate_sql sql = ret tt
              /\ qs = [rstrip_char ";" (strip (of_string sql))]).
  { unfold execute_query in X.
    destruct (_validate_sql sql) as [e|[]]; [discriminate|].
    destruct (client supabase) as [rpc|]; [|discriminate].
    injection X as _ <-. auto. }
  destruct V as [V ->]. repeat split; trivial.
Qed.

Lemma chat_success_witness :
  let o := chat Sample.library
                (Fixtures.service "```sql
SELECT category, count FROM issue_analytics;
```")
                {| client := Some (Fixtures.remote_with Sample.complaints) |}
                "Show breakdown of complaints" in
  exists sql rows,
    fst (generate_sql
           (Fixtures.service "```sql
SELECT category, count FROM issue_analytics;
```")
           "Show breakdown of complaints" get_schema) = ret sql
    /\ _validate_sql sql = ret tt
    /\ execute_query {| client := Some (Fixtures.remote_with Sample.complaints) |}
                     sql
       = (ret rows, [rstrip_char ";" (strip (of_string sql))])
    /\ response o
       = {| success := true;
            Chatbot.question := "Show breakdown of complaints";
            sql_generated := Some sql;
            data := Some rows;
            analytics_of :=
              Some (generate_analytics Sample.library rows
                      "Show breakdown of complaints");
            summary :=
              Some (generate_text_summary Sample.library rows
                      "Show breakdown of complaints");
            error := None |}
    /\ queries o = [rstrip_char ";" (strip (of_string sql))].
Proof.
  apply (chat_success Sample.library
           (Fixtures.service "```sql
SELECT category, count FROM issue_analytics;
```")
           {| client := Some (Fixtures.remote_with Sample.complaints) |}
           "Show breakdown of complaints").
  reflexivity.
Defined.

Lemma execute_query_queries (supabase : SupabaseClient) (sql : string) :
  snd (execute_query supabase sql) = []
  \/ (_validate_sql sql = ret tt
      /\ snd (execute_query supabase sql)
         = [rstrip_char ";" (strip (of_string sql))]).
Proof.
  unfold execute_query.
  destruct (_validate_sql sql) as [e|[]]; [now left|].
  destruct (client supabase); [right | left]; auto.
Qed.

Lemma generate_sql_prompts (groq : GroqService) (question schema : string) :
  List.length (snd (generate_sql groq question schema)) <= 1
  /\ (forall sql, fst (generate_sql groq question schema) = ret sql ->
                  List.length (snd (generate_sql groq question schema)) = 1).
Proof.
  unfold generate_sql.
  destruct (prompt_template groq); [|split; [simpl; lia | discriminate]].
  destruct (groq_client groq); split; simpl; auto; discriminate.
Qed.

(** X17.  A request is one attempt: at most one prompt goes to the
    completion service and at most one query to the database.  When a
    query goes to the database, the completion service answered, the
    query sent is the generated query, trimmed and without its closing
    semicolons, and the validator accepted the generated query, which
    is the one the response carries. *)
Theorem chat_traffic (lib : Library) (groq : GroqService)
  (supabase : SupabaseClient) (question : string) :
  let o := chat lib groq supabase question in
  List.length (prompts o) <= 1
  /\ List.length (queries o) <= 1
  /\ (queries o <> [] ->
      exists sql,
        fst (generate_sql groq question get_schema) = ret sql
        /\ queries o = [rstrip_char ";" (strip (of_string sql))]
        /\ _validate_sql sql = ret tt
        /\ sql_generated (response o) = Some sql
        /\ List.length (prompts o) = 1).
Proof.
  intros o. subst o. unfold chat.
  destruct (generate_sql_prompts groq question get_schema) as [P1 P2].
  destruct (generate_sql groq question get_schema) as [[e|sql] ps];
    cbn [fst snd] in P1, P2.
  - cbn [prompts queries]. repeat split; simpl; auto. intros H. now destruct H.
  - pose proof (execute_query_queries supabase sql) as Q.
    destruct (execute_query supabase sql) as [[e|rows] qs]; cbn [snd] in Q;
      cbn [prompts queries response sql_generated failure fst];
      (split; [exact P1|]);
      (destruct Q as [-> | [V ->]];
       [split; [simpl; lia | intros H; now destruct H]
       | split; [simpl; lia
                | intros _; exists sql;
                  repeat split; [exact V | exact (P2 sql eq_refl)]]]).
Qed.

Lemma chat_traffic_witness :
  let o := chat Sample.library
                (Fixtures.service "SELECT id FROM issue_analytics;")
                {| client := Some Sample.empty_remote |}
                "Which complaints are open?" in
  exists sql,
    fst (generate_sql (Fixtures.service "SELECT id FROM issue_analytics;")
                      "Which complaints are open?" get_schema) = ret sql
    /\ queries o = [rstrip_char ";" (strip (of_string sql))]
    /\ _validate_sql sql = ret tt
    /\ sql_generated (response o) = Some sql
    /\ List.length (prompts o) = 1.
Proof.
  apply (proj2 (proj2 (chat_traffic Sample.library
                         (Fixtures.service "SELECT id FROM issue_analytics;")
                         {| client := Some Sample.empty_remote |}
                         "Which complaints are open?"))).
  discriminate.
Defined.

(** X18.  When the database returns no row, the response still reports
    success: no rows, the chart type none without chart, and the fixed
    synopsis. *)
Theorem chat_no_rows (lib : Library) (groq : GroqService)
  (supabase : SupabaseClient) (question sql : string) :
  fst (generate_sql groq question get_schema) = ret sql ->
  fst (execute_query supabase sql) = ret [] ->
  let r := response (chat lib groq supabase question) in
  success r = true
  /\ data r = Some []
  /\ option_map chart_type (analytics_of r) = Some "none"
  /\ option_map plotly_config (analytics_of r) = Some None
  /\ summary r = Some "No results found for your question.".
Proof.
  intros G X r. subst r. unfold chat.
  destruct (generate_sql groq question get_schema) as [generated ps].
  cbn [fst] in G. destruct generated as [e0|sql0];
    [discriminate G | injection G as ->].
  destruct (execute_query supabase sql) as [executed qs].
  cbn [fst] in X. destruct executed as [e0|rows];
    [discriminate X | injection X as ->].
  repeat split.
Qed.

Lemma chat_no_rows_witness :
  let r := response (chat Sample.library
                          (Fixtures.service "SELECT id FROM issue_analytics")
                          {| client := Some Sample.empty_remote |}
                          "Which complaints are open?") in
  success r = true
  /\ data r = Some []
  /\ option_map chart_type (analytics_of r) = Some "none"
  /\ option_map plotly_config (analytics_of r) = Some None
  /\ summary r = Some "No results found for your question.".
Proof.
  apply (chat_no_rows Sample.library
           (Fixtures.service "SELECT id FROM issue_analytics")
           {| client := Some Sample.empty_remote |}
           "Which complaints are open?" "SELECT id FROM issue_analytics");
    reflexivity.
Defined.

(** X19.  What the completion service or the database raises is
    reported as an internal error, never as a security failure, unless
    it is a [ValueError]; when the generation fails the response carries
    an empty query and nothing is sent to the database. *)
Theorem chat_generation_failure (lib : Library) (groq : GroqService)
  (supabase : SupabaseClient) (question : string) (e : exn) :
  fst (generate_sql groq question get_schema) = raise e ->
  let o := chat lib groq supabase question in
  response o = failure question EmptyString e
  /\ queries o = []
  /\ ((forall m, e <> ValueError m) ->
      error (response o)
      = Some ("An internal error occurred: " ++ exn_message e)).
Proof.
  intros G o. subst o. unfold chat.
  destruct (generate_sql groq question get_schema) as [generated ps].
  cbn [fst] in G. destruct generated as [e0|sql0];
    [injection G as -> | discriminate G].
  cbn [response queries]. repeat split. intros H. unfold failure, error_message. cbn [error].
  destruct e; trivial. destruct (H msg eq_refl).
Qed.

Lemma chat_generation_failure_witness :
  let o := chat Sample.library (new_service Fixtures.full_environment)
                {| client := Some Sample.empty_remote |} "How many potholes?" in
  response o
  = failure "How many potholes?" EmptyString
      (AttributeError "'NoneType' object has no attribute 'format'")
  /\ queries o = []
  /\ ((forall m, AttributeError "'NoneType' object has no attribute 'format'"
                 <> ValueError m) ->
      error (response o)
      = Some ("An internal error occurred: "
              ++ exn_message
                   (AttributeError "'NoneType' object has no attribute 'format'"))).
Proof.
  apply (chat_generation_failure Sample.library
           (new_service Fixtures.full_environment)
           {| client := Some Sample.empty_remote |} "How many potholes?").
  reflexivity.
Defined.

End ServiceFacts.

(* ===================================================================== *)
(** * More on the analytics engine                                        *)
(* ===================================================================== *)

Module AnalyticsMore.
Import Text Pandas Analytics Properties MoreProperties AnalyticsFacts.

Lemma mem_spec (k : string) (ks : list string) : mem k ks = true <-> In k ks.
Proof.
  unfold mem. rewrite existsb_exists. split.
  - intros (x & Hx & E). apply String.eqb_eq in E. now subst.
  - intros H. exists k. split; trivial. apply String.eqb_refl.
Qed.

Lemma add_keys_NoDup (r : row) (seen : list string) :
  NoDup seen -> NoDup (add_keys seen r).
Proof.
  unfold add_keys. generalize (map fst r) as ks. intros ks. revert seen.
  induction ks as [|k ks IH]; intros seen H; [exact H|].
  cbn [fold_left]. apply IH. destruct (mem k seen) eqn:M; trivial.
  apply NoDup_app; trivial.
  - repeat constructor. intros [].
  - intros x Hx [<- | []]. apply mem_spec in Hx. rewrite Hx in M. discriminate.
Qed.

Lemma column_names_NoDup (data : list row) : NoDup (column_names data).
Proof.
  unfold column_names. generalize (NoDup_nil string). generalize (@nil string).
  induction data as [|r data IH]; intros seen H; [exact H|].
  cbn [fold_left]. apply IH. now apply add_keys_NoDup.
Qed.

(** The columns of a frame built from rows bear distinct names. *)
Lemma columns_NoDup (data : list row) : NoDup (columns (DataFrame_of data)).
Proof.
  unfold columns, DataFrame_of. cbn [frame_columns].
  rewrite map_map. cbn [fst]. rewrite map_id. apply column_names_NoDup.
Qed.

Lemma filter_names_NoDup {B : Type} (g : string * B -> bool)
  (cols : list (string * B)) :
  NoDup (map fst cols) -> NoDup (map fst (filter g cols)).
Proof.
  induction cols as [|c cols IH]; [trivial|].
  cbn [map filter]. intros H. inversion H as [|? ? Hn Hr]; subst.
  destruct (g c); [|auto]. cbn [map]. constructor; [|auto].
  intros Hin. apply Hn. apply in_map_iff in Hin as (x & E & Hx).
  apply filter_In in Hx as [Hx _]. apply in_map_iff. now exists x.
Qed.

Lemma select_dtypes_NoDup (include : dtype -> bool) (df : DataFrame) :
  NoDup (columns df) -> NoDup (select_dtypes include df).
Proof. apply filter_names_NoDup. Qed.

Lemma select_dtypes_columns (include : dtype -> bool) (df : DataFrame)
  (x : string) :
  In x (select_dtypes include df) -> In x (columns df).
Proof.
  unfold select_dtypes, columns. intros H.
  apply in_map_iff in H as (c & E & Hc). apply filter_In in Hc as [Hc _].
  apply in_map_iff. now exists c.
Qed.

Lemma names_determine {B : Type} (cols : list (string * B)) (c1 c2 : string * B) :
  NoDup (map fst cols) -> In c1 cols -> In c2 cols -> fst c1 = fst c2 -> c1 = c2.
Proof.
  induction cols as [|c cols IH]; [intros _ []|].
  cbn [map]. intros H H1 H2 E. inversion H as [|? ? Hn Hr]; subst.
  destruct H1 as [<- | H1], H2 as [<- | H2]; trivial.
  - destruct Hn. rewrite E. now apply in_map.
  - destruct Hn. rewrite <- E. now apply in_map.
  - auto.
Qed.

(** In a frame with distinct names, a column selected under two
    headings has a dtype of both. *)
Lemma select_dtypes_both (p q : dtype -> bool) (df : DataFrame) (x : string) :
  NoDup (columns df) ->
  In x (select_dtypes p df) -> In x (select_dtypes q df) ->
  exists d, p d = true /\ q d = true.
Proof.
  unfold select_dtypes, columns. intros H Hp Hq.
  apply in_map_iff in Hp as (c1 & E1 & Hp). apply filter_In in Hp as [I1 Hp].
  apply in_map_iff in Hq as (c2 & E2 & Hq). apply filter_In in Hq as [I2 Hq].
  assert (c1 = c2) as <- by (apply (names_determine _ _ _ H I1 I2); congruence).
  now exists (s_dtype (snd c1)).
Qed.

Lemma reclassify_step_moves (lib : Library) (df : DataFrame)
  (date_cols cat_cols : list string) (col : string) :
  reclassify_step lib df (date_cols, cat_cols) col
  = if moves lib df col
    then ((date_cols ++ [col])%list, list_remove col cat_cols)
    else (date_cols, cat_cols).
Proof.
  unfold reclassify_step, moves.
  destruct (getitem df col) as [s|]; [|reflexivity].
  destruct (to_datetime lib (head 5 s)); [|reflexivity].
  destruct (0 <? notna_sum (head 5 s))%nat; reflexivity.
Qed.

Lemma filter_keep_all {A : Type} (f : A -> bool) (l : list A) :
  (forall x, In x l -> f x = true) -> filter f l = l.
Proof.
  induction l as [|a l IH]; [reflexivity|]. intros H. cbn [filter].
  rewrite (H a (or_introl eq_refl)). f_equal. apply IH. intros x Hx.
  apply H. now right.
Qed.

Lemma filter_twice {A : Type} (f g : A -> bool) (l : list A) :
  filter f (filter g l) = filter (fun x => g x && f x) l.
Proof.
  induction l as [|a l IH]; [reflexivity|]. cbn [filter].
  destruct (g a); cbn [filter andb]; [destruct (f a)|]; now rewrite IH.
Qed.

(** On a list without repetition, [remove] is a filter. *)
Lemma list_remove_filter (x : string) (l : list string) :
  NoDup l -> list_remove x l = filter (fun y => negb (String.eqb x y)) l.
Proof.
  induction l as [|y l IH]; [reflexivity|].
  intros H. inversion H as [|? ? Hn Hr]; subst. cbn [list_remove filter].
  destruct (String.eqb_spec x y) as [<- | Hxy]; cbn [negb].
  - symmetry. apply filter_keep_all. intros z Hz.
    destruct (String.eqb_spec x z) as [<- | _]; [now destruct Hn | reflexivity].
  - now rewrite IH.
Qed.

(** The categorical list after the loop. *)
Lemma remaining_columns (lib : Library) (df : DataFrame) :
  forall (cols date_cols cat_cols : list string),
    NoDup cat_cols ->
    snd (fold_left (reclassify_step lib df) cols (date_cols, cat_cols))
    = filter (fun y => negb (existsb (fun col => moves lib df col
                                                 && String.eqb col y) cols))
             cat_cols.
Proof.
  induction cols as [|col cols IH]; intros date_cols cat_cols H.
  - cbn [fold_left snd existsb negb]. symmetry. now apply filter_keep_all.
  - cbn [fold_left existsb]. rewrite reclassify_step_moves.
    destruct (moves lib df col); cbn [andb orb].
    + rewrite IH, (list_remove_filter _ _ H), filter_twice.
      * apply filter_ext. intros y. now rewrite negb_orb.
      * rewrite (list_remove_filter _ _ H). now apply NoDup_filter.
    + now apply IH.
Qed.

Lemma classify_columns_frame (lib : Library) (data : list row) :
  let df := DataFrame_of data in
  let strings := select_dtypes object_or_category df in
  classify_columns lib df
  = (select_dtypes number df,
     filter (fun col => negb (moves lib df col)) strings,
     (select_dtypes datetime df ++ filter (moves lib df) strings)%list).
Proof.
  intros df strings. unfold classify_columns. fold strings.
  pose proof (reclassified_columns lib df strings (select_dtypes datetime df)
                strings) as D.
  assert (N : NoDup strings)
    by (apply select_dtypes_NoDup, columns_NoDup).
  pose proof (remaining_columns lib df strings (select_dtypes datetime df)
                strings N) as C.
  destruct (fold_left (reclassify_step lib df) strings
              (select_dtypes datetime df, strings)) as [date cat].
  cbn [fst snd] in D, C. rewrite D, C. f_equal. f_equal.
  apply filter_ext_in. intros y Hy. f_equal.
  destruct (moves lib df y) eqn:M.
  - apply existsb_exists. exists y. now rewrite M, String.eqb_refl.
  - destruct (existsb _ strings) eqn:E; [|reflexivity].
    apply existsb_exists in E as (col & _ & E).
    apply andb_true_iff in E as [E1 E2]. apply String.eqb_eq in E2. subst col.
    now rewrite M in E1.
Qed.

(** X20.  The three column lists of the inference, for a frame built
    from rows: the numeric columns; the temporal columns, followed by
    the string columns that have an entry that is not null among their
    first five and on which the date parser returns; and the other
    string columns.  Whether the entries parse as dates plays no part. *)
Theorem classify_columns_rule (lib : Library) (data : list row) :
  let df := DataFrame_of data in
  let strings := select_dtypes object_or_category df in
  classify_columns lib df
  = (select_dtypes number df,
     filter (fun col => negb (moves lib df col)) strings,
     (select_dtypes datetime df ++ filter (moves lib df) strings)%list).
Proof. apply classify_columns_frame. Qed.

Lemma getitem_of_column (df : DataFrame) (x : string) :
  In x (columns df) -> exists s, getitem df x = Some s.
Proof.
  unfold columns, getitem. induction (frame_columns df) as [|[k s] cols IH].
  - intros [].
  - cbn [map getitem_from fst]. intros [<- | H].
    + rewrite String.eqb_refl. now eexists.
    + destruct (String.eqb x k); [now eexists | auto].
Qed.

(** X21.  A pie chart is drawn over a string column only when the
    first five entries of that column are all null, or when the date
    parser raises on them. *)
Theorem pie_needs_null_head (lib : Library) (data : list row)
  (question x : string) (y : option string) :
  _detect_chart_type lib (DataFrame_of data) question = ("pie", Some x, y) ->
  exists s,
    getitem (DataFrame_of data) x = Some s
    /\ (to_datetime lib (head 5 s) = None \/ notna_sum (head 5 s) = 0).
Proof.
  unfold _detect_chart_type. rewrite classify_columns_frame.
  set (df := DataFrame_of data).
  set (cat := filter (fun col => negb (moves lib df col))
                (select_dtypes object_or_category df)).
  intros H.
  assert (Hx : In x cat).
  { destruct (select_dtypes datetime df ++ _)%list as [|d ds],
      (select_dtypes number df) as [|n1 [|n2 ns]], cat as [|c cs];
      repeat match type of H with
             | context [if ?b then _ else _] => destruct b
             end;
      try discriminate H; injection H as <- _; now left. }
  apply filter_In in Hx as [Hin Hm]. apply negb_true_iff in Hm.
  destruct (getitem_of_column df x (select_dtypes_columns _ _ _ Hin)) as [s G].
  exists s. split; trivial.
  unfold moves in Hm. rewrite G in Hm.
  destruct (to_datetime lib (head 5 s)); [right | now left].
  apply Nat.ltb_ge in Hm. lia.
Qed.

Lemma pie_needs_null_head_witness :
  exists s,
    getitem
      (DataFrame_of [ [("category", VNone); ("count", VInt 5)];
                      [("category", VNone); ("count", VInt 3)] ])
      "category" = Some s
    /\ (to_datetime Sample.library (head 5 s) = None
        \/ notna_sum (head 5 s) = 0).
Proof.
  apply (pie_needs_null_head Sample.library
           [ [("category", VNone); ("count", VInt 5)];
             [("category", VNone); ("count", VInt 3)] ]
           "Show breakdown of complaints" "category" (Some "count")).
  reflexivity.
Defined.

(** Where the two columns of a chart come from. *)
Lemma detect_sources (lib : Library) (df : DataFrame) (question ct x y : string) :
  _detect_chart_type lib df question = (ct, Some x, Some y) ->
  let '(num, cat, date) := classify_columns lib df in
  (hd_error date = Some x /\ hd_error num = Some y)
  \/ (hd_error cat = Some x /\ hd_error num = Some y)
  \/ (exists ns, num = x :: y :: ns).
Proof.
  unfold _detect_chart_type.
  destruct (classify_columns lib df) as [[num cat] date].
  destruct date as [|d ds], num as [|n1 [|n2 ns]], cat as [|c cs]; intros H;
    repeat match type of H with
           | context [if ?b then _ else _] => destruct b
           end;
    try discriminate H; injection H as <- <- <-; cbn [hd_error]; eauto.
Qed.

Lemma hd_error_In {A : Type} (l : list A) (x : A) : hd_error l = Some x -> In x l.
Proof. destruct l; [discriminate|]. intros H. injection H as ->. now left. Qed.

(** X22.  The two columns chosen for a chart are columns of the result
    set, the second one is numeric, and they are two different
    columns. *)
Theorem chart_columns (lib : Library) (data : list row)
  (question ct x y : string) :
  _detect_chart_type lib (DataFrame_of data) question = (ct, Some x, Some y) ->
  In x (columns (DataFrame_of data))
  /\ In y (select_dtypes number (DataFrame_of data))
  /\ x <> y.
Proof.
  intros H. apply detect_sources in H. rewrite classify_columns_frame in H.
  set (df := DataFrame_of data) in *.
  pose proof (columns_NoDup data) as N. fold df in N.
  set (strings := select_dtypes object_or_category df) in *.
  assert (Hother : forall c, In c (select_dtypes datetime df) \/ In c strings ->
                             In y (select_dtypes number df) ->
                             In c (columns df) /\ c <> y).
  { intros c Hc Hn. split.
    - destruct Hc as [Hc | Hc]; eapply select_dtypes_columns; eauto.
    - intros ->.
      destruct Hc as [Hc | Hc];
        destruct (select_dtypes_both _ _ df y N Hc Hn) as ([] & D1 & D2);
        discriminate. }
  destruct H as [[Hx Hy] | [[Hx Hy] | [ns E]]].
  - apply hd_error_In in Hx, Hy.
    destruct (Hother x) as [H1 H2]; auto.
    apply in_app_or in Hx as [Hx | Hx]; [now left | right].
    now apply filter_In in Hx.
  - apply hd_error_In in Hx, Hy. apply filter_In in Hx as [Hx _].
    destruct (Hother x) as [H1 H2]; auto.
  - pose proof (select_dtypes_NoDup number df N) as Nnum. rewrite E in *.
    inversion Nnum as [|? ? Hn _]; subst. repeat split.
    + apply (select_dtypes_columns number df). rewrite E. now left.
    + right. now left.
    + intros ->. apply Hn. now left.
Qed.

Lemma chart_columns_witness :
  In "created_at" (columns (DataFrame_of Sample.monthly_totals))
  /\ In "total" (select_dtypes number (DataFrame_of Sample.monthly_totals))
  /\ "created_at" <> "total".
Proof.
  apply (chart_columns Sample.library Sample.monthly_totals "Totals per month"
           "line").
  reflexivity.
Defined.

(** X23.  The question never changes the columns of the chart; it can
    only turn a bar chart into a pie chart or a scatter plot. *)
Theorem question_keeps_columns (lib : Library) (df : DataFrame)
  (q1 q2 : string) :
  let a := _detect_chart_type lib df q1 in
  let b := _detect_chart_type lib df q2 in
  snd (fst a) = snd (fst b)
  /\ snd a = snd b
  /\ (fst (fst a) = fst (fst b)
      \/ (In (fst (fst a)) ["bar"; "pie"; "scatter"]
          /\ In (fst (fst b)) ["bar"; "pie"; "scatter"])).
Proof.
  unfold _detect_chart_type.
  destruct (classify_columns lib df) as [[num cat] date].
  destruct date as [|d ds], num as [|n1 [|n2 ns]], cat as [|c cs];
    repeat match goal with
           | |- context [if ?b then _ else _] => destruct b
           end;
    cbn; intuition auto.
Qed.

(** X25.  The chart type is none for an empty result set and for no
    other. *)
Theorem chart_type_none_iff (lib : Library) (data : list row)
  (question : string) :
  chart_type (generate_analytics lib data question) = "none" <-> data = [].
Proof.
  destruct data as [|r rs]; [split; reflexivity|].
  split; [|discriminate].
  unfold generate_analytics, analyse. cbn [bind ret].
  pose proof (detect_shape lib (DataFrame_of (r :: rs)) question) as S.
  destruct (_detect_chart_type lib (DataFrame_of (r :: rs)) question)
    as [[ct x] y].
  cbn [bind ret chart_type]. intros ->.
  destruct S as [(S & _) | (S & _)]; [discriminate|].
  simpl in S. intuition discriminate.
Qed.

Lemma chart_type_none_iff_witness :
  chart_type (generate_analytics Sample.library [] "How many complaints?")
  = "none".
Proof.
  apply (proj2 (chart_type_none_iff Sample.library [] "How many complaints?")).
  reflexivity.
Defined.

End AnalyticsMore.

(* ===================================================================== *)
(** * ASCII text in the two models                                        *)
(* ===================================================================== *)

Module AsciiFacts.
Import Unicode.
Local Open Scope N_scope.
Local Open Scope list_scope.

Lemma code_point_inj (a b : ascii) : code_point a = code_point b -> a = b.
Proof.
  unfold code_point. intros H.
  rewrite <- (ascii_N_embedding a), <- (ascii_N_embedding b). now rewrite H.
Qed.

Lemma code_point_eqb (a b : ascii) :
  (code_point a =? code_point b) = Ascii.eqb a b.
Proof.
  destruct (Ascii.eqb_spec a b) as [-> | Hn].
  - apply N.eqb_refl.
  - apply N.eqb_neq. intros H. now apply Hn, code_point_inj.
Qed.

Lemma of_text_inj (a b : Text.text) : of_text a = of_text b -> a = b.
Proof.
  revert b. induction a as [|x a IH]; intros [|y b] H; try discriminate H.
  - reflexivity.
  - cbn [of_text map] in H. injection H as Hx H.
    apply code_point_inj in Hx. apply IH in H. now subst.
Qed.

Lemma of_text_app (a b : Text.text) : of_text (a ++ b) = of_text a ++ of_text b.
Proof. apply map_app. Qed.

Lemma of_text_rev (a : Text.text) : of_text (rev a) = rev (of_text a).
Proof. apply map_rev. Qed.

Lemma of_string_append (a b : string) :
  of_string (a ++ b)%string = of_string a ++ of_string b.
Proof. unfold of_string. now rewrite TextFacts.of_string_app, of_text_app. Qed.

Lemma of_string_injective (a b : string) : of_string a = of_string b -> a = b.
Proof. intros H. now apply TextFacts.of_string_inj, of_text_inj. Qed.

Lemma of_text_to_string (t : Text.text) :
  of_string (Text.to_string t) = of_text t.
Proof.
  unfold of_string, Text.of_string, Text.to_string.
  now rewrite list_ascii_of_string_of_list_ascii.
Qed.

Lemma to_text_of_text (t : Text.text) : to_text (of_text t) = t.
Proof.
  unfold to_text, of_text, code_point. rewrite map_map.
  induction t as [|c t IH]; [reflexivity|].
  cbn [map]. now rewrite ascii_N_embedding, IH.
Qed.

(** An ASCII [str] is the image of a text of [Text]. *)
Lemma of_text_to_text (s : str) :
  is_ascii s = true -> of_text (to_text s) = s.
Proof.
  unfold to_text, of_text, code_point. rewrite map_map.
  induction s as [|c s IH]; [reflexivity|].
  cbn [is_ascii forallb map]. intros H. apply andb_true_iff in H as [Hc Hs].
  apply N.ltb_lt in Hc. rewrite N_ascii_embedding by lia.
  f_equal. now apply IH.
Qed.

Lemma is_ascii_cons (c : N) (s : str) :
  is_ascii (c :: s) = true <-> (c <? 128) = true /\ is_ascii s = true.
Proof. cbn [is_ascii forallb]. apply andb_true_iff. Qed.

Lemma is_ascii_app (a b : str) :
  is_ascii (a ++ b) = true <-> is_ascii a = true /\ is_ascii b = true.
Proof. unfold is_ascii. rewrite forallb_app. apply andb_true_iff. Qed.

Lemma is_ascii_In (s : str) (c : N) :
  is_ascii s = true -> In c s -> (c <? 128) = true.
Proof. unfold is_ascii. rewrite forallb_forall. auto. Qed.

Lemma is_ascii_of_text_In (t : Text.text) (c : ascii) :
  is_ascii (of_text t) = true -> In c t -> (code_point c <? 128) = true.
Proof. intros H Hc. apply (is_ascii_In _ _ H). now apply in_map. Qed.

(** A text made of characters of an ASCII text is ASCII. *)
Lemma is_ascii_incl (a b : Text.text) :
  incl a b -> is_ascii (of_text b) = true -> is_ascii (of_text a) = true.
Proof.
  intros Hi Hb. unfold is_ascii. apply forallb_forall. intros x Hx.
  apply in_map_iff in Hx as (c & <- & Hc).
  apply (is_ascii_of_text_In b); auto.
Qed.

(** The character classes and the case maps on the ASCII range. *)
Lemma isspace_ascii (c : ascii) :
  (code_point c <? 128) = true -> isspace (code_point c) = Text.is_space c.
Proof.
  destruct c as [[|] [|] [|] [|] [|] [|] [|] [|]]; intros H;
    vm_compute in H; try discriminate H; vm_compute; reflexivity.
Qed.

Lemma is_word_ascii (c : ascii) :
  (code_point c <? 128) = true -> is_word (code_point c) = Text.is_word c.
Proof.
  destruct c as [[|] [|] [|] [|] [|] [|] [|] [|]]; intros H;
    vm_compute in H; try discriminate H; vm_compute; reflexivity.
Qed.

Lemma upper_char_ascii (c : ascii) :
  (code_point c <? 128) = true ->
  upper_char (code_point c) = [code_point (Text.upper_char c)].
Proof.
  destruct c as [[|] [|] [|] [|] [|] [|] [|] [|]]; intros H;
    vm_compute in H; try discriminate H; vm_compute; reflexivity.
Qed.

Lemma upper_char_stays_ascii (c : ascii) :
  (code_point c <? 128) = true ->
  (code_point (Text.upper_char c) <? 128) = true.
Proof.
  destruct c as [[|] [|] [|] [|] [|] [|] [|] [|]]; intros H;
    vm_compute in H; try discriminate H; vm_compute; reflexivity.
Qed.

Lemma capital_code_point (c : ascii) :
  capital (code_point c) = code_point (Text.upper_char c).
Proof. destruct c as [[|] [|] [|] [|] [|] [|] [|] [|]]; vm_compute; reflexivity. Qed.

Lemma lower_letter_code_point (c : ascii) :
  lower_letter (code_point c) = code_point (Text.lower_char c).
Proof. destruct c as [[|] [|] [|] [|] [|] [|] [|] [|]]; vm_compute; reflexivity. Qed.

Lemma capital_of_text (t : Text.text) :
  map capital (of_text t) = of_text (Text.upper t).
Proof.
  unfold of_text, Text.upper. rewrite !map_map.
  apply map_ext. intros c. apply capital_code_point.
Qed.

Lemma lower_letter_of_text (t : Text.text) :
  map lower_letter (of_text t) = of_text (Text.lower t).
Proof.
  unfold of_text, Text.lower. rewrite !map_map.
  apply map_ext. intros c. apply lower_letter_code_point.
Qed.

(** [str.upper] on ASCII text. *)
Lemma upper_of_text (t : Text.text) :
  is_ascii (of_text t) = true -> upper (of_text t) = of_text (Text.upper t).
Proof.
  induction t as [|c t IH]; [reflexivity|].
  cbn [of_text map]. fold (of_text t). intros H.
  apply is_ascii_cons in H as [Hc Ht].
  unfold upper. cbn [flat_map]. fold (upper (of_text t)).
  rewrite (upper_char_ascii c Hc), (IH Ht). reflexivity.
Qed.

Lemma upper_stays_ascii (t : Text.text) :
  is_ascii (of_text t) = true -> is_ascii (of_text (Text.upper t)) = true.
Proof.
  induction t as [|c t IH]; [reflexivity|].
  cbn [of_text map Text.upper]. fold (of_text t). fold (Text.upper t).
  fold (of_text (Text.upper t)).
  intros H. apply is_ascii_cons in H as [Hc Ht]. apply is_ascii_cons.
  split; [now apply upper_char_stays_ascii | now apply IH].
Qed.

Lemma drop_while_of_text (p : ascii -> bool) (q : N -> bool) (t : Text.text) :
  (forall c, In c t -> q (code_point c) = p c) ->
  drop_while q (of_text t) = of_text (Text.drop_while p t).
Proof.
  induction t as [|c t IH]; intros H; [reflexivity|].
  cbn [of_text map drop_while Text.drop_while]. fold (of_text t).
  rewrite (H c (or_introl eq_refl)).
  destruct (p c); [|reflexivity].
  apply IH. intros x Hx. apply H. now right.
Qed.

Lemma take_while_of_text (p : ascii -> bool) (q : N -> bool) (t : Text.text) :
  (forall c, In c t -> q (code_point c) = p c) ->
  take_while q (of_text t) = of_text (Text.take_while p t).
Proof.
  induction t as [|c t IH]; intros H; [reflexivity|].
  cbn [of_text map take_while Text.take_while]. fold (of_text t).
  rewrite (H c (or_introl eq_refl)).
  destruct (p c); [|reflexivity].
  cbn [map]. f_equal. apply IH. intros x Hx. apply H. now right.
Qed.

Lemma isspace_on_ascii (t : Text.text) :
  is_ascii (of_text t) = true ->
  forall c, In c t -> isspace (code_point c) = Text.is_space c.
Proof. intros H c Hc. apply isspace_ascii. now apply (is_ascii_of_text_In t). Qed.

Lemma drop_while_incl (p : ascii -> bool) (t : Text.text) :
  incl (Text.drop_while p t) t.
Proof.
  induction t as [|c t IH]; [apply incl_refl|].
  cbn [Text.drop_while]. destruct (p c); [|apply incl_refl].
  now apply incl_tl.
Qed.

Lemma take_while_incl (p : ascii -> bool) (t : Text.text) :
  incl (Text.take_while p t) t.
Proof.
  induction t as [|c t IH]; [apply incl_refl|].
  cbn [Text.take_while]. destruct (p c); [|apply incl_nil_l].
  apply incl_cons; [now left | now apply incl_tl].
Qed.

Lemma rev_incl (t : Text.text) : incl (rev t) t.
Proof. intros x Hx. now apply in_rev. Qed.

Lemma lstrip_incl (t : Text.text) : incl (Text.lstrip t) t.
Proof. apply drop_while_incl. Qed.

Lemma rstrip_incl (t : Text.text) : incl (Text.rstrip t) t.
Proof.
  unfold Text.rstrip. intros x Hx. apply in_rev in Hx.
  apply drop_while_incl in Hx. now apply in_rev.
Qed.

Lemma strip_incl (t : Text.text) : incl (Text.strip t) t.
Proof.
  unfold Text.strip. eapply incl_tran; [apply rstrip_incl | apply lstrip_incl].
Qed.

Lemma lstrip_of_text (t : Text.text) :
  is_ascii (of_text t) = true -> lstrip (of_text t) = of_text (Text.lstrip t).
Proof. intros H. apply drop_while_of_text. now apply isspace_on_ascii. Qed.

Lemma rstrip_of_text (t : Text.text) :
  is_ascii (of_text t) = true -> rstrip (of_text t) = of_text (Text.rstrip t).
Proof.
  intros H. unfold rstrip, Text.rstrip.
  rewrite <- of_text_rev, (drop_while_of_text Text.is_space).
  - now rewrite of_text_rev.
  - apply isspace_on_ascii. apply (is_ascii_incl _ t); [apply rev_incl | exact H].
Qed.

(** [str.strip] on ASCII text. *)
Lemma strip_of_text (t : Text.text) :
  is_ascii (of_text t) = true -> strip (of_text t) = of_text (Text.strip t).
Proof.
  intros H. unfold strip, Text.strip. rewrite (lstrip_of_text t H).
  apply rstrip_of_text. apply (is_ascii_incl _ t); [apply lstrip_incl | exact H].
Qed.

Lemma starts_with_of_text (p s : Text.text) :
  starts_with (of_text p) (of_text s) = Text.starts_with p s.
Proof.
  revert s. induction p as [|a p IH]; intros s; [reflexivity|].
  destruct s as [|c s]; [reflexivity|].
  cbn [of_text map starts_with Text.starts_with]. fold (of_text p). fold (of_text s).
  now rewrite code_point_eqb, IH.
Qed.

Lemma contains_of_text (p s : Text.text) :
  contains (of_text p) (of_text s) = Text.contains p s.
Proof.
  induction s as [|c s IH].
  - cbn [of_text map contains Text.contains].
    change (@nil N) with (of_text []). now rewrite starts_with_of_text.
  - change (of_text (c :: s)) with (code_point c :: of_text s).
    cbn [contains Text.contains].
    change (code_point c :: of_text s) with (of_text (c :: s)).
    now rewrite starts_with_of_text, IH.
Qed.

Lemma eqb_of_text (a b : Text.text) :
  eqb (of_text a) (of_text b) = true <-> a = b.
Proof.
  revert b. induction a as [|x a IH]; intros [|y b]; cbn [of_text map eqb];
    try (split; [discriminate | discriminate]); [split; reflexivity|].
  fold (of_text a). fold (of_text b).
  rewrite andb_true_iff, code_point_eqb, IH. split.
  - intros [Hx ->]. apply Ascii.eqb_eq in Hx. now subst.
  - intros H. injection H as -> ->. split; [apply Ascii.eqb_refl | reflexivity].
Qed.

End AsciiFacts.

(* ===================================================================== *)
(** * The category scan on every string                                   *)
(* ===================================================================== *)

Module UnicodeCategories.
Import Unicode.
Local Open Scope N_scope.
Local Open Scope list_scope.

Lemma starts_with_prefix (p r : str) : starts_with p (p ++ r) = true.
Proof.
  induction p as [|a p IH]; [reflexivity|].
  cbn [app starts_with]. now rewrite N.eqb_refl, IH.
Qed.

Lemma starts_with_cut (p s : str) :
  starts_with p s = true -> exists r, s = p ++ r.
Proof.
  revert s; induction p as [|a p IH]; intros s H.
  - now exists s.
  - destruct s as [|c s]; cbn [starts_with] in H; [discriminate|].
    apply andb_true_iff in H as [Hc Hs].
    apply N.eqb_eq in Hc; subst c.
    destruct (IH _ Hs) as [r ->]. now exists r.
Qed.

Lemma skipn_prefix (p r : str) : skipn (List.length p) (p ++ r) = r.
Proof. induction p; cbn [List.length skipn app]; auto. Qed.

Lemma take_drop (p : N -> bool) (s : str) :
  take_while p s ++ drop_while p s = s.
Proof.
  induction s as [|c r IH]; [reflexivity|].
  cbn [take_while drop_while]. destruct (p c); [|reflexivity].
  cbn [app]. now rewrite IH.
Qed.

Lemma take_while_forall (p : N -> bool) (s : str) :
  forallb p (take_while p s) = true.
Proof.
  induction s as [|c r IH]; [reflexivity|].
  cbn [take_while]. destruct (p c) eqn:E; [|reflexivity].
  cbn [forallb]. now rewrite E.
Qed.

Lemma drop_while_stops (p : N -> bool) (s : str) (c : N) (r : str) :
  drop_while p s = c :: r -> p c = false.
Proof.
  induction s as [|d s IH]; cbn [drop_while]; [discriminate|].
  destruct (p d) eqn:E; [exact IH|].
  intros H. injection H as -> _. exact E.
Qed.

Lemma take_while_run (p : N -> bool) (a : str) (c : N) (r : str) :
  forallb p a = true -> p c = false -> take_while p (a ++ c :: r) = a.
Proof.
  intros Ha Hc. induction a as [|x a IH]; cbn [app take_while forallb] in *.
  - now rewrite Hc.
  - apply andb_true_iff in Ha as [Hx Ha]. now rewrite Hx, IH.
Qed.

Lemma drop_while_run (p : N -> bool) (a : str) (c : N) (r : str) :
  forallb p a = true -> p c = false -> drop_while p (a ++ c :: r) = c :: r.
Proof.
  intros Ha Hc. induction a as [|x a IH]; cbn [app drop_while forallb] in *.
  - now rewrite Hc.
  - apply andb_true_iff in Ha as [Hx Ha]. now rewrite Hx, IH.
Qed.

Lemma category_filter_parts (s name s1 ws1 s2 ws2 s3 lit s4 : str) :
  s = name ++ s1 ->
  s1 = ws1 ++ code_point "=" :: s2 ->
  s2 = ws2 ++ quote :: s3 ->
  s3 = lit ++ quote :: s4 ->
  s = category_filter name ws1 ws2 lit ++ s4.
Proof.
  intros -> -> -> ->. unfold category_filter.
  repeat (rewrite <- app_assoc; cbn [app]). reflexivity.
Qed.

Lemma isspace_equals : isspace (code_point "=") = false.
Proof. vm_compute. reflexivity. Qed.

Lemma isspace_quote : isspace quote = false.
Proof. vm_compute. reflexivity. Qed.

(** A match of the pattern at the head of [s] is a category filter
    that [s] begins with; its literal is the captured group. *)
Lemma match_at_is_filter (s lit : str) (n : nat) :
  match_category_at s = Some (lit, n) ->
  exists occ post,
    s = occ ++ post /\ is_category_filter lit occ /\ n = List.length occ.
Proof.
  unfold match_category_at.
  set (kw := of_string "category").
  assert (E0 : s = firstn (List.length kw) s ++ skipn (List.length kw) s)
    by (symmetry; apply firstn_skipn).
  assert (L0 : (List.length (firstn (List.length kw) s) <= List.length kw)%nat)
    by (rewrite length_firstn; lia).
  revert E0 L0.
  generalize (firstn (List.length kw) s) as name.
  generalize (skipn (List.length kw) s) as s1.
  intros s1 name E0 L0.
  destruct (starts_with kw (map lower_letter name)) eqn:Hs; [|discriminate].
  destruct (drop_while isspace s1) as [|e s2] eqn:D1; [discriminate|].
  destruct (e =? code_point "=") eqn:He; [|discriminate].
  apply N.eqb_eq in He; subst e.
  destruct (drop_while isspace s2) as [|q s3] eqn:D2; [discriminate|].
  destruct (q =? quote) eqn:Hq; [|discriminate].
  apply N.eqb_eq in Hq; subst q.
  destruct (take_while not_quote s3) as [|l0 l] eqn:T; [discriminate|].
  destruct (drop_while not_quote s3) as [|q' s4] eqn:D3; [discriminate|].
  intros H. injection H as Hlit Hn.
  assert (Hq' : q' = quote).
  { apply drop_while_stops in D3. unfold not_quote in D3.
    apply negb_false_iff in D3. now apply N.eqb_eq. }
  subst q'.
  assert (Hname : map lower_letter name = kw).
  { destruct (starts_with_cut _ _ Hs) as [r E].
    assert (L : (List.length (map lower_letter name) <= List.length kw)%nat)
      by now rewrite length_map.
    rewrite E, length_app in L. destruct r; [|cbn [List.length] in L; lia].
    now rewrite app_nil_r in E. }
  assert (E3 : s3 = lit ++ quote :: s4)
    by (now rewrite <- Hlit, <- T, <- D3, take_drop).
  assert (E2 : s2 = take_while isspace s2 ++ quote :: s3)
    by (now rewrite <- D2, take_drop).
  assert (E1 : s1 = take_while isspace s1 ++ code_point "=" :: s2)
    by (now rewrite <- D1, take_drop).
  exists (category_filter name (take_while isspace s1)
                          (take_while isspace s2) lit), s4.
  split; [|split].
  - eapply category_filter_parts; eauto.
  - exists name, (take_while isspace s1), (take_while isspace s2).
    repeat split; auto using take_while_forall.
    + rewrite <- Hlit. discriminate.
    + rewrite <- Hlit, <- T. apply take_while_forall.
  - assert (L : List.length name = List.length kw).
    { rewrite <- Hname. now rewrite length_map. }
    unfold category_filter.
    repeat (rewrite length_app || cbn [List.length]).
    rewrite <- Hn, <- Hlit, L. cbn [List.length].
    change (List.length kw) with 8%nat. lia.
Qed.

(** Every literal the scan extracts is the literal of a category
    filter that the text holds. *)
Lemma findall_from_filters (lit : str) :
  forall (s : str) (skip : nat),
    In lit (findall_category_from skip s) -> filters_on s lit.
Proof.
  induction s as [|c r IH]; intros skip H; [destruct H|].
  assert (Hr : forall k, In lit (findall_category_from k r) ->
                         filters_on (c :: r) lit).
  { intros k Hk. destruct (IH k Hk) as (pre & occ & post & -> & Hf).
    now exists (c :: pre), occ, post. }
  cbn [findall_category_from] in H. destruct skip as [|k]; [|eauto].
  destruct (match_category_at (c :: r)) as [[lit' n]|] eqn:M; [|eauto].
  destruct H as [<- | H]; [|eauto].
  apply match_at_is_filter in M as (occ & post & E & Hf & _).
  exists [], occ, post. auto.
Qed.

(** A text that begins with a category filter matches the pattern at
    its head, with the literal of the filter as the captured group. *)
Lemma filter_is_matched (lit occ post : str) :
  is_category_filter lit occ ->
  match_category_at (occ ++ post) = Some (lit, List.length occ).
Proof.
  intros (name & ws1 & ws2 & -> & Hname & H1 & H2 & Hne & Hq).
  assert (L : List.length name = 8%nat).
  { apply (f_equal (@List.length _)) in Hname.
    now rewrite length_map in Hname. }
  assert (Hquote : not_quote quote = false) by reflexivity.
  set (tail := ws1 ++ code_point "=" :: ws2 ++ quote :: lit ++ quote :: post).
  assert (E : category_filter name ws1 ws2 lit ++ post = name ++ tail).
  { unfold category_filter, tail.
    repeat (rewrite <- app_assoc; cbn [app]). reflexivity. }
  assert (F1 : firstn 8 (name ++ tail) = name).
  { rewrite <- L. rewrite firstn_app, Nat.sub_diag, firstn_all.
    apply app_nil_r. }
  assert (F2 : skipn 8 (name ++ tail) = tail).
  { rewrite <- L. apply skipn_prefix. }
  unfold match_category_at.
  change (List.length (of_string "category")) with 8%nat.
  rewrite E, F1, F2, Hname.
  change (starts_with (of_string "category") (of_string "category")) with true.
  cbv iota. unfold tail.
  rewrite (take_while_run isspace ws1), (drop_while_run isspace ws1);
    auto using isspace_equals.
  rewrite N.eqb_refl.
  rewrite (take_while_run isspace ws2), (drop_while_run isspace ws2);
    auto using isspace_quote.
  rewrite N.eqb_refl.
  rewrite (take_while_run not_quote lit), (drop_while_run not_quote lit);
    trivial.
  destruct lit as [|l0 l]; [now destruct Hne|].
  f_equal. f_equal. unfold category_filter.
  repeat (rewrite length_app || cbn [List.length]). lia.
Qed.

(** Once a match is taken, the scan resumes right after it. *)
Lemma findall_from_resumes (a b : str) :
  findall_category_from (List.length a) (a ++ b) = findall_category_from 0 b.
Proof.
  induction a as [|c a IH]; [reflexivity|]. exact IH.
Qed.

(** The scan takes the leftmost filter. *)
Lemma findall_from_leftmost (pre occ post lit : str) :
  is_category_filter lit occ ->
  (forall a b, pre = a ++ b -> b <> [] ->
               match_category_at (b ++ occ ++ post) = None) ->
  findall_category_from 0 (pre ++ occ ++ post)
  = lit :: findall_category_from 0 post.
Proof.
  intros Hf. induction pre as [|c pre IH]; intros Hnone.
  - pose proof (filter_is_matched _ _ post Hf) as M.
    destruct Hf as (name & ws1 & ws2 & E & Hname & _).
    destruct occ as [|o occ'].
    { destruct name; [discriminate Hname | discriminate E]. }
    cbn [app] in *. cbn [findall_category_from]. rewrite M.
    replace (List.length (o :: occ') - 1)%nat with (List.length occ')
      by (cbn [List.length]; lia).
    now rewrite findall_from_resumes.
  - pose proof (Hnone [] (c :: pre) eq_refl ltac:(discriminate)) as M.
    cbn [app] in M. cbn [app findall_category_from]. rewrite M.
    apply IH. intros a b -> Hb. now apply (Hnone (c :: a) b).
Qed.

(** The scan misses no filter, except one that begins inside an
    earlier match of the pattern. *)
Lemma findall_from_misses (lit occ post : str) :
  is_category_filter lit occ ->
  forall (pre : str) (skip : nat),
    (skip <= List.length pre)%nat ->
    In lit (findall_category_from skip (pre ++ occ ++ post))
    \/ shadowed pre (occ ++ post).
Proof.
  intros Hf. induction pre as [|c pre IH]; intros skip Hskip.
  - left. assert (skip = 0%nat) as -> by (cbn [List.length] in Hskip; lia).
    rewrite (findall_from_leftmost [] occ post lit Hf).
    + now left.
    + intros a b E Hb. symmetry in E. apply app_eq_nil in E as [_ ->].
      now destruct Hb.
  - assert (Hlater : forall k, (k <= List.length pre)%nat ->
              In lit (findall_category_from k (pre ++ occ ++ post))
              \/ shadowed (c :: pre) (occ ++ post)).
    { intros k Hk. destruct (IH k Hk) as [H | (a & b & l & m & -> & Hb & M & Hm)].
      - now left.
      - right. now exists (c :: a), b, l, m. }
    cbn [app findall_category_from]. destruct skip as [|k].
    + destruct (match_category_at (c :: pre ++ occ ++ post))
        as [[lit' m]|] eqn:M.
      * destruct (Nat.le_gt_cases (m - 1) (List.length pre)) as [Hm | Hm].
        -- destruct (Hlater (m - 1)%nat Hm) as [H | H];
             [left; now right | now right].
        -- right. exists [], (c :: pre), lit', m.
           repeat split; trivial; [discriminate | cbn [List.length]; lia].
      * apply Hlater. lia.
    + apply Hlater. cbn [List.length] in Hskip. lia.
Qed.

Lemma eqb_eq (a b : str) : eqb a b = true <-> a = b.
Proof.
  revert b. induction a as [|x a IH]; intros [|y b]; cbn [eqb];
    try (split; discriminate); [split; reflexivity|].
  rewrite andb_true_iff, N.eqb_eq, IH. split.
  - now intros [-> ->].
  - intros H. now injection H as -> ->.
Qed.

Lemma not_allowed_iff (cat : str) : not_allowed cat = true <-> ~ allowed cat.
Proof.
  unfold not_allowed, allowed. rewrite negb_true_iff. split.
  - intros H Hin. apply in_map_iff in Hin as (a & <- & Hin).
    assert (E : existsb (fun allowed => eqb (of_string a) (of_string allowed))
                        Config.ALLOWED_CATEGORIES = true).
    { apply existsb_exists. exists a. split; trivial. now apply eqb_eq. }
    rewrite H in E. discriminate.
  - intros Hn. destruct (existsb _ _) eqn:E; trivial.
    apply existsb_exists in E as (a & Hin & Ha).
    apply eqb_eq in Ha. subst cat. destruct Hn. now apply in_map.
Qed.

(** The category loop raises on the first extracted literal outside
    the allow-list, and returns when there is none. *)
Lemma check_categories_verdict (clean : str) :
  (exists cat, In cat (findall_category clean)
               /\ ~ allowed cat
               /\ check_categories clean = ValueError (category_message cat))
  \/ ((forall cat, In cat (findall_category clean) -> allowed cat)
      /\ check_categories clean = passes).
Proof.
  unfold check_categories.
  destruct (List.find not_allowed (findall_category clean)) as [cat|] eqn:F.
  - left. exists cat. apply find_some in F as [Hin Hb].
    apply not_allowed_iff in Hb. auto.
  - right. split; trivial. intros cat Hin.
    pose proof (find_none _ _ F cat Hin) as Hb.
    destruct (not_allowed cat) eqn:E; [discriminate|].
    unfold not_allowed in E. apply negb_false_iff in E.
    apply existsb_exists in E as (a & Ha & Hab). apply eqb_eq in Hab.
    subst cat. unfold allowed. now apply in_map.
Qed.

(** C5, amended.  For every text that passed the keyword check and the
    SELECT check: every literal the validator extracts is the literal,
    taken as it is written, of a category filter of the
    comment-stripped text, and the literal of every such filter is
    extracted, but for a filter that begins inside an earlier match of
    the pattern; the validator rejects exactly when some extracted
    literal is outside the allow-list, and then names such a literal;
    and when every extracted literal is in the allow-list the text
    passes. *)
Theorem extracted_category_allow_list (sql : str) :
  let clean := strip_comments sql in
  check_keywords (upper clean) = passes ->
  check_select clean = passes ->
  (forall cat, In cat (findall_category clean) -> filters_on clean cat)
  /\ (forall pre occ post cat,
        clean = pre ++ occ ++ post ->
        is_category_filter cat occ ->
        In cat (findall_category clean) \/ shadowed pre (occ ++ post))
  /\ ((exists msg, _validate_sql sql = ValueError msg)
      <-> (exists cat, In cat (findall_category clean) /\ ~ allowed cat))
  /\ (forall msg, _validate_sql sql = ValueError msg ->
                  exists cat, msg = category_message cat
                              /\ In cat (findall_category clean)
                              /\ ~ allowed cat)
  /\ ((forall cat, In cat (findall_category clean) -> allowed cat) ->
      _validate_sql sql = passes).
Proof.
  intros clean Hk Hs. unfold _validate_sql. fold clean.
  rewrite Hk, Hs. cbn [and_then passes].
  split; [intros cat; apply findall_from_filters|].
  split.
  { intros pre occ post cat E Hf. rewrite E. unfold findall_category.
    apply (findall_from_misses _ _ post Hf pre 0%nat (Nat.le_0_l _)). }
  destruct (check_categories_verdict clean)
    as [(cat & Hin & Hn & ->) | (Hall & ->)].
  - split; [|split].
    + split; [intros _; now exists cat | intros _; now eexists].
    + intros msg H. injection H as <-. now exists cat.
    + intros Hall. destruct (Hn (Hall cat Hin)).
  - split; [|split].
    + split; [intros [msg H]; discriminate H|].
      intros (cat & Hin & Hn). destruct (Hn (Hall cat Hin)).
    + intros msg H. discriminate H.
    + reflexivity.
Qed.

(** The theorem at a filter on a category that is not stored. *)
Lemma extracted_category_allow_list_witness :
  let sql := of_string "SELECT * FROM issue_analytics WHERE category = 'Sidewalks'" in
  let clean := strip_comments sql in
  check_keywords (upper clean) = passes
  /\ check_select clean = passes
  /\ exists msg, _validate_sql sql = ValueError msg.
Proof.
  intros sql clean.
  assert (Hk : check_keywords (upper clean) = passes) by (vm_compute; reflexivity).
  assert (Hs : check_select clean = passes) by (vm_compute; reflexivity).
  split; [exact Hk|]. split; [exact Hs|].
  apply (proj1 (proj2 (proj2 (extracted_category_allow_list sql Hk Hs)))).
  exists (of_string "Sidewalks"). split.
  - vm_compute. auto.
  - intros H. apply not_allowed_iff in H; [exact H|]. vm_compute. reflexivity.
Defined.

(** A no-break space is a blank for the pattern, and the column name
    may be written in any letter case. *)
Example nbsp_in_filter_extracted :
  findall_category (of_string "SELECT 1 WHERE CATEGORY" ++ [0xA0]
                      ++ of_string "= 'Sidewalks'")
  = [of_string "Sidewalks"].
Proof. vm_compute. reflexivity. Qed.

(** C5 as it is stated does not hold: the scan does not extract the
    literal of every category filter.  In [quoted_filter] the pattern
    first matches inside the quoted title, from [category=] to the
    quote that opens the literal of the filter on the category; the scan
    resumes behind that quote, so the one literal extracted is the text
    between the two quotes and the literal [Sidewalks] of the filter is
    never read. *)
Lemma shadowed_filter_missed :
  filters_on (strip_comments quoted_filter) (of_string "Sidewalks")
  /\ findall_category (strip_comments quoted_filter)
     = [of_string " AND category="]
  /\ ~ In (of_string "Sidewalks")
          (findall_category (strip_comments quoted_filter)).
Proof.
  split; [|split].
  - exists (of_string "SELECT id FROM issue_analytics WHERE title = 'category=' AND "),
      (of_string "category='Sidewalks'"), [].
    split; [vm_compute; reflexivity|].
    exists (of_string "category"), [], [].
    repeat split; try (vm_compute; reflexivity). discriminate.
  - vm_compute. reflexivity.
  - intros H. vm_compute in H. destruct H as [H | []]. discriminate H.
Qed.

(** The validator still rejects that text, for the literal it read. *)
Example shadowed_filter_verdict :
  _validate_sql quoted_filter
  = ValueError (category_message (of_string " AND category=")).
Proof. vm_compute. reflexivity. Qed.

End UnicodeCategories.

(* ===================================================================== *)
(** * The validator on ASCII text, in the two models                      *)
(* ===================================================================== *)

Module ValidatorBridge.
Import Unicode AsciiFacts.
Local Open Scope N_scope.
Local Open Scope list_scope.

Lemma length_of_text (t : Text.text) : List.length (of_text t) = List.length t.
Proof. apply length_map. Qed.

Lemma firstn_of_text (n : nat) (t : Text.text) :
  firstn n (of_text t) = of_text (firstn n t).
Proof. apply firstn_map. Qed.

Lemma skipn_of_text (n : nat) (t : Text.text) :
  skipn n (of_text t) = of_text (skipn n t).
Proof. apply skipn_map. Qed.

Lemma hd_error_of_text (t : Text.text) :
  hd_error (of_text t) = option_map code_point (hd_error t).
Proof. now destruct t. Qed.

Lemma skipn_incl (n : nat) (t : Text.text) : incl (skipn n t) t.
Proof. intros x Hx. rewrite <- (firstn_skipn n t). apply in_or_app. now right. Qed.

(** ** The two substitutions *)

Lemma sub_line_comments_step (c d : N) (r : str) :
  sub_line_comments false (c :: d :: r)
  = if (c =? code_point "-") && (d =? code_point "-")
    then sub_line_comments true (d :: r)
    else c :: sub_line_comments false (d :: r).
Proof. reflexivity. Qed.

Lemma sub_line_comments_of_text (t : Text.text) (b : bool) :
  sub_line_comments b (of_text t)
  = of_text (QueryExecutor.sub_line_comments b t).
Proof.
  revert b. induction t as [|c r IH]; intros b; [reflexivity|].
  destruct b.
  - change (of_text (c :: r)) with (code_point c :: of_text r).
    cbn [sub_line_comments QueryExecutor.sub_line_comments].
    change newline with (code_point QueryExecutor.newline).
    rewrite code_point_eqb.
    destruct (Ascii.eqb c QueryExecutor.newline).
    + now rewrite IH.
    + apply IH.
  - destruct r as [|d r']; [reflexivity|].
    change (of_text (c :: d :: r'))
      with (code_point c :: code_point d :: of_text r').
    rewrite sub_line_comments_step, !code_point_eqb.
    change (code_point d :: of_text r') with (of_text (d :: r')).
    rewrite !IH.
    change (QueryExecutor.sub_line_comments false (c :: d :: r'))
      with (if Ascii.eqb c "-" && Ascii.eqb d "-"
            then QueryExecutor.sub_line_comments true (d :: r')
            else c :: QueryExecutor.sub_line_comments false (d :: r')).
    now destruct (Ascii.eqb c "-" && Ascii.eqb d "-").
Qed.

Lemma sub_line_comments_incl (t : Text.text) (b : bool) :
  incl (QueryExecutor.sub_line_comments b t) t.
Proof.
  revert b. induction t as [|c r IH]; intros b; [apply incl_refl|].
  destruct b.
  - cbn [QueryExecutor.sub_line_comments].
    destruct (Ascii.eqb c QueryExecutor.newline).
    + apply incl_cons; [now left | apply incl_tl, IH].
    + apply incl_tl, IH.
  - destruct r as [|d r']; [apply incl_refl|].
    change (QueryExecutor.sub_line_comments false (c :: d :: r'))
      with (if Ascii.eqb c "-" && Ascii.eqb d "-"
            then QueryExecutor.sub_line_comments true (d :: r')
            else c :: QueryExecutor.sub_line_comments false (d :: r')).
    destruct (Ascii.eqb c "-" && Ascii.eqb d "-").
    + apply incl_tl, IH.
    + apply incl_cons; [now left | apply incl_tl, IH].
Qed.

Lemma block_end_of_text (t : Text.text) :
  block_end (of_text t) = QueryExecutor.block_end t.
Proof.
  induction t as [|c r IH]; [reflexivity|].
  destruct r as [|d r']; [reflexivity|].
  change (block_end (of_text (c :: d :: r')))
    with (if (code_point c =? code_point "*") && (code_point d =? code_point "/")
          then Some 2%nat
          else option_map S (block_end (of_text (d :: r')))).
  change (QueryExecutor.block_end (c :: d :: r'))
    with (if Ascii.eqb c "*" && Ascii.eqb d "/"
          then Some 2%nat
          else option_map S (QueryExecutor.block_end (d :: r'))).
  now rewrite !code_point_eqb, IH.
Qed.

Lemma sub_block_comments_of_text (t : Text.text) (skip : nat) :
  sub_block_comments skip (of_text t)
  = of_text (QueryExecutor.sub_block_comments skip t).
Proof.
  revert skip. induction t as [|c r IH]; intros skip; [reflexivity|].
  destruct skip as [|k]; [|apply IH].
  destruct r as [|d r']; [reflexivity|].
  change (sub_block_comments 0 (of_text (c :: d :: r')))
    with (if (code_point c =? code_point "/") && (code_point d =? code_point "*")
          then match block_end (of_text r') with
               | Some n => sub_block_comments (S n) (of_text (d :: r'))
               | None => code_point c :: sub_block_comments 0 (of_text (d :: r'))
               end
          else code_point c :: sub_block_comments 0 (of_text (d :: r'))).
  change (QueryExecutor.sub_block_comments 0 (c :: d :: r'))
    with (if Ascii.eqb c "/" && Ascii.eqb d "*"
          then match QueryExecutor.block_end r' with
               | Some n => QueryExecutor.sub_block_comments (S n) (d :: r')
               | None => c :: QueryExecutor.sub_block_comments 0 (d :: r')
               end
          else c :: QueryExecutor.sub_block_comments 0 (d :: r')).
  rewrite !code_point_eqb, block_end_of_text, !IH.
  destruct (Ascii.eqb c "/" && Ascii.eqb d "*"); [|reflexivity].
  now destruct (QueryExecutor.block_end r').
Qed.

Lemma sub_block_comments_incl (t : Text.text) (skip : nat) :
  incl (QueryExecutor.sub_block_comments skip t) t.
Proof.
  revert skip. induction t as [|c r IH]; intros skip; [apply incl_refl|].
  destruct skip as [|k]; [|apply incl_tl, IH].
  destruct r as [|d r']; [apply incl_refl|].
  change (QueryExecutor.sub_block_comments 0 (c :: d :: r'))
    with (if Ascii.eqb c "/" && Ascii.eqb d "*"
          then match QueryExecutor.block_end r' with
               | Some n => QueryExecutor.sub_block_comments (S n) (d :: r')
               | None => c :: QueryExecutor.sub_block_comments 0 (d :: r')
               end
          else c :: QueryExecutor.sub_block_comments 0 (d :: r')).
  assert (K : incl (c :: QueryExecutor.sub_block_comments 0 (d :: r'))
                   (c :: d :: r'))
    by (apply incl_cons; [now left | apply incl_tl, IH]).
  destruct (Ascii.eqb c "/" && Ascii.eqb d "*"); [|exact K].
  destruct (QueryExecutor.block_end r'); [apply incl_tl, IH | exact K].
Qed.

(** Comment stripping does the same in the two models, on every text. *)
Lemma strip_comments_of_text (t : Text.text) :
  strip_comments (of_text t) = of_text (QueryExecutor.strip_comments t).
Proof.
  unfold strip_comments, QueryExecutor.strip_comments.
  now rewrite sub_line_comments_of_text, sub_block_comments_of_text.
Qed.

Lemma strip_comments_incl (t : Text.text) :
  incl (QueryExecutor.strip_comments t) t.
Proof.
  unfold QueryExecutor.strip_comments.
  eapply incl_tran; [apply sub_block_comments_incl | apply sub_line_comments_incl].
Qed.

Lemma strip_comments_ascii (t : Text.text) :
  is_ascii (of_text t) = true ->
  is_ascii (of_text (QueryExecutor.strip_comments t)) = true.
Proof. apply is_ascii_incl, strip_comments_incl. Qed.

Lemma strip_ascii (t : Text.text) :
  is_ascii (of_text t) = true -> is_ascii (of_text (Text.strip t)) = true.
Proof. apply is_ascii_incl, strip_incl. Qed.

(** ** The keyword search *)

Lemma is_word_opt_code_point (o : option ascii) :
  (forall c, o = Some c -> (code_point c <? 128) = true) ->
  is_word_opt (option_map code_point o) = Text.is_word_opt o.
Proof.
  destruct o as [c|]; [|reflexivity]. intros H.
  cbn [option_map is_word_opt Text.is_word_opt]. now apply is_word_ascii, H.
Qed.

Lemma word_boundary_code_point (a b : option ascii) :
  (forall c, a = Some c -> (code_point c <? 128) = true) ->
  (forall c, b = Some c -> (code_point c <? 128) = true) ->
  word_boundary (option_map code_point a) (option_map code_point b)
  = Text.word_boundary a b.
Proof.
  intros Ha Hb. unfold word_boundary, Text.word_boundary.
  now rewrite !is_word_opt_code_point.
Qed.

Lemma hd_error_ascii (t : Text.text) (c : ascii) :
  is_ascii (of_text t) = true -> hd_error t = Some c ->
  (code_point c <? 128) = true.
Proof.
  intros H E. apply (is_ascii_of_text_In t c H).
  destruct t; [discriminate|]. injection E as ->. now left.
Qed.

Lemma match_word_at_of_text (prev : option ascii) (kw s : Text.text) :
  (forall c, prev = Some c -> (code_point c <? 128) = true) ->
  is_ascii (of_text kw) = true -> is_ascii (of_text s) = true ->
  match_word_at (option_map code_point prev) (of_text kw) (of_text s)
  = QueryExecutor.match_word_at prev kw s.
Proof.
  intros Hp Hk Hs. unfold match_word_at, QueryExecutor.match_word_at.
  rewrite length_of_text, skipn_of_text, !hd_error_of_text, starts_with_of_text.
  rewrite <- of_text_rev.
  assert (E : match of_text (rev kw) with
              | c :: _ => Some c
              | [] => option_map code_point prev
              end
              = option_map code_point
                  (match rev kw with c :: _ => Some c | [] => prev end))
    by now destruct (rev kw).
  rewrite E.
  assert (A1 : forall c, hd_error s = Some c -> (code_point c <? 128) = true)
    by (intros c; now apply hd_error_ascii).
  assert (A2 : forall c, hd_error (skipn (List.length kw) s) = Some c ->
                         (code_point c <? 128) = true).
  { intros c. apply hd_error_ascii.
    apply (is_ascii_incl _ s); [apply skipn_incl | exact Hs]. }
  assert (A3 : forall c, match rev kw with c :: _ => Some c | [] => prev end
                         = Some c -> (code_point c <? 128) = true).
  { destruct (rev kw) as [|z k] eqn:R; [exact Hp|].
    intros c H. injection H as <-.
    apply (is_ascii_of_text_In kw z Hk). apply in_rev. rewrite R. now left. }
  now rewrite (word_boundary_code_point _ _ Hp A1),
    (word_boundary_code_point _ _ A3 A2).
Qed.

Lemma search_word_from_of_text (kw s : Text.text) :
  is_ascii (of_text kw) = true -> is_ascii (of_text s) = true ->
  forall prev,
    (forall c, prev = Some c -> (code_point c <? 128) = true) ->
    search_word_from (option_map code_point prev) (of_text kw) (of_text s)
    = QueryExecutor.search_word_from prev kw s.
Proof.
  intros Hk. induction s as [|c r IH]; intros Hs prev Hp.
  - change (of_text []) with (@nil N).
    cbn [search_word_from QueryExecutor.search_word_from].
    change (@nil N) with (of_text []). now rewrite match_word_at_of_text.
  - pose proof Hs as Hs'.
    change (of_text (c :: r)) with (code_point c :: of_text r) in Hs'.
    apply is_ascii_cons in Hs' as [Hc Hr].
    change (search_word_from (option_map code_point prev) (of_text kw)
              (of_text (c :: r)))
      with (match_word_at (option_map code_point prev) (of_text kw)
              (of_text (c :: r))
            || search_word_from (option_map code_point (Some c)) (of_text kw)
                 (of_text r)).
    cbn [QueryExecutor.search_word_from].
    rewrite (match_word_at_of_text prev kw (c :: r) Hp Hk Hs).
    rewrite (IH Hr (Some c)); [reflexivity|].
    intros x H. now injection H as <-.
Qed.

Lemma search_word_of_text (kw s : Text.text) :
  is_ascii (of_text kw) = true -> is_ascii (of_text s) = true ->
  search_word (of_text kw) (of_text s) = QueryExecutor.search_word kw s.
Proof.
  intros Hk Hs. unfold search_word, QueryExecutor.search_word.
  change (@None N) with (option_map code_point None).
  apply search_word_from_of_text; trivial. discriminate.
Qed.

Lemma dangerous_keywords_ascii (kw : string) :
  In kw QueryExecutor.DANGEROUS_KEYWORDS -> is_ascii (of_string kw) = true.
Proof.
  assert (H : forallb (fun k => is_ascii (of_string k))
                      QueryExecutor.DANGEROUS_KEYWORDS = true) by reflexivity.
  rewrite forallb_forall in H. apply H.
Qed.

Lemma find_ext_in {A : Type} (f g : A -> bool) (l : list A) :
  (forall x, In x l -> f x = g x) -> List.find f l = List.find g l.
Proof.
  induction l as [|a l IH]; intros H; [reflexivity|].
  cbn [List.find]. rewrite (H a (or_introl eq_refl)).
  destruct (g a); [reflexivity|]. apply IH. intros x Hx. apply H. now right.
Qed.

Lemma forbidden_keyword_message_of_string (kw : string) :
  forbidden_keyword_message kw
  = of_string (QueryExecutor.forbidden_keyword_message kw).
Proof.
  unfold forbidden_keyword_message, QueryExecutor.forbidden_keyword_message.
  now rewrite !of_string_append.
Qed.

Lemma check_keywords_of_text (u : Text.text) :
  is_ascii (of_text u) = true ->
  check_keywords (of_text u) = of_result (QueryExecutor.check_keywords u).
Proof.
  intros Hu. unfold check_keywords, QueryExecutor.check_keywords.
  rewrite (find_ext_in _
             (fun keyword => QueryExecutor.search_word (Text.of_string keyword) u)).
  - destruct (List.find _ QueryExecutor.DANGEROUS_KEYWORDS) as [kw|];
      [|reflexivity].
    unfold ValueError, raise, of_result. cbn [Analytics.exn_message].
    now rewrite forbidden_keyword_message_of_string.
  - intros kw Hin. unfold of_string. apply search_word_of_text; trivial.
    now apply dangerous_keywords_ascii.
Qed.

Lemma check_select_of_text (clean : Text.text) :
  is_ascii (of_text clean) = true ->
  check_select (of_text clean) = of_result (QueryExecutor.check_select clean).
Proof.
  intros H. unfold check_select, QueryExecutor.check_select.
  rewrite (strip_of_text _ H), (upper_of_text _ (strip_ascii _ H)).
  unfold of_string at 1. rewrite starts_with_of_text.
  now destruct (Text.starts_with _ _).
Qed.

(** ** The category scan *)

Lemma not_quote_code_point (c : ascii) :
  not_quote (code_point c) = QueryExecutor.not_quote c.
Proof.
  unfold not_quote, QueryExecutor.not_quote.
  change quote with (code_point QueryExecutor.quote).
  now rewrite code_point_eqb.
Qed.

Lemma match_category_at_of_text (s : Text.text) :
  is_ascii (of_text s) = true ->
  match_category_at (of_text s)
  = option_map (fun found => (of_text (fst found), snd found))
               (QueryExecutor.match_category_at s).
Proof.
  intros H. unfold match_category_at, QueryExecutor.match_category_at.
  unfold of_string.
  set (kw := Text.of_string "category").
  rewrite length_of_text, firstn_of_text, skipn_of_text,
    lower_letter_of_text, starts_with_of_text.
  destruct (Text.starts_with kw (Text.lower (firstn (List.length kw) s)));
    [|reflexivity].
  cbv zeta.
  set (s1 := skipn (List.length kw) s).
  assert (H1 : is_ascii (of_text s1) = true)
    by (apply (is_ascii_incl _ s); [apply skipn_incl | exact H]).
  rewrite (take_while_of_text Text.is_space isspace s1 (isspace_on_ascii _ H1)),
    (drop_while_of_text Text.is_space isspace s1 (isspace_on_ascii _ H1)).
  assert (I1 : incl (Text.drop_while Text.is_space s1) s1)
    by apply drop_while_incl.
  destruct (Text.drop_while Text.is_space s1) as [|e s2]; [reflexivity|].
  change (of_text (e :: s2)) with (code_point e :: of_text s2). cbv iota beta.
  rewrite code_point_eqb. destruct (Ascii.eqb e "="); [|reflexivity].
  assert (H2 : is_ascii (of_text s2) = true).
  { apply (is_ascii_incl _ s1); [|exact H1].
    intros x Hx. apply I1. now right. }
  rewrite (take_while_of_text Text.is_space isspace s2 (isspace_on_ascii _ H2)),
    (drop_while_of_text Text.is_space isspace s2 (isspace_on_ascii _ H2)).
  destruct (Text.drop_while Text.is_space s2) as [|q s3]; [reflexivity|].
  change (of_text (q :: s3)) with (code_point q :: of_text s3). cbv iota beta.
  change quote with (code_point QueryExecutor.quote).
  rewrite code_point_eqb. destruct (Ascii.eqb q QueryExecutor.quote); [|reflexivity].
  rewrite (take_while_of_text QueryExecutor.not_quote not_quote s3),
    (drop_while_of_text QueryExecutor.not_quote not_quote s3);
    try (intros c _; apply not_quote_code_point).
  destruct (Text.take_while QueryExecutor.not_quote s3) as [|l0 l];
    [reflexivity|].
  destruct (Text.drop_while QueryExecutor.not_quote s3) as [|q' s4];
    [reflexivity|].
  change (of_text (l0 :: l)) with (code_point l0 :: of_text l).
  change (of_text (q' :: s4)) with (code_point q' :: of_text s4).
  cbv iota beta. cbn [option_map fst snd].
  change (code_point l0 :: of_text l) with (of_text (l0 :: l)).
  now rewrite !length_of_text.
Qed.

Lemma findall_category_from_of_text (s : Text.text) :
  is_ascii (of_text s) = true ->
  forall skip,
    findall_category_from skip (of_text s)
    = map of_text (QueryExecutor.findall_category_from skip s).
Proof.
  induction s as [|c r IH]; intros H skip; [reflexivity|].
  pose proof H as H'.
  change (of_text (c :: r)) with (code_point c :: of_text r) in H'.
  apply is_ascii_cons in H' as [_ Hr].
  destruct skip as [|k]; [|apply (IH Hr)].
  change (findall_category_from 0 (of_text (c :: r)))
    with (match match_category_at (of_text (c :: r)) with
          | Some (lit, n) => lit :: findall_category_from (n - 1) (of_text r)
          | None => findall_category_from 0 (of_text r)
          end).
  change (QueryExecutor.findall_category_from 0 (c :: r))
    with (match QueryExecutor.match_category_at (c :: r) with
          | Some (lit, n) => lit :: QueryExecutor.findall_category_from (n - 1) r
          | None => QueryExecutor.findall_category_from 0 r
          end).
  rewrite (match_category_at_of_text _ H).
  destruct (QueryExecutor.match_category_at (c :: r)) as [[lit n]|];
    cbn [option_map fst snd map]; now rewrite (IH Hr).
Qed.

Lemma findall_category_of_text (s : Text.text) :
  is_ascii (of_text s) = true ->
  findall_category (of_text s)
  = map of_text (QueryExecutor.findall_category_from 0 s).
Proof. intros H. now apply findall_category_from_of_text. Qed.

Lemma of_string_to_string (lit : Text.text) :
  Text.of_string (Text.to_string lit) = lit.
Proof. apply list_ascii_of_string_of_list_ascii. Qed.

Lemma to_string_of_string (s : string) : Text.to_string (Text.of_string s) = s.
Proof. apply string_of_list_ascii_of_string. Qed.

Lemma eqb_allowed (lit : Text.text) (a : string) :
  eqb (of_text lit) (of_string a) = String.eqb (Text.to_string lit) a.
Proof.
  apply eq_true_iff_eq. unfold of_string. rewrite eqb_of_text, String.eqb_eq.
  split.
  - intros ->. apply to_string_of_string.
  - intros <-. symmetry. apply of_string_to_string.
Qed.

Lemma not_allowed_of_text (lit : Text.text) :
  not_allowed (of_text lit) = QueryExecutor.not_allowed (Text.to_string lit).
Proof.
  unfold not_allowed, QueryExecutor.not_allowed. f_equal.
  induction Config.ALLOWED_CATEGORIES as [|a l IH]; [reflexivity|].
  cbn [existsb]. now rewrite eqb_allowed, IH.
Qed.

Lemma category_message_of_text (lit : Text.text) :
  category_message (of_text lit)
  = of_string (QueryExecutor.category_message (Text.to_string lit)).
Proof.
  unfold category_message, QueryExecutor.category_message.
  now rewrite of_string_append, of_text_to_string.
Qed.

Lemma check_categories_of_text (clean : Text.text) :
  is_ascii (of_text clean) = true ->
  check_categories (of_text clean)
  = of_result (QueryExecutor.check_categories clean).
Proof.
  intros H. unfold check_categories, QueryExecutor.check_categories.
  rewrite (findall_category_of_text _ H). unfold QueryExecutor.findall_category.
  induction (QueryExecutor.findall_category_from 0 clean) as [|lit l IH];
    [reflexivity|].
  cbn [map List.find]. rewrite not_allowed_of_text.
  destruct (QueryExecutor.not_allowed (Text.to_string lit)); [|exact IH].
  unfold ValueError, raise, of_result. cbn [Analytics.exn_message].
  now rewrite category_message_of_text.
Qed.

(** On ASCII text the validator on code points gives the verdict of
    the validator of [QueryExecutor]. *)
Lemma validate_of_text (t : Text.text) :
  is_ascii (of_text t) = true ->
  _validate_sql (of_text t)
  = of_result (QueryExecutor._validate_sql (Text.to_string t)).
Proof.
  intros H. unfold _validate_sql, QueryExecutor._validate_sql.
  rewrite of_string_to_string, strip_comments_of_text.
  pose proof (strip_comments_ascii _ H) as Hc.
  set (clean := QueryExecutor.strip_comments t) in *.
  rewrite (upper_of_text _ Hc), (check_keywords_of_text _ (upper_stays_ascii _ Hc)),
    (check_select_of_text _ Hc), (check_categories_of_text _ Hc).
  destruct (QueryExecutor.check_keywords (Text.upper clean)) as [e|[]];
    [reflexivity|].
  destruct (QueryExecutor.check_select clean) as [e|[]]; [reflexivity|].
  reflexivity.
Qed.

End ValidatorBridge.

(* ===================================================================== *)
(** * Verdicts in the two models                                          *)
(* ===================================================================== *)

Module VerdictFacts.

Lemma of_result_passes (r : result unit) :
  Unicode.of_result r = Unicode.passes <-> r = ret tt.
Proof.
  destruct r as [e|[]]; split; intros H; try discriminate H; reflexivity.
Qed.

Lemma of_result_value_error (r : result unit) (m : string) :
  (forall e, r = raise e -> exists msg, e = ValueError msg) ->
  Unicode.of_result r = Unicode.ValueError (Unicode.of_string m)
  <-> r = raise (ValueError m).
Proof.
  intros Hv. destruct r as [e|[]].
  - destruct (Hv e eq_refl) as [msg ->]. split; intros H.
    + injection H as H. apply AsciiFacts.of_string_injective in H. now subst.
    + injection H as <-. reflexivity.
  - split; discriminate.
Qed.


Lemma validate_passes_iff (t : Text.text) :
  Unicode.is_ascii (Unicode.of_text t) = true ->
  Unicode._validate_sql (Unicode.of_text t) = Unicode.passes
  <-> QueryExecutor._validate_sql (Text.to_string t) = ret tt.
Proof.
  intros H. rewrite (ValidatorBridge.validate_of_text t H).
  apply of_result_passes.
Qed.

Lemma validate_keyword_iff (t : Text.text) (kw : string) :
  Unicode.is_ascii (Unicode.of_text t) = true ->
  Unicode._validate_sql (Unicode.of_text t)
  = Unicode.ValueError (Unicode.forbidden_keyword_message kw)
  <-> QueryExecutor._validate_sql (Text.to_string t)
      = raise (ValueError (QueryExecutor.forbidden_keyword_message kw)).
Proof.
  intros H. rewrite (ValidatorBridge.validate_of_text t H),
    ValidatorBridge.forbidden_keyword_message_of_string.
  apply of_result_value_error. apply ServiceFacts.validate_raises_value_error.
Qed.


End VerdictFacts.

(* ===================================================================== *)
(** * The validator on every string                                       *)
(* ===================================================================== *)

Module UnicodeValidator.
Import Unicode AsciiFacts ValidatorBridge VerdictFacts.
Local Open Scope N_scope.
Local Open Scope list_scope.

Lemma ascii_text (s : str) :
  is_ascii s = true ->
  exists t, s = of_text t /\ is_ascii (of_text t) = true.
Proof.
  intros H. exists (to_text s). now rewrite (of_text_to_text s H).
Qed.

Lemma spells_of_text (kw : string) (w : Text.text) :
  spells kw (of_text w) <-> Text.upper w = Text.of_string kw.
Proof.
  unfold spells, of_string. rewrite capital_of_text.
  split; [apply of_text_inj | now intros ->].
Qed.

Lemma last_or_of_text (pre : Text.text) :
  last_or None (of_text pre)
  = option_map code_point (Properties.last_or None pre).
Proof.
  unfold last_or, Properties.last_or. rewrite <- of_text_rev.
  now destruct (rev pre).
Qed.

Lemma last_or_In (pre : Text.text) (c : ascii) :
  Properties.last_or None pre = Some c -> In c pre.
Proof.
  unfold Properties.last_or. destruct (rev pre) as [|z k] eqn:R; [discriminate|].
  intros H. injection H as <-. apply in_rev. rewrite R. now left.
Qed.

Lemma hd_error_member (post : Text.text) (c : ascii) :
  hd_error post = Some c -> In c post.
Proof. destruct post; [discriminate|]. intros H. injection H as ->. now left. Qed.

(** The two boundaries of a stretch of an ASCII text, in the two
    models. *)
Lemma boundaries_of_text (pre w post : Text.text) :
  is_ascii (of_text (pre ++ w ++ post)) = true ->
  is_word_opt (last_or None (of_text pre))
  = Text.is_word_opt (Properties.last_or None pre)
  /\ is_word_opt (hd_error (of_text post)) = Text.is_word_opt (hd_error post).
Proof.
  intros H. rewrite !of_text_app in H.
  apply is_ascii_app in H as [Hpre H]. apply is_ascii_app in H as [_ Hpost].
  rewrite last_or_of_text, hd_error_of_text. split.
  - apply is_word_opt_code_point. intros c Hc.
    apply (is_ascii_of_text_In pre c Hpre). now apply last_or_In.
  - apply is_word_opt_code_point. intros c Hc.
    apply (is_ascii_of_text_In post c Hpost). now apply hd_error_member.
Qed.

(** A keyword stands as a whole word in an ASCII text in one model
    exactly when it does in the other. *)
Lemma occurs_as_word_of_text (kw : string) (s : Text.text) :
  is_ascii (of_text s) = true ->
  occurs_as_word kw (of_text s) <-> Properties.occurs_as_word kw s.
Proof.
  intros H. unfold occurs_as_word, Properties.occurs_as_word,
    Properties.occurs_as_word_after. split.
  - intros (pre' & w' & post' & E & Hw & Hl & Hp).
    unfold of_text in E. apply map_eq_app in E as (pre & rest & E & <- & E2).
    apply map_eq_app in E2 as (w & post & E2 & <- & <-).
    fold (of_text pre) in Hl. fold (of_text w) in Hw. fold (of_text post) in Hp.
    subst rest. subst s.
    destruct (boundaries_of_text pre w post H) as [B1 B2].
    exists pre, w, post. repeat split.
    + now apply spells_of_text.
    + now rewrite <- B1.
    + now rewrite <- B2.
  - intros (pre & w & post & -> & Hw & Hl & Hp).
    destruct (boundaries_of_text pre w post H) as [B1 B2].
    exists (of_text pre), (of_text w), (of_text post). repeat split.
    + now rewrite !of_text_app.
    + now apply spells_of_text.
    + now rewrite B1.
    + now rewrite B2.
Qed.

Lemma begins_with_select_of_text (s : Text.text) :
  begins_with_select (of_text s) <-> Properties.begins_with_select s.
Proof.
  unfold begins_with_select, Properties.begins_with_select. split.
  - intros (w' & rest' & E & Hw).
    unfold of_text in E. apply map_eq_app in E as (w & rest & -> & <- & <-).
    fold (of_text w) in Hw. exists w, rest. split; trivial.
    now apply spells_of_text.
  - intros (w & rest & -> & Hw).
    exists (of_text w), (of_text rest). split; [apply of_text_app|].
    now apply spells_of_text.
Qed.


Lemma allowed_of_text (lit : Text.text) :
  allowed (of_text lit) <-> In (Text.to_string lit) Config.ALLOWED_CATEGORIES.
Proof.
  unfold allowed. rewrite in_map_iff. split.
  - intros (a & E & Hin). unfold of_string in E. apply of_text_inj in E.
    subst lit. now rewrite to_string_of_string.
  - intros Hin. exists (Text.to_string lit). split; trivial.
    apply of_text_to_string.
Qed.

(** The literals extracted from an ASCII text are all allowed in one
    model exactly when they are in the other. *)
Lemma extracted_allowed_of_text (clean : Text.text) :
  is_ascii (of_text clean) = true ->
  (forall cat, In cat (findall_category (of_text clean)) -> allowed cat)
  <-> (forall cat, In cat (QueryExecutor.findall_category clean) ->
                   In cat Config.ALLOWED_CATEGORIES).
Proof.
  intros H. rewrite (findall_category_of_text _ H).
  unfold QueryExecutor.findall_category. split.
  - intros Hall cat Hin. apply in_map_iff in Hin as (lit & <- & Hin).
    apply allowed_of_text. apply Hall. now apply in_map.
  - intros Hall cat Hin. apply in_map_iff in Hin as (lit & <- & Hin).
    apply allowed_of_text. apply Hall. now apply in_map.
Qed.

(** The comment-stripped form of the text [t] as the theorems on the
    validator of [QueryExecutor] name it. *)
Lemma clean_to_string (t : Text.text) :
  QueryExecutor.strip_comments (Text.of_string (Text.to_string t))
  = QueryExecutor.strip_comments t.
Proof. now rewrite of_string_to_string. Qed.






(** A letter and its capital are both word characters. *)
Lemma is_word_capital (c : N) : is_word (capital c) = is_word c.
Proof.
  destruct (c <? 128) eqn:A.
  - assert (E : c = code_point (ascii_of_N c)).
    { unfold code_point. symmetry. apply N_ascii_embedding.
      apply N.ltb_lt in A. lia. }
    rewrite E in A |- *. rewrite capital_code_point.
    rewrite (is_word_ascii _ (upper_char_stays_ascii _ A)), (is_word_ascii _ A).
    apply TextFacts.is_word_upper_char.
  - unfold capital. apply N.ltb_ge in A.
    replace (c <=? code_point "z") with false; [now rewrite andb_false_r|].
    symmetry. apply N.leb_gt. change (code_point "z") with 122. lia.
Qed.

Lemma is_word_opt_capital (o : option N) :
  is_word_opt (option_map capital o) = is_word_opt o.
Proof. destruct o; [apply is_word_capital | reflexivity]. Qed.

Lemma last_or_step (prev : option N) (c : N) (pre : str) :
  last_or prev (c :: pre) = last_or (Some c) pre.
Proof. unfold last_or. cbn [rev]. now destruct (rev pre). Qed.

(** A keyword that stands in a text as a whole word is found by the
    pattern in the text with its letters from a to z raised. *)
Lemma whole_word_found (kw w post : str) (a z : N) (k k' : str) :
  kw = a :: k -> is_word a = true ->
  rev kw = z :: k' -> is_word z = true ->
  map capital w = kw ->
  is_word_opt (hd_error post) = false ->
  forall (pre : str) (prev : option N),
    is_word_opt (last_or prev pre) = false ->
    search_word_from (option_map capital prev) kw
      (map capital (pre ++ w ++ post)) = true.
Proof.
  intros Ekw Ha Erev Hz Hw Hpost. induction pre as [|c pre IH]; intros prev Hl.
  - cbn [app]. rewrite map_app, Hw.
    assert (M : match_word_at (option_map capital prev) kw
                  (kw ++ map capital post) = true).
    { unfold match_word_at, word_boundary.
      rewrite UnicodeCategories.starts_with_prefix,
        UnicodeCategories.skipn_prefix, Erev.
      unfold last_or in Hl. cbn [rev] in Hl.
      rewrite is_word_opt_capital, Hl.
      assert (H1 : is_word_opt (hd_error (kw ++ map capital post)) = true)
        by (rewrite Ekw; exact Ha).
      assert (H2 : is_word_opt (hd_error (map capital post)) = false).
      { destruct post as [|p post']; [reflexivity|].
        cbn [map hd_error is_word_opt] in *. now rewrite is_word_capital. }
      rewrite H1, H2. cbn [is_word_opt]. now rewrite Hz. }
    destruct (kw ++ map capital post); cbn [search_word_from]; now rewrite M.
  - rewrite last_or_step in Hl.
    cbn [app map search_word_from].
    change (Some (capital c)) with (option_map capital (Some c)).
    rewrite (IH (Some c) Hl). apply orb_true_r.
Qed.

Lemma occurs_as_word_found (kw : string) (s : str) (a z : N) (k k' : str) :
  of_string kw = a :: k -> is_word a = true ->
  rev (of_string kw) = z :: k' -> is_word z = true ->
  occurs_as_word kw s ->
  search_word (of_string kw) (map capital s) = true.
Proof.
  intros E Ha R Hz (pre & w & post & -> & Hw & Hl & Hp).
  unfold search_word. change (@None N) with (option_map capital None).
  apply (whole_word_found _ w post a z k k'); trivial.
Qed.

(** The other way round: in [caron_drop] no keyword stands as a whole
    word, since [drop] follows a letter, j with caron, and so is a part
    of a longer identifier; [str.upper] splits that letter into J and a
    combining caron, which is no word character, and the validator
    rejects the text for DROP. *)
Lemma keyword_inside_identifier_rejected :
  (forall kw, In kw QueryExecutor.DANGEROUS_KEYWORDS ->
              ~ occurs_as_word kw (strip_comments caron_drop))
  /\ upper_char 0x1F0 = [code_point "J"; 0x30C]
  /\ _validate_sql caron_drop = ValueError (forbidden_keyword_message "DROP").
Proof.
  split; [|split; vm_compute; reflexivity].
  intros kw Hin Hocc.
  assert (F : search_word (of_string kw) (map capital (strip_comments caron_drop))
              = false).
  { revert kw Hin Hocc. 
    assert (G : forallb (fun kw => negb (search_word (of_string kw)
                                          (map capital (strip_comments caron_drop))))
                        QueryExecutor.DANGEROUS_KEYWORDS = true)
      by (vm_compute; reflexivity).
    rewrite forallb_forall in G. intros kw Hin _.
    now apply negb_true_iff, G. }
  assert (P : forall kw, In kw QueryExecutor.DANGEROUS_KEYWORDS ->
              exists a z k k',
                of_string kw = a :: k /\ is_word a = true
                /\ rev (of_string kw) = z :: k' /\ is_word z = true).
  { clear. intros kw Hin. cbn [QueryExecutor.DANGEROUS_KEYWORDS In] in Hin.
    repeat (destruct Hin as [<- | Hin];
            [do 4 eexists; repeat split; vm_compute; reflexivity|]).
    destruct Hin. }
  destruct (P kw Hin) as (a & z & k & k' & E & Ha & R & Hz).
  rewrite (occurs_as_word_found kw _ a z k k' E Ha R Hz Hocc) in F.
  discriminate F.
Qed.

(** A dotless i gives I in upper case: the validator reads INSERT. *)
Example dotless_insert_rejected :
  _validate_sql dotless_insert = ValueError (forbidden_keyword_message "INSERT").
Proof. vm_compute. reflexivity. Qed.


(** [str.strip] takes a no-break space off: the text passes. *)
Example nbsp_select_passes : _validate_sql nbsp_select = passes.
Proof. vm_compute. reflexivity. Qed.

(** X1.  The validator accepts a text made of ASCII characters exactly
    when its comment-stripped form holds no forbidden keyword as a
    whole word, begins with SELECT once trimmed, and filters on allowed
    categories only. *)
Theorem ascii_validate_accepts_iff (sql : str) :
  is_ascii sql = true ->
  let clean := strip_comments sql in
  _validate_sql sql = passes
  <-> (forall kw, In kw QueryExecutor.DANGEROUS_KEYWORDS ->
                  ~ occurs_as_word kw clean)
      /\ begins_with_select (strip clean)
      /\ (forall cat, In cat (findall_category clean) -> allowed cat).
Proof.
  intros H clean. subst clean.
  destruct (ascii_text sql H) as (t & -> & Ht).
  rewrite strip_comments_of_text.
  pose proof (strip_comments_ascii t Ht) as Hc.
  rewrite (strip_of_text _ Hc), (validate_passes_iff t Ht).
  pose proof (ValidatorMore.validate_accepts_iff (Text.to_string t)) as V.
  cbv zeta in V. rewrite clean_to_string in V. rewrite V.
  rewrite begins_with_select_of_text, (extracted_allowed_of_text _ Hc).
  split; intros (A & B & C); repeat split; trivial;
    intros kw Hin Hocc; apply (A kw Hin);
    now apply (occurs_as_word_of_text kw _ Hc).
Qed.

Lemma ascii_validate_accepts_iff_witness :
  let sql := of_string "select id from issue_analytics where category = 'roads'" in
  is_ascii sql = true
  /\ (forall kw, In kw QueryExecutor.DANGEROUS_KEYWORDS ->
                 ~ occurs_as_word kw (strip_comments sql))
  /\ begins_with_select (strip (strip_comments sql))
  /\ (forall cat, In cat (findall_category (strip_comments sql)) -> allowed cat).
Proof.
  intros sql. split; [reflexivity|].
  apply (proj1 (ascii_validate_accepts_iff sql eq_refl)).
  vm_compute. reflexivity.
Defined.

(** X2.  When the validator rejects a text made of ASCII characters for
    a forbidden keyword, the keyword named in the reason stands in the
    comment-stripped text as a whole word, and no keyword listed before
    it does: the reason names the first such keyword in the order of
    the list, wherever the keywords stand in the text. *)
Theorem ascii_first_listed_keyword_named (sql : str) (kw : string) :
  is_ascii sql = true ->
  _validate_sql sql = ValueError (forbidden_keyword_message kw) ->
  exists before after,
    QueryExecutor.DANGEROUS_KEYWORDS = before ++ kw :: after
    /\ occurs_as_word kw (strip_comments sql)
    /\ forall k, In k before -> ~ occurs_as_word k (strip_comments sql).
Proof.
  intros H Hk. destruct (ascii_text sql H) as (t & -> & Ht).
  rewrite strip_comments_of_text.
  pose proof (strip_comments_ascii t Ht) as Hc.
  apply (validate_keyword_iff t kw Ht) in Hk.
  destruct (ValidatorMore.first_listed_keyword_named _ _ Hk)
    as (before & after & E & Hb).
  destruct (ValidatorFacts.forbidden_keyword_rejected (Text.to_string t))
    as [_ Hnamed].
  destruct (Hnamed kw Hk) as [_ Hocc].
  rewrite clean_to_string in Hb, Hocc.
  exists before, after. split; [exact E|]. split.
  - now apply occurs_as_word_of_text.
  - intros k Hin Ho. apply (Hb k Hin).
    now apply (occurs_as_word_of_text k _ Hc).
Qed.

Lemma ascii_first_listed_keyword_named_witness :
  let sql := of_string "update issues set x = 1; delete from issues" in
  is_ascii sql = true
  /\ exists before after,
       QueryExecutor.DANGEROUS_KEYWORDS = before ++ "DELETE" :: after
       /\ occurs_as_word "DELETE" (strip_comments sql)
       /\ forall k, In k before -> ~ occurs_as_word k (strip_comments sql).
Proof.
  intros sql. split; [reflexivity|].
  apply (ascii_first_listed_keyword_named sql "DELETE" eq_refl).
  vm_compute. reflexivity.
Defined.

(** Behind an e with acute accent, a letter, DROP is no whole word:
    the reason names DELETE. *)
Example accent_before_drop_names_delete :
  _validate_sql (of_string "SELECT 1 FROM " ++ [0xE9]
                   ++ of_string "DROP; delete from t")
  = ValueError (forbidden_keyword_message "DELETE").
Proof. vm_compute. reflexivity. Qed.

End UnicodeValidator.

(* ===================================================================== *)
(** * The output parser on every string                                   *)
(* ===================================================================== *)

Module UnicodeParser.
Import Unicode AsciiFacts ValidatorBridge VerdictFacts UnicodeValidator.
Local Open Scope N_scope.
Local Open Scope list_scope.

Lemma remove_from_of_text (old s : Text.text) (skip : nat) :
  remove_from (of_text old) skip (of_text s)
  = of_text (ModelService.remove_from old skip s).
Proof.
  revert skip. induction s as [|c r IH]; intros skip; [reflexivity|].
  destruct skip as [|k]; [|apply IH].
  change (remove_from (of_text old) 0 (of_text (c :: r)))
    with (if starts_with (of_text old) (of_text (c :: r))
          then remove_from (of_text old) (List.length (of_text old) - 1) (of_text r)
          else code_point c :: remove_from (of_text old) 0 (of_text r)).
  rewrite starts_with_of_text, length_of_text, !IH.
  cbn [ModelService.remove_from].
  now destruct (Text.starts_with old (c :: r)).
Qed.

Lemma remove_from_incl (old s : Text.text) (skip : nat) :
  incl (ModelService.remove_from old skip s) s.
Proof.
  revert skip. induction s as [|c r IH]; intros skip; [apply incl_refl|].
  destruct skip as [|k]; [|apply incl_tl, IH].
  cbn [ModelService.remove_from].
  destruct (Text.starts_with old (c :: r)); [apply incl_tl, IH|].
  apply incl_cons; [now left | apply incl_tl, IH].
Qed.

Lemma find_from_of_text (sub s : Text.text) :
  find_from (of_text sub) (of_text s) = ModelService.find_from sub s.
Proof.
  induction s as [|c r IH].
  - change (find_from (of_text sub) (of_text []))
      with (if starts_with (of_text sub) (of_text []) then Some 0%nat else None).
    now rewrite starts_with_of_text.
  - change (find_from (of_text sub) (of_text (c :: r)))
      with (if starts_with (of_text sub) (of_text (c :: r)) then Some 0%nat
            else option_map S (find_from (of_text sub) (of_text r))).
    now rewrite starts_with_of_text, IH.
Qed.

Lemma find_index_of_text (sub s : Text.text) :
  find_index (of_text sub) (of_text s) = ModelService.find sub s.
Proof. unfold find_index, ModelService.find. now rewrite find_from_of_text. Qed.

Lemma slice_from_of_text (i : Z) (s : Text.text) :
  slice_from i (of_text s) = of_text (ModelService.slice_from i s).
Proof.
  unfold slice_from, ModelService.slice_from.
  rewrite length_of_text. destruct (0 <=? i)%Z; apply skipn_of_text.
Qed.

Lemma slice_from_incl (i : Z) (s : Text.text) :
  incl (ModelService.slice_from i s) s.
Proof. unfold ModelService.slice_from. destruct (0 <=? i)%Z; apply skipn_incl. Qed.

(** What the parser returns is made of characters of the answer. *)
Lemma parse_text_incl (t : Text.text) : incl (ModelService.parse_text t) t.
Proof.
  unfold ModelService.parse_text, ModelService.remove.
  set (x := ModelService.remove_from ModelService.fence 0
              (ModelService.remove_from ModelService.sql_fence 0 t)).
  assert (Hx : incl x t)
    by (eapply incl_tran; apply remove_from_incl).
  assert (Hs : incl (Text.strip x) t)
    by (eapply incl_tran; [apply strip_incl | exact Hx]).
  eapply incl_tran; [apply strip_incl|].
  destruct (Text.contains _ _); [|exact Hs].
  eapply incl_tran; [apply slice_from_incl | exact Hs].
Qed.

(** On an ASCII answer the parser on code points is the parser of
    [ModelService]. *)
Lemma parse_of_text (t : Text.text) :
  is_ascii (of_text t) = true ->
  parse (of_text t) = of_text (ModelService.parse_text t).
Proof.
  intros H. unfold parse, ModelService.parse_text, remove, ModelService.remove.
  change sql_fence with (of_text ModelService.sql_fence). unfold fence.
  rewrite !remove_from_of_text.
  set (x := ModelService.remove_from ModelService.fence 0
              (ModelService.remove_from ModelService.sql_fence 0 t)).
  assert (Hx : is_ascii (of_text x) = true).
  { apply (is_ascii_incl _ t); [|exact H].
    eapply incl_tran; apply remove_from_incl. }
  rewrite (strip_of_text _ Hx).
  pose proof (strip_ascii _ Hx) as Hs.
  rewrite (upper_of_text _ Hs). unfold of_string.
  rewrite contains_of_text.
  destruct (Text.contains (Text.of_string "SELECT") (Text.upper (Text.strip x))).
  - rewrite find_index_of_text, slice_from_of_text.
    apply strip_of_text.
    apply (is_ascii_incl _ (Text.strip x)); [apply slice_from_incl | exact Hs].
  - now apply strip_of_text.
Qed.

Lemma parse_text_ascii (t : Text.text) :
  is_ascii (of_text t) = true ->
  is_ascii (of_text (ModelService.parse_text t)) = true.
Proof. apply is_ascii_incl, parse_text_incl. Qed.

(** X6.  The output of the parser for an answer made of ASCII
    characters begins with SELECT, in some letter case, or holds no
    SELECT at all: whatever came before the first SELECT of the answer
    is cut off. *)
Theorem ascii_parse_begins_with_select (t : str) :
  is_ascii t = true ->
  begins_with_select (parse t)
  \/ contains (of_string "SELECT") (upper (parse t)) = false.
Proof.
  intros H. destruct (ascii_text t H) as (x & -> & Hx).
  rewrite (parse_of_text x Hx), (upper_of_text _ (parse_text_ascii x Hx)).
  unfold of_string. rewrite contains_of_text, begins_with_select_of_text.
  apply ParserFacts.parse_text_select.
Qed.

Lemma ascii_parse_begins_with_select_witness :
  let answer := of_string "Sure! Here it is: select id from issue_analytics" in
  is_ascii answer = true
  /\ (begins_with_select (parse answer)
      \/ contains (of_string "SELECT") (upper (parse answer)) = false).
Proof.
  intros answer. split; [reflexivity|].
  apply (ascii_parse_begins_with_select answer eq_refl).
Defined.

(** X7.  An output of the parser that holds SELECT, for an answer made
    of ASCII characters, passes the SELECT check of the validator. *)
Theorem ascii_parse_passes_select_check (t : str) :
  is_ascii t = true ->
  contains (of_string "SELECT") (upper (parse t)) = true ->
  check_select (strip_comments (parse t)) = passes.
Proof.
  intros H. destruct (ascii_text t H) as (x & -> & Hx).
  pose proof (parse_text_ascii x Hx) as Hp.
  rewrite (parse_of_text x Hx), (upper_of_text _ Hp).
  unfold of_string at 1. rewrite contains_of_text. intros C.
  rewrite strip_comments_of_text,
    (check_select_of_text _ (strip_comments_ascii _ Hp)).
  destruct (ParserFacts.parse_text_select x) as [S | S].
  - now rewrite (ParserFacts.check_select_of_select _ S).
  - rewrite S in C. discriminate C.
Qed.

Lemma ascii_parse_passes_select_check_witness :
  let answer := of_string "Sure! Here it is: select id from issue_analytics" in
  is_ascii answer = true
  /\ check_select (strip_comments (parse answer)) = passes.
Proof.
  intros answer. split; [reflexivity|].
  apply (ascii_parse_passes_select_check answer eq_refl).
  vm_compute. reflexivity.
Defined.

(** Parsing twice is parsing once, on the texts of [Text]. *)
Lemma parse_text_idempotent (x : Text.text) :
  ModelService.parse_text (ModelService.parse_text x) = ModelService.parse_text x.
Proof.
  pose proof (ParserFacts.parse_idempotent (Text.to_string x)) as P.
  apply (f_equal Text.of_string) in P.
  rewrite !ParserFacts.of_string_parse in P.
  now rewrite of_string_to_string in P.
Qed.

(** X9.  Parsing an output of the parser gives it back, for an answer
    made of ASCII characters. *)
Theorem ascii_parse_idempotent (t : str) :
  is_ascii t = true -> parse (parse t) = parse t.
Proof.
  intros H. destruct (ascii_text t H) as (x & -> & Hx).
  rewrite (parse_of_text x Hx), (parse_of_text _ (parse_text_ascii x Hx)).
  now rewrite parse_text_idempotent.
Qed.

Lemma ascii_parse_idempotent_witness :
  let answer := of_string "Sure! Here it is: select id from issue_analytics" in
  is_ascii answer = true /\ parse (parse answer) = parse answer.
Proof.
  intros answer. split; [reflexivity|].
  apply (ascii_parse_idempotent answer eq_refl).
Defined.

(** Beyond ASCII none of the three holds.  Each sharp s of
    [sharp_select] gives two letters in upper case, so the index of the
    first SELECT in the upper-case text lies two places further than in
    the answer: the parser cuts inside the word, and a second run cuts
    again. *)
Example sharp_select_cut :
  upper sharp_select = of_string "SSSS X SELECT SELECT 1"
  /\ parse sharp_select = of_string "LECT SELECT 1"
  /\ parse (parse sharp_select) = of_string "SELECT 1"
  /\ check_select (strip_comments (parse sharp_select))
     = ValueError (of_string "Only SELECT queries are allowed").
Proof. repeat split; vm_compute; reflexivity. Qed.

End UnicodeParser.
